(** * update_goldsky.py: cursor recovery and the paginated harvester

    A shallow embedding of [src/update_utils/update_goldsky.py]
    ([get_latest_cursor], [scrape] and [update_goldsky]) together with the
    properties the specification states about them, and further properties
    read off the code.

    - Part I is the model: the Python operations the program uses, the
      events, the store file, [get_latest_cursor], the text of the query, one
      iteration of the loop of [scrape], the loop itself, [update_goldsky],
      and the remote source.
    - Part II names what the properties speak about: orders, invariants,
      the end of a run, services, the concrete sources and states of the
      examples.
    - Part III holds the lemmas.
    - Part IV states the claims of the specification, C1 to C10, in order,
      each with the instance or the counterexample that goes with it, and
      then, X1 to X19, what else was proved of the code.

    Conventions of the embedding.
    - Python [str] values are [string]s of ASCII characters.
    - Python [int] values are [Z].
    - A Python exception is a value of [exn]; code that may raise returns a
      [result]. [try: ... except Exception:] is [try_except].
    - [print] calls have no effect on any value the program computes and are
      left out.
    - The loop [while True] is run with fuel; the remote service and pandas'
      reader are what the program is run against, and are arguments of the
      model. The parser [gql] of line 113 stands before the service: a query
      text it does not read is the answer [Malformed], and the run raises. *)

(** * Part I. The model *)

From Stdlib Require Import ZArith List Bool Lia Ascii String.
From Stdlib Require Import Decimal DecimalString DecimalZ.
From Stdlib Require Import Sorted Permutation OrderedTypeEx.
Import ListNotations.

Local Open Scope string_scope.
Local Open Scope Z_scope.

(** ** Exceptions and fallible computations *)

Inductive exn : Type :=
| CalledProcessError   (* subprocess.run(..., check=True) on a failing command *)
| ValueError           (* int() of a non-number, datetime out of range *)
| OSError              (* a file that cannot be opened *)
| ParserError          (* pandas could not make sense of the text *)
| GraphQLSyntaxError.  (* gql could not make sense of the query text *)

Inductive result (A : Type) : Type :=
| Ok (a : A)
| Raise (e : exn).
Arguments Ok {A} a.
Arguments Raise {A} e.

Definition bind {A B : Type} (m : result A) (k : A -> result B) : result B :=
  match m with
  | Ok a => k a
  | Raise e => Raise e
  end.

(** [try: m  except Exception: h] *)
Definition try_except {A : Type} (m : result A) (h : exn -> result A) : result A :=
  match m with
  | Ok a => Ok a
  | Raise e => h e
  end.

Notation "x <- m ;; k" := (bind m (fun x => k))
  (at level 61, m at next level, right associativity).

(** ** The Python string operations the program uses *)

Module Py.

Definition LF : ascii := ascii_of_nat 10.
Definition comma : ascii := ascii_of_nat 44.
Definition dquote : ascii := ascii_of_nat 34.

(** [c.isspace()] on ASCII: TAB, LF, VT, FF, CR, the four separators
    0x1c..0x1f and the space. *)
Definition isspace (c : ascii) : bool :=
  let n := nat_of_ascii c in
  ((9 <=? n) && (n <=? 13) || (28 <=? n) && (n <=? 32))%nat.

Fixpoint lstrip (s : string) : string :=
  match s with
  | EmptyString => EmptyString
  | String c r => if isspace c then lstrip r else s
  end.

Fixpoint rstrip (s : string) : string :=
  match s with
  | EmptyString => EmptyString
  | String c r =>
      match rstrip r with
      | EmptyString => if isspace c then EmptyString else String c EmptyString
      | r' => String c r'
      end
  end.

(** [s.strip()] *)
Definition strip (s : string) : string := rstrip (lstrip s).

(** [s.split(sep)] for a one-character separator: never the empty list. *)
Fixpoint split (sep : ascii) (s : string) : list string :=
  match s with
  | EmptyString => [EmptyString]
  | String c r =>
      if Ascii.eqb c sep then EmptyString :: split sep r
      else match split sep r with
           | [] => [String c EmptyString]
           | h :: t => String c h :: t
           end
  end.

(** [x in l] and [l.index(x)] on a list of strings. *)
Fixpoint index (x : string) (l : list string) : option nat :=
  match l with
  | [] => None
  | y :: r => if String.eqb y x then Some 0%nat
              else option_map S (index x r)
  end.

Definition isdigit (c : ascii) : bool :=
  let n := nat_of_ascii c in ((48 <=? n) && (n <=? 57))%nat.

(** The digits of an integer literal: decimal digits, where single
    underscores may stand between two digits. [after_digit] tells whether the
    previous character was a digit. *)
Fixpoint literal_digits (after_digit : bool) (s : string) : option string :=
  match s with
  | EmptyString => if after_digit then Some EmptyString else None
  | String c r =>
      if Ascii.eqb c "_" then
        if after_digit then literal_digits false r else None
      else if isdigit c then option_map (String c) (literal_digits true r)
      else None
  end.

Definition unsigned_int (s : string) : result Z :=
  match literal_digits false s with
  | Some ds =>
      match NilEmpty.uint_of_string ds with
      | Some u => Ok (Z.of_uint u)
      | None => Raise ValueError
      end
  | None => Raise ValueError
  end.

(** The blanks [int()] skips around a number in an ASCII string: TAB, LF,
    VT, FF, CR and the space. The four separators 0x1c..0x1f, which
    [str.strip()] drops, are none of them: [int('12\x1c')] raises. *)
Definition is_c_space (c : ascii) : bool :=
  let n := nat_of_ascii c in ((9 <=? n) && (n <=? 13) || (n =? 32))%nat.

Fixpoint skip_blanks (s : string) : string :=
  match s with
  | EmptyString => EmptyString
  | String c r => if is_c_space c then skip_blanks r else s
  end.

Fixpoint drop_blanks (s : string) : string :=
  match s with
  | EmptyString => EmptyString
  | String c r =>
      match drop_blanks r with
      | EmptyString => if is_c_space c then EmptyString else String c EmptyString
      | r' => String c r'
      end
  end.

(** [int(s)] for a string [s]: blanks before and after are skipped, one sign
    is allowed, anything else raises [ValueError]. *)
Definition int (s : string) : result Z :=
  match drop_blanks (skip_blanks s) with
  | String c r =>
      if Ascii.eqb c "-" then z <- unsigned_int r ;; Ok (- z)
      else if Ascii.eqb c "+" then unsigned_int r
      else unsigned_int (String c r)
  | EmptyString => Raise ValueError
  end.

(** [str(z)] for an integer [z]. *)
Definition str (z : Z) : string := NilZero.string_of_int (Z.to_int z).

(** [datetime.fromtimestamp(t, tz=timezone.utc)] exists only for the years
    1 to 9999 ([datetime.MINYEAR], [datetime.MAXYEAR]); outside it raises. The
    program only prints the value, but the exception is one of its paths. *)
Definition MIN_TIMESTAMP : Z := -62135596800.
Definition MAX_TIMESTAMP : Z := 253402300799.

Definition fromtimestamp (t : Z) : result unit :=
  if (MIN_TIMESTAMP <=? t) && (t <=? MAX_TIMESTAMP) then Ok tt
  else Raise ValueError.

End Py.

(** ** Events *)

(** One element of [res['orderFilledEvents']], flattened: the eleven fields
    the query asks for. The timestamp is an integer, as the data model of the
    specification has it and as lines 140-142 read it; every other field is
    an opaque string. (Should the service send its timestamps as strings of
    digits, pandas would sort them as strings: the same order as long as they
    have the same number of digits.) *)
Module Ev.
Record t : Type := mk {
  fee : string;
  id : string;
  maker : string;
  makerAmountFilled : string;
  makerAssetId : string;
  orderHash : string;
  taker : string;
  takerAmountFilled : string;
  takerAssetId : string;
  timestamp : Z;
  transactionHash : string
}.
End Ev.

Definition event : Type := Ev.t.

(** An event whose payload fields all hold [p]. *)
Definition plain_event (ts : Z) (i p : string) : event :=
  Ev.mk p i p p p p p p p ts p.

(** The order of [df.sort_values(['timestamp', 'id'], ascending=True)]:
    timestamps as integers, then ids as strings, character by character. *)
Definition key_compare (a b : event) : comparison :=
  match Z.compare (Ev.timestamp a) (Ev.timestamp b) with
  | Eq => String.compare (Ev.id a) (Ev.id b)
  | c => c
  end.

Definition key_leb (a b : event) : bool :=
  match key_compare a b with Gt => false | _ => true end.

(** [sort_values] is a stable sort: rows with equal keys keep their order. *)
Fixpoint insert_sorted (e : event) (l : list event) : list event :=
  match l with
  | [] => [e]
  | x :: r => if key_leb e x then e :: l else x :: insert_sorted e r
  end.

Fixpoint sort_values (l : list event) : list event :=
  match l with
  | [] => []
  | e :: r => insert_sorted e (sort_values r)
  end.

(** [df.drop_duplicates(subset=['id'])]: of the rows with one id the first
    stays. [seen] holds the ids of the rows already kept. *)
Fixpoint drop_duplicates_from (seen : list string) (l : list event) : list event :=
  match l with
  | [] => []
  | e :: r =>
      if existsb (String.eqb (Ev.id e)) seen then drop_duplicates_from seen r
      else e :: drop_duplicates_from (Ev.id e :: seen) r
  end.

Definition drop_duplicates (l : list event) : list event :=
  drop_duplicates_from [] l.

(** ** The store file *)

Definition COLUMNS_TO_SAVE : list string :=
  ["timestamp"; "maker"; "makerAssetId"; "makerAmountFilled"; "taker";
   "takerAssetId"; "takerAmountFilled"; "transactionHash"].

(** [df[col]] as the text [to_csv] writes for it. *)
Definition column (col : string) (e : event) : string :=
  if String.eqb col "timestamp" then Py.str (Ev.timestamp e)
  else if String.eqb col "maker" then Ev.maker e
  else if String.eqb col "makerAssetId" then Ev.makerAssetId e
  else if String.eqb col "makerAmountFilled" then Ev.makerAmountFilled e
  else if String.eqb col "taker" then Ev.taker e
  else if String.eqb col "takerAssetId" then Ev.takerAssetId e
  else if String.eqb col "takerAmountFilled" then Ev.takerAmountFilled e
  else if String.eqb col "transactionHash" then Ev.transactionHash e
  else if String.eqb col "id" then Ev.id e
  else if String.eqb col "fee" then Ev.fee e
  else Ev.orderHash e.

Fixpoint has_char (p : ascii -> bool) (s : string) : bool :=
  match s with
  | EmptyString => false
  | String c r => p c || has_char p r
  end.

(** A character that makes the csv writer quote a field: the separator, the
    quote, and the line feed, with which [to_csv] ends a line. A carriage
    return on its own is written as it is. *)
Definition csv_special (c : ascii) : bool :=
  Ascii.eqb c Py.comma || Ascii.eqb c Py.dquote || Ascii.eqb c Py.LF.

Fixpoint double_quotes (s : string) : string :=
  match s with
  | EmptyString => EmptyString
  | String c r =>
      if Ascii.eqb c Py.dquote then String c (String c (double_quotes r))
      else String c (double_quotes r)
  end.

(** Minimal quoting: a field is written as it is unless it holds a comma, a
    quote or a line break. *)
Definition csv_field (s : string) : string :=
  if has_char csv_special s
  then String Py.dquote (double_quotes s ++ String Py.dquote EmptyString)
  else s.

Definition csv_line (fields : list string) : string :=
  String.concat (String Py.comma EmptyString) (map csv_field fields)
  ++ String Py.LF EmptyString.

Definition csv_row (e : event) : string :=
  csv_line (map (fun col => column col e) COLUMNS_TO_SAVE).

Definition csv_header : string := csv_line COLUMNS_TO_SAVE.

Fixpoint csv_rows (l : list event) : string :=
  match l with
  | [] => EmptyString
  | e :: r => csv_row e ++ csv_rows r
  end.

(** [goldsky/orderFilled.csv] as the program can find it. *)
Inductive file : Type :=
| NoFile                  (* no such file *)
| NoAccess                (* the file exists; reading and writing it fail *)
| File (text : string).   (* the file exists and holds [text] *)

(** [os.path.isfile] *)
Definition isfile (f : file) : bool :=
  match f with NoFile => false | _ => true end.

(** Lines 183-186: [to_csv(..., mode='a', header=None)] on an existing file,
    [to_csv(...)] with the header otherwise. *)
Definition to_csv (f : file) (df : list event) : result file :=
  if isfile f then
    match f with
    | File text => Ok (File (text ++ csv_rows df))
    | _ => Raise OSError
    end
  else Ok (File (csv_header ++ csv_rows df)).

(** The lines of a text: the pieces between line feeds, where a line feed at
    the very end starts no further line. *)
Definition lines (text : string) : list string :=
  match text with
  | EmptyString => []
  | _ => let ls := Py.split Py.LF text in
         if String.eqb (last ls EmptyString) EmptyString then removelast ls else ls
  end.

(** [subprocess.run(['tail', '-n', '1', f], check=True).stdout], without the
    line feed that ends it ([strip] drops it). *)
Definition tail_1 (f : file) : result string :=
  match f with
  | File text => Ok (last (lines text) EmptyString)
  | _ => Raise CalledProcessError
  end.

(** [subprocess.run(['head', '-n', '1', f], check=True).stdout], likewise. *)
Definition head_1 (f : file) : result string :=
  match f with
  | File text => Ok (hd EmptyString (lines text))
  | _ => Raise CalledProcessError
  end.

(** ** Cursor recovery: [get_latest_cursor] *)

(** What the pandas fallback (lines 52-57) sees of a [DataFrame]: its column
    names, its rows, and a cell as [int()] reads it. *)
Inductive cell : Type :=
| CInt (z : Z)                  (* an integer column *)
| CFloat (truncated : option Z) (* a float: its integer part, none for nan and inf *)
| CStr (s : string).            (* an object column *)

Record DataFrame : Type := {
  columns : list string;
  rows : list (string -> cell)
}.

Definition int_of_cell (c : cell) : result Z :=
  match c with
  | CInt z => Ok z
  | CFloat (Some z) => Ok z
  | CFloat None => Raise ValueError
  | CStr s => Py.int s
  end.

Definition cursor : Type := (Z * option string)%type.

Section Recovery.

(** [pd.read_csv] on the text of a file: library code, taken as it comes. *)
Variable read_csv : string -> result DataFrame.

Definition pd_read_csv (f : file) : result DataFrame :=
  match f with
  | File text => read_csv text
  | _ => Raise OSError
  end.

(** Lines 30-47, the body of the outer [try]. [Ok (Some c)] is [return c],
    [Ok None] is reaching the end of the block, [Raise] an exception. *)
Definition tail_block (f : file) : result (option cursor) :=
  out <- tail_1 f ;;
  let last_line := Py.strip out in
  if String.eqb last_line EmptyString then Ok None
  else
    header_out <- head_1 f ;;
    let headers := Py.split Py.comma (Py.strip header_out) in
    match Py.index "timestamp" headers with
    | Some timestamp_index =>
        let values := Py.split Py.comma last_line in
        match nth_error values timestamp_index with
        | Some v =>
            last_timestamp <- Py.int v ;;
            _ <- Py.fromtimestamp last_timestamp ;;
            Ok (Some (last_timestamp - 1, None))
        | None => Ok None
        end
    | None => Ok None
    end.

(** Lines 52-57, the body of the inner [try]. *)
Definition pandas_block (f : file) : result (option cursor) :=
  df <- pd_read_csv f ;;
  match List.rev (rows df) with
  | last_row :: _ =>
      match Py.index "timestamp" (columns df) with
      | Some _ =>
          let last_timestamp := last_row "timestamp" in
          t <- int_of_cell last_timestamp ;;
          _ <- Py.fromtimestamp t ;;
          Ok (Some (t - 1, None))
      | None => Ok None
      end
  | [] => Ok None
  end.

Definition get_latest_cursor (f : file) : result cursor :=
  if negb (isfile f) then Ok (0, None)
  else
    r <- try_except (tail_block f)
           (fun _ => try_except (pandas_block f) (fun _ => Ok None)) ;;
    match r with
    | Some c => Ok c
    | None => Ok (0, None)
    end.

End Recovery.

(** ** The harvester: [scrape] *)

(** The [where] argument of the query, as lines 87-92 build it. *)
Inductive where_clause : Type :=
| timestamp_gt (t : Z)                      (* timestamp_gt: "t" *)
| timestamp_id_gt (t : Z) (i : string).     (* timestamp: "t", id_gt: "i" *)

(** What lines 113-118 do with the text of the query: [gql(q_string)]
    raises, the text being no GraphQL document (line 113 is outside the
    [try], so this leaves [scrape]); [client.execute(query)] raises (line 118,
    inside the [try]); or it gives the list under ['orderFilledEvents'] (a
    null there counts as the empty list, line 125). *)
Inductive response : Type :=
| Malformed
| QueryError
| Events (l : list event).

(** The variables of [scrape], the store file, and what the run has done to
    the world: [appended] lists the rows handed to [to_csv] so far (with their
    ids, which the file does not keep), [slept] the seconds spent in
    [time.sleep]. *)
Record state : Type := mkState {
  last_timestamp : Z;
  last_id : option string;
  sticky_timestamp : option Z;
  count : nat;
  total_records : nat;
  output_file : file;
  appended : list event;
  slept : Z
}.

(** [f'{last_id}'] *)
Definition format_id (i : option string) : string :=
  match i with Some s => s | None => "None" end.

(** Lines 87-92. *)
Definition build_where (s : state) : where_clause :=
  match sticky_timestamp s with
  | Some t => timestamp_id_gt t (format_id (last_id s))
  | None => timestamp_gt (last_timestamp s)
  end.

(** *** The text of the query *)

(** The service is sent a text, [q_string]; the model hands [execute] what
    the text is made from, the filter and the page size. [q_string] is
    modelled beside it, so that the two can be compared. *)

Fixpoint spaces (n : nat) : string :=
  match n with
  | O => EmptyString
  | S k => String " " (spaces k)
  end.

(** The text [s] between double quotes, and [rest] after it. *)
Definition quoted (s rest : string) : string :=
  String Py.dquote (s ++ String Py.dquote rest).

(** Lines 87-92: the f-strings of the where clause. *)
Definition where_text (s : state) : string :=
  match sticky_timestamp s with
  | Some st =>
      "timestamp: " ++ quoted (Py.str st)
        (", id_gt: " ++ quoted (format_id (last_id s)) EmptyString)
  | None => "timestamp_gt: " ++ quoted (Py.str (last_timestamp s)) EmptyString
  end.

(** Lines 98-108: the fields the query asks for. *)
Definition query_fields : list string :=
  ["fee"; "id"; "maker"; "makerAmountFilled"; "makerAssetId"; "orderHash"; "taker";
   "takerAmountFilled"; "takerAssetId"; "timestamp"; "transactionHash"].

(** A line of the query text: [indent] spaces, [s] and a line feed. *)
Definition q_line (indent : nat) (s : string) : string :=
  spaces indent ++ s ++ String Py.LF EmptyString.

(** Lines 94-111: the three literals of [q_string], and [q_string]. *)
Definition q_head : string :=
  q_line 0 "query MyQuery {" ++
  q_line 24 "orderFilledEvents(orderBy: timestamp, orderDirection: asc" ++
  spaces 45 ++ "first: ".

Definition q_middle : string :=
  String Py.LF (spaces 45 ++ "where: {").

Definition q_tail : string :=
  q_line 0 "}) {" ++
  String.concat EmptyString (map (q_line 28) query_fields) ++
  q_line 24 "}" ++ q_line 20 "}" ++ spaces 16.

Definition q_string (at_once : nat) (s : state) : string :=
  q_head ++ Py.str (Z.of_nat at_once) ++ q_middle ++ where_text s ++ q_tail.

Inductive outcome : Type :=
| Continue (s : state)          (* next iteration *)
| Break (s : state)             (* the loop is left *)
| Raised (e : exn) (s : state). (* an exception leaves [scrape] *)

(** Lines 147-171: the cursor after a batch [df] (sorted, not empty; [e0] is
    any of its rows). *)
Definition advance_cursor (at_once : nat) (s : state) (e0 : event) (df : list event) : state :=
  let batch_last_timestamp := Ev.timestamp (last df e0) in
  let batch_last_id := Ev.id (last df e0) in
  let batch_first_timestamp := Ev.timestamp (hd e0 df) in
  if (at_once <=? List.length df)%nat then
    if batch_first_timestamp =? batch_last_timestamp then
      mkState (last_timestamp s) (Some batch_last_id) (Some batch_last_timestamp)
              (count s) (total_records s) (output_file s) (appended s) (slept s)
    else
      mkState (last_timestamp s) (Some batch_last_id) (Some batch_last_timestamp)
              (count s) (total_records s) (output_file s) (appended s) (slept s)
  else
    match sticky_timestamp s with
    | Some st =>
        mkState st None None
                (count s) (total_records s) (output_file s) (appended s) (slept s)
    | None =>
        mkState batch_last_timestamp (last_id s) None
                (count s) (total_records s) (output_file s) (appended s) (slept s)
    end.

(** Lines 173-189: count the batch [df] (of the cursor state [s1]), drop its
    duplicate ids, append what is left to the store and decide whether to go
    on. *)
Definition save_batch (at_once : nat) (s1 : state) (df : list event) : outcome :=
  let count' := S (count s1) in
  let total_records' := (total_records s1 + List.length df)%nat in
  let df := drop_duplicates df in
  match to_csv (output_file s1) df with
  | Raise e =>
      Raised e (mkState (last_timestamp s1) (last_id s1) (sticky_timestamp s1)
                        count' total_records' (output_file s1) (appended s1)
                        (slept s1))
  | Ok f =>
      let s2 := mkState (last_timestamp s1) (last_id s1) (sticky_timestamp s1)
                        count' total_records' f (appended s1 ++ df) (slept s1) in
      if (List.length df <? at_once)%nat &&
         match sticky_timestamp s2 with None => true | Some _ => false end
      then Break s2 else Continue s2
  end.

(** One pass through the body of [while True] (lines 86-189), given what
    [gql] and [client.execute] did. *)
Definition iteration (at_once : nat) (s : state) (r : response) : outcome :=
  match r with
  | Malformed => Raised GraphQLSyntaxError s
  | QueryError =>
      Continue (mkState (last_timestamp s) (last_id s) (sticky_timestamp s)
                        (count s) (total_records s) (output_file s) (appended s)
                        (slept s + 5))
  | Events [] =>
      match sticky_timestamp s with
      | Some st =>
          Continue (mkState st None None
                            (count s) (total_records s) (output_file s) (appended s)
                            (slept s))
      | None => Break s
      end
  | Events ((e0 :: _) as l) =>
      let df := sort_values l in
      (* line 144: the readable time of the last timestamp, for the log *)
      match Py.fromtimestamp (Ev.timestamp (last df e0)) with
      | Raise e => Raised e s
      | Ok _ => save_batch at_once (advance_cursor at_once s e0 df) df
      end
  end.

(** The result of running [scrape]: it returned, it raised, or the model's
    fuel ran out first. *)
Inductive run : Type :=
| Finished (s : state)
| Failed (e : exn) (s : state)
| OutOfFuel (s : state).

Section Harvest.

Variable read_csv : string -> result DataFrame.

(** The parser and the remote service: what [gql] and the [n]-th call of
    [client.execute] make of the query text built for the given [where] and
    [first]. *)
Variable execute : nat -> where_clause -> nat -> response.

Variable at_once : nat.

(** [while True]: [n] counts the calls of [client.execute] made so far. *)
Fixpoint loop (fuel : nat) (n : nat) (s : state) : run :=
  match fuel with
  | O => OutOfFuel s
  | S fuel' =>
      match iteration at_once s (execute n (build_where s) at_once) with
      | Continue s' => loop fuel' (S n) s'
      | Break s' => Finished s'
      | Raised e s' => Failed e s'
      end
  end.

(** Lines 71-77: the state in which the loop is entered. *)
Definition initial_state (c : cursor) (f : file) : state :=
  mkState (fst c) (snd c) None 0%nat 0%nat f [] 0.

Definition scrape (fuel : nat) (f : file) : run :=
  match get_latest_cursor read_csv f with
  | Ok c => loop fuel 0%nat (initial_state c f)
  | Raise e => Failed e (initial_state (0, None) f)
  end.

End Harvest.

(** ** The entry point: [update_goldsky] *)




Section EntryPoint.

Variable read_csv : string -> result DataFrame.
Variable execute : nat -> where_clause -> nat -> response.


End EntryPoint.

(** ** The remote source *)

(** Does an event pass the filter of a query? Ids compare as strings. *)
Definition matches (w : where_clause) (e : event) : bool :=
  match w with
  | timestamp_gt t => t <? Ev.timestamp e
  | timestamp_id_gt t i => (Ev.timestamp e =? t) && String.ltb i (Ev.id e)
  end.

(** A character that a GraphQL string between double quotes does not hold
    as it is: the double quote ends the string, the backslash starts an
    escape, and a line break may not stand in it. *)
Definition ends_or_escapes (c : ascii) : bool :=
  Ascii.eqb c Py.dquote || Ascii.eqb c "\" ||
  Ascii.eqb c Py.LF || Ascii.eqb c (ascii_of_nat 13).

(** Line 113: is the text built for the filter [w] (lines 87-92, where the
    id is pasted between double quotes as it is) read by [gql] as that
    filter? It is when the id holds no double quote, backslash or line
    break. Otherwise the string ends before the id does, or an escape is read
    in it: the parser raises (as it does for an id with one double quote in
    it), or it reads another query than the one meant. *)
Definition parses (w : where_clause) : bool :=
  match w with
  | timestamp_gt _ => true
  | timestamp_id_gt _ i => negb (has_char ends_or_escapes i)
  end.

(** Modelled from the spec: the remote query interface (the GraphQL service is
    not code of this repository), behind the parser of line 113. Over a fixed
    set [db] of events it answers a query with the first [first] events that
    pass the filter, ordered by timestamp and then by id. A text that is not
    read as the filter it was built for is taken to make the parser raise. *)
Definition remote_fetch (db : list event) (w : where_clause) (first : nat) : response :=
  if parses w then Events (firstn first (sort_values (filter (matches w) db)))
  else Malformed.

(** A remote service that never fails. *)
Definition steady (db : list event) : nat -> where_clause -> nat -> response :=
  fun _ => remote_fetch db.

(** A remote service whose first [k] calls fail. The parser comes before the
    call: a text it rejects is rejected from the first. *)
Definition flaky (k : nat) (db : list event) : nat -> where_clause -> nat -> response :=
  fun n w first =>
    if parses w && (n <? k)%nat then QueryError else remote_fetch db w first.

(** A reader that rejects every text. It stands for [pd.read_csv] in the
    concrete runs below; none of them reaches the fallback of
    [get_latest_cursor]. *)
Definition read_csv_rejects : string -> result DataFrame :=
  fun _ => Raise ParserError.

(** * Part II. The vocabulary of the properties *)

(** ** Orders on events *)

(** Strictly before, and at or before, in the order of [sort_values]. *)
Definition key_lt (a b : event) : Prop := key_compare a b = Lt.
Definition key_le (a b : event) : Prop := key_compare a b <> Gt.

(** ** States of a run *)

(** The state an iteration ends in. *)
Definition outcome_state (o : outcome) : state :=
  match o with
  | Continue s => s
  | Break s => s
  | Raised _ s => s
  end.

(** The state a run has reached: on [OutOfFuel] after [fuel] iterations this
    is the state at the start of the next iteration. *)
Definition run_state (r : run) : state :=
  match r with
  | Finished s => s
  | Failed _ s => s
  | OutOfFuel s => s
  end.

(** The state [s] after sleeping until [z] seconds have gone. *)
Definition with_slept (s : state) (z : Z) : state :=
  mkState (last_timestamp s) (last_id s) (sticky_timestamp s)
          (count s) (total_records s) (output_file s) (appended s) z.

(** The state after a sticky timestamp [st] is found exhausted. *)
Definition past_sticky (s : state) (st : Z) : state :=
  mkState st None None (count s) (total_records s) (output_file s) (appended s) (slept s).

(** The timestamps [datetime] can show. *)
Definition in_datetime_range (t : Z) : Prop :=
  Py.MIN_TIMESTAMP <= t <= Py.MAX_TIMESTAMP.

(** The id of the cursor is set exactly in sticky mode. *)
Definition cursor_shape (s : state) : Prop :=
  last_id s = None <-> sticky_timestamp s = None.

(** ** Invariants of a run *)

(** A service is honest when every event it returns passes the filter it
    was asked with. *)
Definition honest (execute : nat -> where_clause -> nat -> response) : Prop :=
  forall n w first,
    match execute n w first with
    | Events l => Forall (fun e => matches w e = true) l
    | QueryError => True
    | Malformed => True
    end.

(** The event lies at or before the cursor. *)
Definition below_cursor (s : state) (e : event) : Prop :=
  match sticky_timestamp s with
  | Some st =>
      Ev.timestamp e < st \/
      (Ev.timestamp e = st /\
       exists i, last_id s = Some i /\ String.compare (Ev.id e) i <> Gt)
  | None => Ev.timestamp e <= last_timestamp s
  end.

(** The cursor lies at or after the timestamp [c0] the run started from. *)
Definition cursor_from (c0 : Z) (s : state) : Prop :=
  match sticky_timestamp s with
  | Some st => c0 < st
  | None => c0 <= last_timestamp s
  end.

(** What every state of a run entered with the cursor [(c0, None)] against
    an honest service satisfies: the rows appended so far are in strict key
    order, lie after [c0] and at or before the cursor, and are dates. *)
Record run_inv (c0 : Z) (s : state) : Prop := {
  inv_shape : cursor_shape s;
  inv_sorted : StronglySorted key_lt (appended s);
  inv_from : Forall (fun e => c0 < Ev.timestamp e) (appended s);
  inv_below : Forall (below_cursor s) (appended s);
  inv_max : Forall (fun e => Ev.timestamp e <= Py.MAX_TIMESTAMP) (appended s);
  inv_cursor : cursor_from c0 s
}.

(** The file after the rows [rs] were appended to a file found as [f0]. *)
Definition file_after (f0 : file) (rs : list event) : file :=
  match rs with
  | [] => f0
  | _ =>
      match f0 with
      | NoFile => File (csv_header ++ csv_rows rs)
      | File text => File (text ++ csv_rows rs)
      | NoAccess => NoAccess
      end
  end.

(** ** Text *)

Definition is_LF (c : ascii) : bool := Ascii.eqb c Py.LF.
Definition is_comma (c : ascii) : bool := Ascii.eqb c Py.comma.
Definition is_dquote (c : ascii) : bool := Ascii.eqb c Py.dquote.

Fixpoint all_digits (s : string) : bool :=
  match s with
  | EmptyString => true
  | String c r => Py.isdigit c && all_digits r
  end.

(** A row whose saved fields hold no line feed stays on one line. *)
Definition one_line (e : event) : Prop :=
  Forall (fun col => has_char is_LF (column col e) = false) COLUMNS_TO_SAVE.

(** The text ends with a line feed. *)
Definition ends_with_LF (t : string) : Prop :=
  exists t', t = (t' ++ String Py.LF EmptyString)%string.

(** The header line, without its line feed. *)
Definition header_text : string :=
  String.concat (String Py.comma EmptyString) COLUMNS_TO_SAVE.



(** ** The text of a store, as recovery reads it *)











(** The dates [datetime] can show, in numbers. *)
Definition is_date (t : Z) : bool := (-62135596800 <=? t) && (t <=? 253402300799).






(** ** Order and identity in the store *)

Definition timestamp_le (a b : event) : Prop := Ev.timestamp a <= Ev.timestamp b.

(** An event the service has returned to some query. *)
Definition served (execute : nat -> where_clause -> nat -> response) (e : event) : Prop :=
  exists n w first l, execute n w first = Events l /\ In e l.

(** The service knows every id at one timestamp only. *)
Definition unique_ids (execute : nat -> where_clause -> nat -> response) : Prop :=
  forall a b, served execute a -> served execute b ->
              Ev.id a = Ev.id b -> Ev.timestamp a = Ev.timestamp b.

(** The key of an event in the order of [sort_values]. *)
Definition key (e : event) : Z * string := (Ev.timestamp e, Ev.id e).

(** Every event of the source [db] after [c0] and at or before the cursor
    is in the store. *)
Definition complete (db : list event) (c0 : Z) (s : state) : Prop :=
  forall e, In e db -> c0 < Ev.timestamp e -> below_cursor s e -> In e (appended s).

(** What every state of a run on a store that can be written satisfies
    against the fixed source [db]. *)
Record gapless (db : list event) (c0 : Z) (s : state) : Prop := {
  gap_shape : cursor_shape s;
  gap_file : output_file s <> NoAccess;
  gap_from : cursor_from c0 s;
  gap_complete : complete db c0 s
}.

(** ** Ids that the query text can hold *)

(** A printable ASCII character other than the double quote and the
    backslash: between the double quotes of the query text it stands for
    itself. *)
Definition plain_char (c : ascii) : bool :=
  let n := nat_of_ascii c in
  ((32 <=? n) && (n <=? 126) && negb (n =? 34) && negb (n =? 92))%nat.

(** An id made of such characters. *)
Definition plain (i : string) : bool :=
  negb (has_char (fun c => negb (plain_char c)) i).

(** The id of the cursor, when it has one, is plain. *)
Definition plain_cursor (s : state) : Prop :=
  match last_id s with
  | Some i => plain i = true
  | None => True
  end.

(** ** The end of a run *)

(** Did the run end, by returning or by raising? *)
Definition has_ended (r : run) : bool :=
  match r with OutOfFuel _ => false | _ => true end.

(** The event is still to come: the next query asks for it, or it lies
    behind the sticky timestamp. *)
Definition ahead (s : state) (e : event) : bool :=
  matches (build_where s) e ||
  match sticky_timestamp s with
  | Some st => st <? Ev.timestamp e
  | None => false
  end.

(** How far a run against the source [db] is from its end: twice the events
    still to come, and one more in sticky mode. *)
Definition distance (db : list event) (s : state) : nat :=
  (2 * List.length (filter (ahead s) db) +
   match sticky_timestamp s with Some _ => 1 | None => 0 end)%nat.

(** The events of [db] with a timestamp after [c0] and up to [t]. *)
Definition between (c0 t : Z) (db : list event) : list event :=
  filter (fun e => (c0 <? Ev.timestamp e) && (Ev.timestamp e <=? t)) db.

(** ** Services *)

(** A service that never answers with more events than were asked for. *)
Definition respects_first (execute : nat -> where_clause -> nat -> response) : Prop :=
  forall n w first l, execute n w first = Events l -> (List.length l <= first)%nat.

(** A service none of whose answers holds an id twice. *)
Definition distinct_answers (execute : nat -> where_clause -> nat -> response) : Prop :=
  forall n w first l, execute n w first = Events l -> NoDup (map Ev.id l).

(** A service that answers as the source [db] does, when it answers. *)
Definition fails_or_serves (db : list event)
    (execute : nat -> where_clause -> nat -> response) : Prop :=
  forall n w first,
    execute n w first = QueryError \/ execute n w first = remote_fetch db w first.

(** The run [r] with the clock of its state set to [z]. *)
Definition run_with_slept (r : run) (z : Z) : run :=
  match r with
  | Finished s => Finished (with_slept s z)
  | Failed e s => Failed e (with_slept s z)
  | OutOfFuel s => OutOfFuel (with_slept s z)
  end.

(** ** Counters *)

(** What the counters of every state of a run satisfy: no batch is empty,
    and no row is stored that was not fetched. *)
Record counted (s : state) : Prop := {
  cnt_batches : (count s <= total_records s)%nat;
  cnt_rows : (List.length (appended s) <= total_records s)%nat
}.

(** ** Concrete sources, states and runs *)

(** An order-filled event with a small payload; its transaction hash shows
    its id, so that the rows of the store can be told apart. *)
Definition sample (ts : Z) (i : string) : event :=
  Ev.mk "0" i "0xm" "1" "11" "0xh" "0xt" "2" "22" ts ("0x" ++ i).

(** Did [scrape] return? *)
Definition is_finished (r : run) : bool :=
  match r with Finished _ => true | _ => false end.

(** Is each row at or before the next one, in the order of [sort_values]? *)
Fixpoint sorted_by_key (l : list event) : bool :=
  match l with
  | a :: ((b :: _) as r) => key_leb a b && sorted_by_key r
  | _ => true
  end.

(** A source at one timestamp, one of whose ids holds a double quote. *)
Definition source_quoted : list event :=
  [sample 100 "a"; sample 100 ("a" ++ String Py.dquote "b"); sample 100 "c"].

(** Three events at timestamp 100, one at 200; pages of two. *)
Definition source_sticky : list event :=
  [sample 100 "a"; sample 100 "b"; sample 100 "c"; sample 200 "d"].

(** The state in which the second query of a run on [source_sticky] is
    made: sticky at timestamp 100, behind id b. *)
Definition sticky_state : state :=
  mkState 0 (Some "b") (Some 100) 1%nat 2%nat
          (File (csv_header ++ csv_rows [sample 100 "a"; sample 100 "b"]))
          [sample 100 "a"; sample 100 "b"] 0.

(** The line of the store for [sample 100 i]. *)
Definition row (i : string) : string :=
  "100,0xm,11,1,0xt,22,2,0x" ++ i ++ String Py.LF "".

(** One event; pages of five. *)
Definition source_one : list event := [sample 100 "a"].

(** A run on an absent store, and the run resumed on what it wrote. *)
Definition first_run_one : run :=
  scrape read_csv_rejects (steady source_one) 5 3 NoFile.

Definition second_run_one : run :=
  scrape read_csv_rejects (steady source_one) 5 3 (output_file (run_state first_run_one)).

(** Two events at one timestamp; pages of five. *)
Definition source_two : list event := [sample 100 "a"; sample 100 "b"].

(** Likewise against [source_two]. *)
Definition first_run_two : run :=
  scrape read_csv_rejects (steady source_two) 5 3 NoFile.

Definition second_run_two : run :=
  scrape read_csv_rejects (steady source_two) 5 3 (output_file (run_state first_run_two)).

(** Five events at one timestamp; pages of two. *)
Definition source_five : list event :=
  [sample 100 "a"; sample 100 "b"; sample 100 "c"; sample 100 "d"; sample 100 "e"].

(** Sticky at timestamp 100 behind id c, the last id the source has there. *)
Definition exhausted_state : state :=
  mkState 0 (Some "c") (Some 100) 2%nat 4%nat
          (File (csv_header ++ row "a" ++ row "b" ++ row "c"))
          [sample 100 "a"; sample 100 "b"; sample 100 "c"] 0.

(** * Part III. Lemmas *)

(** ** The model on small inputs *)

Example strip_ex : Py.strip "  12,ab  " = "12,ab".
Proof. reflexivity. Qed.
Example split_ex : Py.split Py.comma "a,,b" = ["a"; ""; "b"].
Proof. reflexivity. Qed.
Example int_ex1 : Py.int " -1_000 " = Ok (-1000).
Proof. reflexivity. Qed.
Example int_ex2 : Py.int "1__0" = Raise ValueError.
Proof. reflexivity. Qed.
Example int_ex3 : Py.int "timestamp" = Raise ValueError.
Proof. reflexivity. Qed.
(** [strip] drops the separator 0x1c; [int()] does not skip it. *)
Example strip_separator_ex : Py.strip ("12" ++ String (ascii_of_nat 28) "") = "12".
Proof. reflexivity. Qed.
Example int_separator_ex :
  Py.int ("12" ++ String (ascii_of_nat 28) "") = Raise ValueError.
Proof. reflexivity. Qed.
Example int_blank_ex : Py.int ("12" ++ String (ascii_of_nat 9) "") = Ok 12.
Proof. reflexivity. Qed.
Example str_ex : (Py.str 1700000000, Py.str 0, Py.str (-7)) = ("1700000000", "0", "-7").
Proof. reflexivity. Qed.

Example csv_row_ex :
  csv_row (plain_event 1700000000 "0xid" "p") = "1700000000,p,p,p,p,p,p,p" ++ String Py.LF "".
Proof. reflexivity. Qed.
(** A carriage return on its own is written bare; a line feed is quoted. *)
Example csv_field_ex :
  (csv_field ("a" ++ String (ascii_of_nat 13) "b"), csv_field ("a" ++ String Py.LF "b"))
  = ("a" ++ String (ascii_of_nat 13) "b",
     String Py.dquote ("a" ++ String Py.LF ("b" ++ String Py.dquote ""))).
Proof. reflexivity. Qed.
Example csv_header_ex :
  csv_header =
  "timestamp,maker,makerAssetId,makerAmountFilled,taker,takerAssetId,takerAmountFilled,transactionHash"
  ++ String Py.LF "".
Proof. reflexivity. Qed.
Example sort_values_ex :
  map Ev.id (sort_values [plain_event 2 "a" ""; plain_event 1 "c" ""; plain_event 1 "b" ""])
  = ["b"; "c"; "a"].
Proof. reflexivity. Qed.
Example drop_duplicates_ex :
  map Ev.timestamp (drop_duplicates [plain_event 1 "a" ""; plain_event 2 "a" ""; plain_event 3 "b" ""])
  = [1; 3].
Proof. reflexivity. Qed.

Example q_string_ex :
  lines (q_string 1000 sticky_state)
  = [ "query MyQuery {";
      spaces 24 ++ "orderFilledEvents(orderBy: timestamp, orderDirection: asc";
      spaces 45 ++ "first: 1000";
      spaces 45 ++ "where: {timestamp: " ++ quoted "100" (", id_gt: " ++ quoted "b" "}) {");
      spaces 28 ++ "fee";
      spaces 28 ++ "id";
      spaces 28 ++ "maker";
      spaces 28 ++ "makerAmountFilled";
      spaces 28 ++ "makerAssetId";
      spaces 28 ++ "orderHash";
      spaces 28 ++ "taker";
      spaces 28 ++ "takerAmountFilled";
      spaces 28 ++ "takerAssetId";
      spaces 28 ++ "timestamp";
      spaces 28 ++ "transactionHash";
      spaces 24 ++ "}";
      spaces 20 ++ "}";
      spaces 16 ].
Proof. vm_compute. reflexivity. Qed.

Example where_text_ex :
  where_text (initial_state (1699999999, None) NoFile)
  = "timestamp_gt: " ++ quoted "1699999999" "".
Proof. vm_compute. reflexivity. Qed.

(** Lines 89 and 113: the id is pasted into the query as it is. With pages
    of two rows the second id of [source_quoted] ends a full page, the next
    filter holds its double quote, and [gql] raises: two rows are stored and
    the run is over. *)
Example quoted_id_ex :
  exists s,
    scrape read_csv_rejects (steady source_quoted) 2 5 NoFile
    = Failed GraphQLSyntaxError s /\
    map Ev.id (appended s) = ["a"; "a" ++ String Py.dquote "b"].
Proof. eexists. split; vm_compute; reflexivity. Qed.

(** Case analysis on the test of a conditional in the goal. *)
Ltac case_if :=
  match goal with |- context [if ?b then _ else _] => destruct b end.

(** ** The order on keys *)

Lemma string_compare_trans (a b c : string) :
  String.compare a b = Lt -> String.compare b c = Lt -> String.compare a c = Lt.
Proof.
  intros Hab Hbc.
  apply String_as_OT.cmp_lt.
  apply String_as_OT.lt_trans with b; apply String_as_OT.cmp_lt; assumption.
Qed.

Lemma string_compare_refl (a : string) : String.compare a a = Eq.
Proof. apply (String_as_OT.cmp_eq a a). reflexivity. Qed.

Lemma string_compare_gt_lt (a b : string) :
  String.compare a b = Gt -> String.compare b a = Lt.
Proof.
  intros H. rewrite String.compare_antisym, H. reflexivity.
Qed.

Lemma key_compare_eq (a b : event) :
  key_compare a b = Eq <-> Ev.timestamp a = Ev.timestamp b /\ Ev.id a = Ev.id b.
Proof.
  unfold key_compare.
  destruct (Z.compare_spec (Ev.timestamp a) (Ev.timestamp b)) as [E | L | G].
  - pose proof (String_as_OT.cmp_eq (Ev.id a) (Ev.id b)) as H.
    unfold String_as_OT.cmp in H. tauto.
  - split; [discriminate | intros [E _]; lia].
  - split; [discriminate | intros [E _]; lia].
Qed.

Lemma key_lt_spec (a b : event) :
  key_lt a b <->
  Ev.timestamp a < Ev.timestamp b \/
  (Ev.timestamp a = Ev.timestamp b /\ String.compare (Ev.id a) (Ev.id b) = Lt).
Proof.
  unfold key_lt, key_compare.
  destruct (Z.compare_spec (Ev.timestamp a) (Ev.timestamp b)) as [E | L | G].
  - split; [intros H; right; split; assumption | intros [H | [_ H]]; [lia | assumption]].
  - split; [intros _; left; assumption | reflexivity].
  - split; [discriminate | intros [H | [H _]]; lia].
Qed.

Lemma key_le_spec (a b : event) :
  key_le a b <-> key_lt a b \/ key_compare a b = Eq.
Proof.
  unfold key_le, key_lt. destruct (key_compare a b); split; intros H;
    try tauto; try congruence; try (destruct H; discriminate).
Qed.

Lemma key_lt_trans (a b c : event) : key_lt a b -> key_lt b c -> key_lt a c.
Proof.
  rewrite !key_lt_spec.
  intros [H1 | [E1 S1]] [H2 | [E2 S2]]; try (left; lia).
  right. split; [lia | eapply string_compare_trans; eassumption].
Qed.

Lemma key_lt_irrefl (a : event) : ~ key_lt a a.
Proof.
  rewrite key_lt_spec. rewrite string_compare_refl.
  intros [H | [_ H]]; [lia | discriminate].
Qed.

Lemma key_le_lt_trans (a b c : event) : key_le a b -> key_lt b c -> key_lt a c.
Proof.
  rewrite key_le_spec. intros [H | H] Hbc.
  - eapply key_lt_trans; eassumption.
  - apply key_compare_eq in H. destruct H as [Ht Hi].
    revert Hbc. rewrite !key_lt_spec, Ht, Hi. tauto.
Qed.

Lemma key_lt_le_trans (a b c : event) : key_lt a b -> key_le b c -> key_lt a c.
Proof.
  rewrite key_le_spec. intros Hab [H | H].
  - eapply key_lt_trans; eassumption.
  - apply key_compare_eq in H. destruct H as [Ht Hi].
    revert Hab. rewrite !key_lt_spec, Ht, Hi. tauto.
Qed.

Lemma key_le_trans (a b c : event) : key_le a b -> key_le b c -> key_le a c.
Proof.
  intros Hab Hbc. apply key_le_spec in Hbc. destruct Hbc as [H | H].
  - apply key_le_spec. left. eapply key_le_lt_trans; eassumption.
  - apply key_compare_eq in H. destruct H as [Ht Hi].
    revert Hab. unfold key_le, key_compare. rewrite Ht, Hi. tauto.
Qed.

Lemma key_le_refl (a : event) : key_le a a.
Proof.
  apply key_le_spec. right. apply key_compare_eq. split; reflexivity.
Qed.

Lemma key_compare_gt_lt (a b : event) : key_compare a b = Gt -> key_lt b a.
Proof.
  unfold key_lt, key_compare.
  rewrite (Z.compare_antisym (Ev.timestamp a) (Ev.timestamp b)).
  destruct (Ev.timestamp a ?= Ev.timestamp b); simpl; intros H;
    try discriminate; try reflexivity.
  apply string_compare_gt_lt. assumption.
Qed.

Lemma key_leb_true (a b : event) : key_leb a b = true -> key_le a b.
Proof.
  unfold key_leb, key_le. destruct (key_compare a b); congruence.
Qed.

Lemma key_leb_false (a b : event) : key_leb a b = false -> key_lt b a.
Proof.
  unfold key_leb. intros H. apply key_compare_gt_lt.
  destruct (key_compare a b); congruence.
Qed.

Lemma key_lt_le (a b : event) : key_lt a b -> key_le a b.
Proof. intros H. apply key_le_spec. left. assumption. Qed.

Lemma key_le_timestamp (a b : event) : key_le a b -> Ev.timestamp a <= Ev.timestamp b.
Proof.
  rewrite key_le_spec, key_lt_spec, key_compare_eq. intros H. lia.
Qed.

(** ** [sort_values] sorts, stably, and keeps every row *)

Lemma insert_sorted_perm (e : event) (l : list event) :
  Permutation (e :: l) (insert_sorted e l).
Proof.
  induction l as [| x r IH]; simpl.
  - apply Permutation_refl.
  - destruct (key_leb e x).
    + apply Permutation_refl.
    + eapply perm_trans; [apply perm_swap | apply perm_skip, IH].
Qed.

Lemma sort_values_perm (l : list event) : Permutation l (sort_values l).
Proof.
  induction l as [| e r IH]; simpl.
  - apply perm_nil.
  - eapply perm_trans; [apply perm_skip, IH | apply insert_sorted_perm].
Qed.

Lemma sort_values_length (l : list event) :
  List.length (sort_values l) = List.length l.
Proof. symmetry. apply Permutation_length, sort_values_perm. Qed.

Lemma sort_values_In (x : event) (l : list event) :
  In x (sort_values l) <-> In x l.
Proof.
  split; intros H.
  - eapply Permutation_in; [apply Permutation_sym, sort_values_perm | exact H].
  - eapply Permutation_in; [apply sort_values_perm | exact H].
Qed.

Lemma sort_values_Forall (P : event -> Prop) (l : list event) :
  Forall P l -> Forall P (sort_values l).
Proof.
  rewrite !Forall_forall. intros H x Hx. apply H, sort_values_In, Hx.
Qed.

Lemma insert_sorted_sorted (e : event) (l : list event) :
  StronglySorted key_le l -> StronglySorted key_le (insert_sorted e l).
Proof.
  induction 1 as [| x r Hr IH Hx]; simpl.
  - constructor; constructor.
  - destruct (key_leb e x) eqn:E.
    + constructor.
      * constructor; assumption.
      * apply key_leb_true in E. constructor; [exact E |].
        eapply Forall_impl; [| exact Hx].
        intros y Hy. eapply key_le_trans; eassumption.
    + constructor; [exact IH |].
      apply key_leb_false, key_lt_le in E.
      eapply Permutation_Forall; [apply insert_sorted_perm |].
      constructor; assumption.
Qed.

Lemma sort_values_sorted (l : list event) : StronglySorted key_le (sort_values l).
Proof.
  induction l as [| e r IH]; simpl.
  - constructor.
  - apply insert_sorted_sorted, IH.
Qed.

Lemma sorted_last_max (l : list event) (d x : event) :
  StronglySorted key_le l -> In x l -> key_le x (last l d).
Proof.
  induction 1 as [| y r Hr IH Hy]; intros Hin.
  - destruct Hin.
  - destruct r as [| z r'].
    + destruct Hin as [<- | []]. apply key_le_refl.
    + change (last (y :: z :: r') d) with (last (z :: r') d).
      destruct Hin as [<- | Hin].
      * rewrite Forall_forall in Hy. apply Hy.
        clear. generalize z. induction r' as [| w r'' IH']; intros z0.
        -- left. reflexivity.
        -- right. apply IH'.
      * apply IH, Hin.
Qed.

Lemma last_In (l : list event) (d : event) : l <> [] -> In (last l d) l.
Proof.
  induction l as [| y r IH]; intros Hne.
  - congruence.
  - destruct r as [| z r'].
    + left. reflexivity.
    + right. apply IH. discriminate.
Qed.

Lemma sort_values_not_nil (l : list event) : l <> [] -> sort_values l <> [].
Proof.
  intros Hne Hs. apply Hne.
  apply Permutation_nil. rewrite <- Hs. apply Permutation_sym, sort_values_perm.
Qed.

Lemma insert_sorted_head (e : event) (l : list event) :
  Forall (key_le e) l -> insert_sorted e l = e :: l.
Proof.
  destruct l as [| x r]; [reflexivity |]. intros H.
  inversion H as [| ? ? Hx _]; subst. simpl.
  unfold key_leb. unfold key_le in Hx. destruct (key_compare e x); congruence.
Qed.

(** Sorting a sorted batch changes nothing. *)
Lemma sort_values_sorted_id (l : list event) :
  StronglySorted key_le l -> sort_values l = l.
Proof.
  induction 1 as [| x r Hr IH Hx]; [reflexivity |].
  simpl. rewrite IH. apply insert_sorted_head, Hx.
Qed.

(** ** [drop_duplicates] keeps the first row of every id, in order *)

Lemma drop_duplicates_from_In (seen : list string) (l : list event) (x : event) :
  In x (drop_duplicates_from seen l) -> In x l.
Proof.
  revert seen. induction l as [| e r IH]; intros seen; simpl.
  - tauto.
  - destruct (existsb (String.eqb (Ev.id e)) seen).
    + intros H. right. eapply IH, H.
    + intros [H | H]; [left; exact H | right; eapply IH, H].
Qed.

Lemma drop_duplicates_from_Forall (P : event -> Prop) (seen : list string) (l : list event) :
  Forall P l -> Forall P (drop_duplicates_from seen l).
Proof.
  rewrite !Forall_forall. intros H x Hx. eapply H, drop_duplicates_from_In, Hx.
Qed.

Lemma drop_duplicates_from_sorted (R : event -> event -> Prop) (seen : list string)
      (l : list event) :
  StronglySorted R l -> StronglySorted R (drop_duplicates_from seen l).
Proof.
  intros H. revert seen. induction H as [| e r Hr IH He]; intros seen; simpl.
  - constructor.
  - destruct (existsb (String.eqb (Ev.id e)) seen).
    + apply IH.
    + constructor; [apply IH | apply drop_duplicates_from_Forall, He].
Qed.

Lemma existsb_eqb_In (i : string) (seen : list string) :
  existsb (String.eqb i) seen = true <-> In i seen.
Proof.
  rewrite existsb_exists. split.
  - intros [y [Hy E]]. apply String.eqb_eq in E. subst. exact Hy.
  - intros H. exists i. split; [exact H | apply String.eqb_refl].
Qed.

Lemma drop_duplicates_from_fresh (seen : list string) (l : list event) (x : event) :
  In x (drop_duplicates_from seen l) -> ~ In (Ev.id x) seen.
Proof.
  revert seen. induction l as [| e r IH]; intros seen; simpl.
  - tauto.
  - destruct (existsb (String.eqb (Ev.id e)) seen) eqn:E.
    + apply IH.
    + intros [<- | H].
      * rewrite <- existsb_eqb_In, E. discriminate.
      * intros Hs. apply (IH _ H). right. exact Hs.
Qed.

Lemma drop_duplicates_from_NoDup (seen : list string) (l : list event) :
  NoDup (map Ev.id (drop_duplicates_from seen l)).
Proof.
  revert seen. induction l as [| e r IH]; intros seen; simpl.
  - constructor.
  - destruct (existsb (String.eqb (Ev.id e)) seen).
    + apply IH.
    + simpl. constructor; [| apply IH].
      rewrite in_map_iff. intros [x [Hid Hx]].
      apply drop_duplicates_from_fresh in Hx. apply Hx. left. symmetry. exact Hid.
Qed.

Lemma drop_duplicates_from_length (seen : list string) (l : list event) :
  (List.length (drop_duplicates_from seen l) <= List.length l)%nat.
Proof.
  revert seen. induction l as [| e r IH]; intros seen; simpl.
  - lia.
  - destruct (existsb (String.eqb (Ev.id e)) seen); simpl.
    + specialize (IH seen). lia.
    + specialize (IH (Ev.id e :: seen)). lia.
Qed.

Lemma drop_duplicates_cons (e : event) (r : list event) :
  drop_duplicates (e :: r) = e :: drop_duplicates_from [Ev.id e] r.
Proof. reflexivity. Qed.

(** Rows in key order with pairwise different ids are in strict key order. *)
Lemma sorted_distinct_strict (l : list event) :
  StronglySorted key_le l -> NoDup (map Ev.id l) -> StronglySorted key_lt l.
Proof.
  induction 1 as [| e r Hr IH He]; intros Hnd.
  - constructor.
  - simpl in Hnd. inversion Hnd as [| i ids Hni Hnd']; subst.
    constructor; [apply IH, Hnd' |].
    rewrite Forall_forall in *. intros x Hx.
    specialize (He x Hx). apply key_le_spec in He. destruct He as [Hlt | Heq].
    + exact Hlt.
    + exfalso. apply key_compare_eq in Heq. destruct Heq as [_ Hid].
      apply Hni. rewrite Hid. apply in_map, Hx.
Qed.

(** The rows one batch contributes to the store are in strict key order. *)
Lemma batch_rows_strictly_sorted (l : list event) :
  StronglySorted key_lt (drop_duplicates (sort_values l)).
Proof.
  apply sorted_distinct_strict.
  - apply drop_duplicates_from_sorted, sort_values_sorted.
  - apply drop_duplicates_from_NoDup.
Qed.

(** ** Runs and their states *)

Lemma with_slept_same (s : state) : with_slept s (slept s) = s.
Proof. destruct s; reflexivity. Qed.

Section LoopInvariant.

Variable execute : nat -> where_clause -> nat -> response.
Variable at_once : nat.
Variable P : state -> Prop.

Hypothesis step :
  forall n s, P s ->
    P (outcome_state (iteration at_once s (execute n (build_where s) at_once))).

(** What one iteration keeps, every state of a run has. *)
Lemma loop_invariant (fuel n : nat) (s : state) :
  P s -> P (run_state (loop execute at_once fuel n s)).
Proof.
  revert n s. induction fuel as [| fuel IH]; intros n s Hs; simpl.
  - exact Hs.
  - specialize (step n s Hs).
    destruct (iteration at_once s (execute n (build_where s) at_once)) as [s' | s' | e s'];
      simpl in *.
    + apply IH, step.
    + exact step.
    + exact step.
Qed.

End LoopInvariant.

(** ** Recovery returns, and never an id *)

Lemma tail_block_no_id (f : file) (c : cursor) :
  tail_block f = Ok (Some c) -> snd c = None.
Proof.
  unfold tail_block. destruct (tail_1 f) as [out |]; simpl; [| discriminate].
  destruct (String.eqb (Py.strip out) EmptyString); [discriminate |].
  destruct (head_1 f) as [h |]; simpl; [| discriminate].
  destruct (Py.index "timestamp" (Py.split Py.comma (Py.strip h))) as [i |]; [| discriminate].
  destruct (nth_error (Py.split Py.comma (Py.strip out)) i) as [v |]; [| discriminate].
  destruct (Py.int v) as [z |]; simpl; [| discriminate].
  destruct (Py.fromtimestamp z); simpl; [| discriminate].
  intros [= <-]. reflexivity.
Qed.

Lemma pandas_block_no_id (read_csv : string -> result DataFrame) (f : file) (c : cursor) :
  pandas_block read_csv f = Ok (Some c) -> snd c = None.
Proof.
  unfold pandas_block. destruct (pd_read_csv read_csv f) as [df |]; simpl; [| discriminate].
  destruct (List.rev (rows df)) as [| r _]; [discriminate |].
  destruct (Py.index "timestamp" (columns df)); [| discriminate].
  destruct (int_of_cell (r "timestamp")) as [z |]; simpl; [| discriminate].
  destruct (Py.fromtimestamp z); simpl; [| discriminate].
  intros [= <-]. reflexivity.
Qed.

Lemma get_latest_cursor_returns (read_csv : string -> result DataFrame) (f : file) :
  exists t : Z, get_latest_cursor read_csv f = Ok (t, None).
Proof.
  unfold get_latest_cursor. destruct (isfile f); simpl; [| exists 0; reflexivity].
  destruct (tail_block f) as [[c |] | e] eqn:Et; simpl.
  - apply tail_block_no_id in Et. destruct c as [t i]; simpl in Et; subst.
    exists t. reflexivity.
  - exists 0. reflexivity.
  - destruct (pandas_block read_csv f) as [[c |] | e2] eqn:Ep; simpl.
    + apply pandas_block_no_id in Ep. destruct c as [t i]; simpl in Ep; subst.
      exists t. reflexivity.
    + exists 0. reflexivity.
    + exists 0. reflexivity.
Qed.

(** [scrape] is the loop from the recovered cursor. *)
Lemma scrape_loop (read_csv : string -> result DataFrame)
      (execute : nat -> where_clause -> nat -> response) (at_once fuel : nat) (f : file) :
  exists t : Z,
    get_latest_cursor read_csv f = Ok (t, None) /\
    scrape read_csv execute at_once fuel f
    = loop execute at_once fuel 0%nat (initial_state (t, None) f).
Proof.
  destruct (get_latest_cursor_returns read_csv f) as [t Ht].
  exists t. split; [exact Ht |]. unfold scrape. rewrite Ht. reflexivity.
Qed.

(** ** Dates *)

Lemma fromtimestamp_in_range (t : Z) :
  in_datetime_range t -> Py.fromtimestamp t = Ok tt.
Proof.
  unfold in_datetime_range, Py.fromtimestamp. intros H.
  replace (Py.MIN_TIMESTAMP <=? t) with true by (symmetry; apply Z.leb_le; lia).
  replace (t <=? Py.MAX_TIMESTAMP) with true by (symmetry; apply Z.leb_le; lia).
  reflexivity.
Qed.

Lemma fromtimestamp_ok_in_range (t : Z) (u : unit) :
  Py.fromtimestamp t = Ok u -> in_datetime_range t.
Proof.
  unfold in_datetime_range, Py.fromtimestamp.
  destruct (Py.MIN_TIMESTAMP <=? t) eqn:E1; [| discriminate].
  destruct (t <=? Py.MAX_TIMESTAMP) eqn:E2; [| discriminate].
  intros _. apply Z.leb_le in E1, E2. lia.
Qed.

Lemma iteration_batch (at_once : nat) (s : state) (e0 : event) (l' : list event) :
  Forall (fun e => in_datetime_range (Ev.timestamp e)) (e0 :: l') ->
  iteration at_once s (Events (e0 :: l'))
  = save_batch at_once (advance_cursor at_once s e0 (sort_values (e0 :: l')))
               (sort_values (e0 :: l')).
Proof.
  intros H. unfold iteration. rewrite fromtimestamp_in_range; [reflexivity |].
  rewrite Forall_forall in H. apply H, sort_values_In, last_In, sort_values_not_nil.
  discriminate.
Qed.

(** ** Remote errors *)

Lemma iteration_query_error (at_once : nat) (s : state) :
  iteration at_once s QueryError = Continue (with_slept s (slept s + 5)).
Proof. reflexivity. Qed.

Lemma build_where_with_slept (s : state) (z : Z) :
  build_where (with_slept s z) = build_where s.
Proof. reflexivity. Qed.

Lemma loop_retries (execute : nat -> where_clause -> nat -> response) (at_once : nat)
      (k fuel n : nat) (s : state) :
  (forall j, (j < k)%nat -> execute (n + j)%nat (build_where s) at_once = QueryError) ->
  loop execute at_once (k + fuel) n s
  = loop execute at_once fuel (n + k) (with_slept s (slept s + 5 * Z.of_nat k)).
Proof.
  revert n s. induction k as [| k IH]; intros n s Hex.
  - simpl. rewrite Z.add_0_r, Nat.add_0_r, with_slept_same. reflexivity.
  - change (S k + fuel)%nat with (S (k + fuel)).
    cbn [loop].
    rewrite <- (Nat.add_0_r n) at 1. rewrite (Hex 0%nat) by lia.
    rewrite iteration_query_error, IH.
    + replace (S n + k)%nat with (n + S k)%nat by lia.
      f_equal. rewrite Nat2Z.inj_succ. unfold with_slept.
      cbn [last_timestamp last_id sticky_timestamp count total_records
           output_file appended slept].
      f_equal. lia.
    + intros j Hj. rewrite build_where_with_slept.
      replace (S n + j)%nat with (n + S j)%nat by lia. apply Hex. lia.
Qed.

(** ** The shape of the cursor *)

Lemma advance_cursor_shape (at_once : nat) (s : state) (e0 : event) (df : list event) :
  cursor_shape s -> cursor_shape (advance_cursor at_once s e0 df).
Proof.
  unfold cursor_shape, advance_cursor. intros H.
  destruct (at_once <=? List.length df)%nat.
  - destruct (Ev.timestamp (hd e0 df) =? Ev.timestamp (last df e0)); simpl;
      split; discriminate.
  - destruct (sticky_timestamp s) eqn:E; simpl.
    + tauto.
    + tauto.
Qed.

Lemma iteration_cursor_shape (at_once : nat) (s : state) (r : response) :
  cursor_shape s -> cursor_shape (outcome_state (iteration at_once s r)).
Proof.
  intros H. destruct r as [| | [| e0 l']].
  - exact H.
  - exact H.
  - simpl. destruct (sticky_timestamp s) eqn:E; simpl.
    + unfold cursor_shape. simpl. tauto.
    + exact H.
  - unfold iteration, save_batch.
    pose proof (advance_cursor_shape at_once s e0 (sort_values (e0 :: l')) H) as H1.
    destruct (Py.fromtimestamp _); [| exact H].
    destruct (to_csv _ _) as [f | e].
    + cbv zeta.
      case_if; exact H1.
    + exact H1.
Qed.

(** ** What a run from a given cursor keeps true *)

Lemma string_le_lt_trans (a b c : string) :
  String.compare a b <> Gt -> String.compare b c = Lt -> String.compare a c = Lt.
Proof.
  intros Hab Hbc. destruct (String.compare a b) eqn:E.
  - apply (String_as_OT.cmp_eq a b) in E. subst. exact Hbc.
  - eapply string_compare_trans; eassumption.
  - congruence.
Qed.

(** What was stored lies strictly before what the next query can return. *)
Lemma below_lt_fetched (s : state) (a b : event) :
  below_cursor s a -> matches (build_where s) b = true -> cursor_shape s -> key_lt a b.
Proof.
  unfold below_cursor, build_where, cursor_shape. intros Ha Hb Hs.
  apply key_lt_spec.
  destruct (sticky_timestamp s) as [st |]; simpl in Hb.
  - apply andb_prop in Hb. destruct Hb as [Ht Hi].
    apply Z.eqb_eq in Ht. unfold String.ltb in Hi.
    destruct Ha as [Ha | [Ha [i [Hl Hc]]]].
    + left. lia.
    + right. split; [lia |]. rewrite Hl in Hi. simpl in Hi.
      apply string_le_lt_trans with i; [exact Hc |].
      destruct (String.compare i (Ev.id b)); congruence.
  - apply Z.ltb_lt in Hb. left. lia.
Qed.

Lemma fetched_from (c0 : Z) (s : state) (b : event) :
  cursor_from c0 s -> matches (build_where s) b = true -> c0 < Ev.timestamp b.
Proof.
  unfold cursor_from, build_where.
  destruct (sticky_timestamp s) as [st |]; simpl; intros Hc Hb.
  - apply andb_prop in Hb. destruct Hb as [Ht _]. apply Z.eqb_eq in Ht. lia.
  - apply Z.ltb_lt in Hb. lia.
Qed.

Section Advance.

Variable at_once : nat.
Variable s : state.
Variable e0 : event.
Variable df : list event.

Hypothesis shape : cursor_shape s.
Hypothesis df_sorted : StronglySorted key_le df.
Hypothesis df_not_nil : df <> [].
Hypothesis df_fetched : Forall (fun e => matches (build_where s) e = true) df.

Lemma last_fetched : matches (build_where s) (last df e0) = true.
Proof.
  rewrite Forall_forall in df_fetched. apply df_fetched, last_In, df_not_nil.
Qed.

(** A row of the batch lies at or before the new cursor. *)
Lemma advance_below_batch (x : event) :
  In x df -> below_cursor (advance_cursor at_once s e0 df) x.
Proof.
  intros Hx.
  pose proof (sorted_last_max df e0 x df_sorted Hx) as Hle.
  pose proof last_fetched as Hlast.
  assert (Hxf : matches (build_where s) x = true).
  { rewrite Forall_forall in df_fetched. apply df_fetched, Hx. }
  unfold advance_cursor, below_cursor.
  assert (Hfull : forall c,
             Ev.timestamp x < Ev.timestamp (last df e0) \/
             (Ev.timestamp x = Ev.timestamp (last df e0) /\
              exists i, Some (Ev.id (last df e0)) = Some i /\ String.compare (Ev.id x) i <> Gt) \/ c).
  { intros c. apply key_le_spec in Hle. destruct Hle as [Hlt | Heq].
    - apply key_lt_spec in Hlt. destruct Hlt as [Hlt | [Ht Hi]].
      + left. exact Hlt.
      + right. left. split; [exact Ht |]. eexists. split; [reflexivity |]. congruence.
    - apply key_compare_eq in Heq. destruct Heq as [Ht Hi].
      right. left. split; [exact Ht |]. eexists. split; [reflexivity |].
      rewrite Hi, string_compare_refl. discriminate. }
  destruct (at_once <=? List.length df)%nat.
  - destruct (Ev.timestamp (hd e0 df) =? Ev.timestamp (last df e0)); simpl;
      destruct (Hfull False) as [H | [H | []]]; [left | right | left | right]; exact H.
  - unfold build_where in Hxf. destruct (sticky_timestamp s) as [st |]; simpl in *.
    + apply andb_prop in Hxf. destruct Hxf as [Ht _]. apply Z.eqb_eq in Ht. lia.
    + apply key_le_timestamp, Hle.
Qed.

(** What lay at or before the old cursor lies at or before the new one. *)
Lemma advance_below_old (a : event) :
  below_cursor s a -> below_cursor (advance_cursor at_once s e0 df) a.
Proof.
  intros Ha.
  pose proof (below_lt_fetched s a (last df e0) Ha last_fetched shape) as Hlt.
  unfold advance_cursor.
  destruct (at_once <=? List.length df)%nat.
  - assert (H : below_cursor
                  (mkState (last_timestamp s) (Some (Ev.id (last df e0)))
                           (Some (Ev.timestamp (last df e0))) (count s) (total_records s)
                           (output_file s) (appended s) (slept s)) a).
    { unfold below_cursor. simpl. apply key_lt_spec in Hlt.
      destruct Hlt as [Hlt | [Ht Hi]].
      - left. exact Hlt.
      - right. split; [exact Ht |]. eexists. split; [reflexivity |]. congruence. }
    destruct (Ev.timestamp (hd e0 df) =? Ev.timestamp (last df e0)); exact H.
  - unfold below_cursor in *. destruct (sticky_timestamp s) as [st |]; simpl.
    + destruct Ha as [Ha | [Ha _]]; lia.
    + pose proof last_fetched as Hl. unfold build_where in Hl.
      unfold cursor_shape in shape.
      destruct (sticky_timestamp s) eqn:E; simpl in *.
      * apply key_lt_le, key_le_timestamp in Hlt. exact Hlt.
      * apply key_lt_le, key_le_timestamp in Hlt. exact Hlt.
Qed.

Lemma advance_cursor_from (c0 : Z) :
  cursor_from c0 s -> cursor_from c0 (advance_cursor at_once s e0 df).
Proof.
  intros Hc.
  pose proof (fetched_from c0 s (last df e0) Hc last_fetched) as Hl.
  unfold advance_cursor.
  destruct (at_once <=? List.length df)%nat.
  - destruct (Ev.timestamp (hd e0 df) =? Ev.timestamp (last df e0)); exact Hl.
  - unfold cursor_from in *. destruct (sticky_timestamp s) as [st |]; simpl; lia.
Qed.

Lemma advance_appended : appended (advance_cursor at_once s e0 df) = appended s.
Proof.
  unfold advance_cursor.
  destruct (at_once <=? List.length df)%nat;
    [destruct (Ev.timestamp (hd e0 df) =? Ev.timestamp (last df e0)) |
     destruct (sticky_timestamp s)]; reflexivity.
Qed.

Lemma advance_output_file :
  output_file (advance_cursor at_once s e0 df) = output_file s.
Proof.
  unfold advance_cursor.
  destruct (at_once <=? List.length df)%nat;
    [destruct (Ev.timestamp (hd e0 df) =? Ev.timestamp (last df e0)) |
     destruct (sticky_timestamp s)]; reflexivity.
Qed.

End Advance.

Lemma StronglySorted_app (R : event -> event -> Prop) (l1 l2 : list event) :
  StronglySorted R l1 -> StronglySorted R l2 ->
  (forall a b, In a l1 -> In b l2 -> R a b) ->
  StronglySorted R (l1 ++ l2).
Proof.
  induction 1 as [| x r Hr IH Hx]; intros H2 Hcross; simpl.
  - exact H2.
  - constructor.
    + apply IH; [exact H2 |]. intros a b Ha Hb. apply Hcross; [right; exact Ha | exact Hb].
    + apply Forall_app. split; [exact Hx |].
      rewrite Forall_forall. intros b Hb. apply Hcross; [left; reflexivity | exact Hb].
Qed.

(** One iteration against an answer that passes the filter keeps [run_inv]. *)
Lemma iteration_run_inv (c0 : Z) (at_once : nat) (s : state) (r : response) :
  run_inv c0 s ->
  match r with
  | Events l => Forall (fun e => matches (build_where s) e = true) l
  | _ => True
  end ->
  run_inv c0 (outcome_state (iteration at_once s r)).
Proof.
  intros [Hshape Hsorted Hfrom Hbelow Hmax Hcur] Hr.
  destruct r as [| | [| e0 l']].
  - (* the text was rejected *)
    constructor; assumption.
  - (* the query failed *)
    constructor; assumption.
  - (* no results *)
    simpl. destruct (sticky_timestamp s) as [st |] eqn:Est; simpl.
    + constructor; simpl.
      * unfold cursor_shape. simpl. tauto.
      * exact Hsorted.
      * exact Hfrom.
      * eapply Forall_impl; [| exact Hbelow].
        intros a Ha. unfold below_cursor in *. rewrite Est in Ha. simpl.
        destruct Ha as [Ha | [Ha _]]; lia.
      * exact Hmax.
      * unfold cursor_from in *. rewrite Est in Hcur. simpl. lia.
    + constructor; try assumption.
  - (* a batch *)
    set (df := sort_values (e0 :: l')).
    assert (Hdf_sorted : StronglySorted key_le df) by apply sort_values_sorted.
    assert (Hdf_nn : df <> []) by (apply sort_values_not_nil; discriminate).
    assert (Hdf_f : Forall (fun e => matches (build_where s) e = true) df)
      by (apply sort_values_Forall, Hr).
    set (s1 := advance_cursor at_once s e0 df).
    assert (Hshape1 : cursor_shape s1) by (apply advance_cursor_shape, Hshape).
    assert (Hcur1 : cursor_from c0 s1)
      by (apply advance_cursor_from; assumption).
    assert (Happ1 : appended s1 = appended s) by apply advance_appended.
    assert (Hold : Forall (below_cursor s1) (appended s)).
    { eapply Forall_impl; [| exact Hbelow].
      intros a Ha. apply advance_below_old; assumption. }
    assert (Hnew : Forall (below_cursor s1) (drop_duplicates df)).
    { apply drop_duplicates_from_Forall. rewrite Forall_forall.
      intros x Hx. apply advance_below_batch; assumption. }
    assert (Hraised : forall n m, run_inv c0
              (mkState (last_timestamp s1) (last_id s1) (sticky_timestamp s1)
                       n m (output_file s1) (appended s1) (slept s1))).
    { intros n m. constructor; simpl; rewrite ?Happ1; assumption. }
    assert (Hwritten : forall n m f,
              in_datetime_range (Ev.timestamp (last df e0)) ->
              run_inv c0
              (mkState (last_timestamp s1) (last_id s1) (sticky_timestamp s1)
                       n m f (appended s1 ++ drop_duplicates df) (slept s1))).
    { intros n m f Hin_range. constructor; simpl; rewrite ?Happ1.
      - exact Hshape1.
      - apply StronglySorted_app.
        + exact Hsorted.
        + apply batch_rows_strictly_sorted.
        + intros a b Ha Hb. apply below_lt_fetched with s.
          * rewrite Forall_forall in Hbelow. apply Hbelow, Ha.
          * rewrite Forall_forall in Hdf_f. apply Hdf_f.
            eapply drop_duplicates_from_In, Hb.
          * exact Hshape.
      - apply Forall_app. split; [exact Hfrom |].
        apply drop_duplicates_from_Forall.
        eapply Forall_impl; [| exact Hdf_f].
        intros b Hb. apply fetched_from with s; assumption.
      - apply Forall_app. split; assumption.
      - apply Forall_app. split; [exact Hmax |].
        apply drop_duplicates_from_Forall. rewrite Forall_forall. intros x Hx.
        pose proof (sorted_last_max df e0 x Hdf_sorted Hx) as Hle.
        apply key_le_timestamp in Hle. unfold in_datetime_range in Hin_range. lia.
      - exact Hcur1. }
    change (iteration at_once s (Events (e0 :: l')))
      with (match Py.fromtimestamp (Ev.timestamp (last df e0)) with
            | Raise e => Raised e s
            | Ok _ => save_batch at_once s1 df
            end).
    destruct (Py.fromtimestamp (Ev.timestamp (last df e0))) as [u | e] eqn:Eft;
      [| constructor; assumption].
    apply fromtimestamp_ok_in_range in Eft.
    unfold save_batch.
    destruct (to_csv (output_file s1) (drop_duplicates df)) as [f | e].
    + cbv zeta.
      case_if;
        apply Hwritten, Eft.
    + apply Hraised.
Qed.

(** Every state of a run against an honest service, entered with the cursor
    [(c0, None)] and nothing appended, satisfies [run_inv c0]. *)
Lemma loop_run_inv (execute : nat -> where_clause -> nat -> response) (at_once : nat)
      (c0 : Z) (f : file) (fuel : nat) :
  honest execute ->
  run_inv c0 (run_state (loop execute at_once fuel 0%nat (initial_state (c0, None) f))).
Proof.
  intros Hh. apply loop_invariant.
  - intros n s Hs. apply iteration_run_inv; [exact Hs |].
    specialize (Hh n (build_where s) at_once).
    destruct (execute n (build_where s) at_once); [exact I | exact I | exact Hh].
  - constructor; simpl.
    + unfold cursor_shape. simpl. tauto.
    + constructor.
    + constructor.
    + constructor.
    + constructor.
    + unfold cursor_from. simpl. lia.
Qed.

(** ** The store file follows the appended rows *)

Lemma string_app_assoc (a b c : string) : ((a ++ b) ++ c = a ++ (b ++ c))%string.
Proof.
  induction a as [| x a IH]; simpl; [reflexivity | rewrite IH; reflexivity].
Qed.

Lemma string_app_nil_r (a : string) : (a ++ "" = a)%string.
Proof.
  induction a as [| x a IH]; simpl; [reflexivity | rewrite IH; reflexivity].
Qed.

Lemma csv_rows_app (l1 l2 : list event) :
  csv_rows (l1 ++ l2) = (csv_rows l1 ++ csv_rows l2)%string.
Proof.
  induction l1 as [| e r IH]; simpl.
  - reflexivity.
  - rewrite IH, string_app_assoc. reflexivity.
Qed.

Lemma drop_duplicates_not_nil (l : list event) : l <> [] -> drop_duplicates l <> [].
Proof.
  destruct l as [| e r]; [congruence |]. rewrite drop_duplicates_cons. discriminate.
Qed.

Lemma to_csv_file_after (f0 : file) (rs df : list event) (f : file) :
  df <> [] -> to_csv (file_after f0 rs) df = Ok f -> f = file_after f0 (rs ++ df).
Proof.
  intros Hdf. destruct rs as [| a r].
  - simpl. destruct df as [| d df']; [congruence |].
    destruct f0 as [| | text]; unfold to_csv; simpl; congruence.
  - destruct f0 as [| | text]; unfold to_csv, file_after, isfile.
    + rewrite csv_rows_app, <- string_app_assoc.
      generalize (csv_header ++ csv_rows (a :: r))%string. intros h [= <-]. reflexivity.
    + discriminate.
    + rewrite csv_rows_app, <- string_app_assoc.
      generalize (text ++ csv_rows (a :: r))%string. intros h [= <-]. reflexivity.
Qed.

(** The store is the file the run found, followed by the rows it appended. *)
Lemma loop_file_after (execute : nat -> where_clause -> nat -> response) (at_once : nat)
      (fuel n : nat) (s : state) (f0 : file) :
  output_file s = file_after f0 (appended s) ->
  output_file (run_state (loop execute at_once fuel n s))
  = file_after f0 (appended (run_state (loop execute at_once fuel n s))).
Proof.
  apply (loop_invariant execute at_once
           (fun s => output_file s = file_after f0 (appended s))).
  clear n s. intros n s Hs.
  destruct (execute n (build_where s) at_once) as [| | [| e0 l']].
  - exact Hs.
  - exact Hs.
  - simpl. destruct (sticky_timestamp s); exact Hs.
  - unfold iteration, save_batch.
    destruct (Py.fromtimestamp _); [| exact Hs].
    rewrite advance_output_file, advance_appended.
    destruct (to_csv (output_file s) (drop_duplicates (sort_values (e0 :: l'))))
      as [f | e] eqn:E.
    + cbv zeta.
      assert (Hf : f = file_after f0
                     (appended s ++ drop_duplicates (sort_values (e0 :: l')))).
      { rewrite Hs in E. eapply to_csv_file_after; [| exact E].
        apply drop_duplicates_not_nil, sort_values_not_nil. discriminate. }
      case_if; exact Hf.
    + exact Hs.
Qed.

(** ** Text: splitting, stripping, reading numbers *)

Lemma has_char_app (p : ascii -> bool) (a b : string) :
  has_char p (a ++ b) = has_char p a || has_char p b.
Proof.
  induction a as [| c a IH]; simpl; [reflexivity |].
  rewrite IH, orb_assoc. reflexivity.
Qed.

Lemma split_not_nil (sep : ascii) (s : string) : Py.split sep s <> [].
Proof.
  destruct s as [| c r]; simpl; [discriminate |].
  destruct (Ascii.eqb c sep); [discriminate |].
  destruct (Py.split sep r); discriminate.
Qed.

Lemma split_app (sep : ascii) (a b : string) :
  Py.split sep (a ++ String sep b) = (Py.split sep a ++ Py.split sep b)%list.
Proof.
  induction a as [| c a IH]; simpl.
  - rewrite Ascii.eqb_refl. reflexivity.
  - destruct (Ascii.eqb c sep); [rewrite IH; reflexivity |].
    rewrite IH. pose proof (split_not_nil sep a) as Hn.
    destruct (Py.split sep a) as [| h t]; [congruence | reflexivity].
Qed.

Lemma split_none (sep : ascii) (s : string) :
  has_char (fun c => Ascii.eqb c sep) s = false -> Py.split sep s = [s].
Proof.
  induction s as [| c r IH]; simpl; [reflexivity |].
  intros H. apply orb_false_elim in H. destruct H as [Hc Hr].
  rewrite Hc, (IH Hr). reflexivity.
Qed.


Lemma rstrip_cons (c : ascii) (r : string) :
  Py.isspace c = false -> Py.rstrip (String c r) = String c (Py.rstrip r).
Proof.
  intros H. simpl. rewrite H. destruct (Py.rstrip r); reflexivity.
Qed.

Lemma rstrip_app (a b : string) :
  has_char Py.isspace a = false -> Py.rstrip (a ++ b) = (a ++ Py.rstrip b)%string.
Proof.
  induction a as [| c a IH]; simpl; [reflexivity |].
  intros H. apply orb_false_elim in H. destruct H as [Hc Ha].
  change (Py.rstrip (String c (a ++ b)) = String c (a ++ Py.rstrip b)).
  rewrite (rstrip_cons c _ Hc), (IH Ha). reflexivity.
Qed.


(** *** Decimal numerals *)

Lemma string_of_uint_digits (d : uint) : all_digits (NilEmpty.string_of_uint d) = true.
Proof.
  induction d; simpl; try reflexivity; exact IHd.
Qed.

Lemma digit_not_special (c : ascii) :
  Py.isdigit c = true ->
  Py.isspace c = false /\ Ascii.eqb c "_" = false /\ Ascii.eqb c "-" = false /\
  Ascii.eqb c "+" = false /\ csv_special c = false /\ is_LF c = false /\
  is_comma c = false.
Proof.
  destruct c as [[|] [|] [|] [|] [|] [|] [|] [|]]; cbv; intros H;
    try discriminate H; repeat split; reflexivity.
Qed.

Lemma all_digits_has_char (p : ascii -> bool) (s : string) :
  (forall c, Py.isdigit c = true -> p c = false) ->
  all_digits s = true -> has_char p s = false.
Proof.
  intros Hp. induction s as [| c r IH]; simpl; [reflexivity |].
  intros H. apply andb_prop in H. destruct H as [Hc Hr].
  rewrite (Hp c Hc), (IH Hr). reflexivity.
Qed.

Lemma literal_digits_cons (b : bool) (c : ascii) (r : string) :
  Py.literal_digits b (String c r)
  = if Ascii.eqb c "_" then if b then Py.literal_digits false r else None
    else if Py.isdigit c then option_map (String c) (Py.literal_digits true r)
         else None.
Proof. reflexivity. Qed.

Lemma literal_digits_all_digits (c : ascii) (r : string) (b : bool) :
  all_digits (String c r) = true ->
  Py.literal_digits b (String c r) = Some (String c r).
Proof.
  revert c b. induction r as [| c' r IH]; intros c b H; simpl in H;
    apply andb_prop in H; destruct H as [Hc Hr].
  - simpl. destruct (digit_not_special c Hc) as [_ [Hu _]]. rewrite Hu, Hc. reflexivity.
  - rewrite literal_digits_cons.
    destruct (digit_not_special c Hc) as [_ [Hu _]]. rewrite Hu, Hc.
    rewrite (IH c' true Hr). reflexivity.
Qed.

Lemma unsigned_int_numeral (d : uint) :
  d <> Nil ->
  Py.unsigned_int (NilEmpty.string_of_uint d) = Ok (Z.of_uint d).
Proof.
  intros Hd. unfold Py.unsigned_int.
  pose proof (string_of_uint_digits d) as Hdig.
  destruct (NilEmpty.string_of_uint d) as [| c r] eqn:E.
  - destruct d; simpl in E; discriminate || congruence.
  - rewrite (literal_digits_all_digits c r false Hdig).
    rewrite <- E, NilEmpty.usu. reflexivity.
Qed.

Lemma pos_to_uint_not_nil (p : positive) : Pos.to_uint p <> Nil.
Proof.
  intros H. pose proof (DecimalPos.Unsigned.of_to p) as Hp.
  rewrite H in Hp. discriminate.
Qed.

Lemma of_uint_to_uint (p : positive) : Z.of_uint (Pos.to_uint p) = Z.pos p.
Proof.
  pose proof (DecimalZ.of_to (Z.pos p)) as H. exact H.
Qed.

(** The text [str] writes for a number: an optional minus and digits. *)
Lemma str_shape (z : Z) :
  exists (sign : bool) (c : ascii) (r : string),
    Py.str z = (if sign then String "-" (String c r) else String c r) /\
    all_digits (String c r) = true /\
    Py.unsigned_int (String c r) = Ok (Z.abs z) /\
    (sign = true <-> z < 0).
Proof.
  unfold Py.str. destruct z as [| p | p]; simpl.
  - exists false, "0"%char, EmptyString. repeat split; try reflexivity; lia.
  - pose proof (pos_to_uint_not_nil p) as Hn.
    pose proof (unsigned_int_numeral _ Hn) as Hu.
    pose proof (string_of_uint_digits (Pos.to_uint p)) as Hd.
    rewrite of_uint_to_uint in Hu.
    unfold NilZero.string_of_uint.
    destruct (Pos.to_uint p) eqn:Ep; try congruence;
      match goal with
      | |- context [NilEmpty.string_of_uint ?d] =>
          destruct (NilEmpty.string_of_uint d) as [| c r] eqn:Es;
            [simpl in Es; discriminate |]
      end;
      exists false, c, r; repeat split; try assumption; try reflexivity;
        try discriminate; try lia.
  - pose proof (pos_to_uint_not_nil p) as Hn.
    pose proof (unsigned_int_numeral _ Hn) as Hu.
    pose proof (string_of_uint_digits (Pos.to_uint p)) as Hd.
    rewrite of_uint_to_uint in Hu.
    unfold NilZero.string_of_uint.
    destruct (Pos.to_uint p) eqn:Ep; try congruence;
      match goal with
      | |- context [NilEmpty.string_of_uint ?d] =>
          destruct (NilEmpty.string_of_uint d) as [| c r] eqn:Es;
            [simpl in Es; discriminate |]
      end;
      exists true, c, r; repeat split; try assumption; try reflexivity;
        try discriminate; try lia.
Qed.

(** No character of [str z] satisfies [p], when no digit and no minus does. *)
Lemma str_has_char (p : ascii -> bool) (z : Z) :
  (forall c, Py.isdigit c = true -> p c = false) -> p "-"%char = false ->
  has_char p (Py.str z) = false.
Proof.
  intros Hp Hm. destruct (str_shape z) as [sign [c [r [E [Hd _]]]]]. rewrite E.
  pose proof (all_digits_has_char p _ Hp Hd) as H.
  destruct sign; [| exact H].
  change (p "-"%char || has_char p (String c r) = false). rewrite Hm, H. reflexivity.
Qed.

Lemma str_no_space (z : Z) : has_char Py.isspace (Py.str z) = false.
Proof.
  apply str_has_char; [| reflexivity]. intros c Hc. apply (digit_not_special c Hc).
Qed.

Lemma str_no_special (z : Z) : has_char csv_special (Py.str z) = false.
Proof.
  apply str_has_char; [| reflexivity]. intros c Hc. apply (digit_not_special c Hc).
Qed.

Lemma str_no_LF (z : Z) : has_char is_LF (Py.str z) = false.
Proof.
  apply str_has_char; [| reflexivity]. intros c Hc. apply (digit_not_special c Hc).
Qed.

Lemma str_no_comma (z : Z) : has_char is_comma (Py.str z) = false.
Proof.
  apply str_has_char; [| reflexivity]. intros c Hc. apply (digit_not_special c Hc).
Qed.


Lemma skip_blanks_cons (c : ascii) (r : string) :
  Py.is_c_space c = false -> Py.skip_blanks (String c r) = String c r.
Proof. intros H. simpl. rewrite H. reflexivity. Qed.

Lemma drop_blanks_cons (c : ascii) (r : string) :
  Py.is_c_space c = false -> Py.drop_blanks (String c r) = String c (Py.drop_blanks r).
Proof.
  intros H. simpl. rewrite H. destruct (Py.drop_blanks r); reflexivity.
Qed.

Lemma drop_blanks_app (a b : string) :
  has_char Py.is_c_space a = false ->
  Py.drop_blanks (a ++ b) = (a ++ Py.drop_blanks b)%string.
Proof.
  induction a as [| c a IH]; simpl; [reflexivity |].
  intros H. apply orb_false_elim in H. destruct H as [Hc Ha].
  change (Py.drop_blanks (String c (a ++ b)) = String c (a ++ Py.drop_blanks b)).
  rewrite (drop_blanks_cons c _ Hc), (IH Ha). reflexivity.
Qed.

Lemma drop_blanks_id (a : string) :
  has_char Py.is_c_space a = false -> Py.drop_blanks a = a.
Proof.
  intros H. rewrite <- (string_app_nil_r a) at 1.
  rewrite (drop_blanks_app a "" H). apply string_app_nil_r.
Qed.

Lemma no_blanks_unchanged (s : string) :
  has_char Py.is_c_space s = false -> Py.drop_blanks (Py.skip_blanks s) = s.
Proof.
  intros H. destruct s as [| c r]; [reflexivity |].
  simpl in H. apply orb_false_elim in H. destruct H as [Hc Hr].
  rewrite (skip_blanks_cons c r Hc). apply drop_blanks_id. simpl. rewrite Hc, Hr. reflexivity.
Qed.

Lemma digit_not_blank (c : ascii) : Py.isdigit c = true -> Py.is_c_space c = false.
Proof.
  destruct c as [[|] [|] [|] [|] [|] [|] [|] [|]]; cbv; intros H;
    try discriminate H; reflexivity.
Qed.

Lemma str_no_blank (z : Z) : has_char Py.is_c_space (Py.str z) = false.
Proof.
  apply str_has_char; [| reflexivity]. intros c Hc. apply (digit_not_blank c Hc).
Qed.

(** [int(str(z)) == z] *)
Lemma int_str (z : Z) : Py.int (Py.str z) = Ok z.
Proof.
  unfold Py.int. rewrite (no_blanks_unchanged _ (str_no_blank z)).
  destruct (str_shape z) as [sign [c [r [E [Hd [Hu Hs]]]]]]. rewrite E.
  destruct sign.
  - rewrite Ascii.eqb_refl, Hu. simpl.
    assert (z < 0) by (apply Hs; reflexivity). f_equal. lia.
  - simpl in Hd. apply andb_prop in Hd. destruct Hd as [Hc _].
    destruct (digit_not_special c Hc) as [_ [_ [Hm [Hp _]]]].
    rewrite Hm, Hp, Hu.
    assert (~ z < 0) by (intros Hz; apply Hs in Hz; discriminate). f_equal. lia.
Qed.

(** ** Reading back what [to_csv] wrote *)

Lemma ends_with_LF_app (a b : string) : ends_with_LF b -> ends_with_LF (a ++ b).
Proof.
  intros [t' ->]. exists (a ++ t')%string. rewrite string_app_assoc. reflexivity.
Qed.

Lemma csv_line_ends (fields : list string) : ends_with_LF (csv_line fields).
Proof. unfold csv_line. eexists. reflexivity. Qed.

Lemma csv_rows_ends (l : list event) : l <> [] -> ends_with_LF (csv_rows l).
Proof.
  induction l as [| e r IH]; intros H; [congruence |].
  simpl. destruct r as [| e' r'].
  - simpl. rewrite string_app_nil_r. apply csv_line_ends.
  - apply ends_with_LF_app, IH. discriminate.
Qed.

Lemma double_quotes_no_LF (s : string) :
  has_char is_LF s = false -> has_char is_LF (double_quotes s) = false.
Proof.
  induction s as [| c r IH]; simpl; [reflexivity |].
  intros H. apply orb_false_elim in H. destruct H as [Hc Hr].
  destruct (Ascii.eqb c Py.dquote); simpl; rewrite Hc, (IH Hr); reflexivity.
Qed.

Lemma csv_field_no_LF (s : string) :
  has_char is_LF s = false -> has_char is_LF (csv_field s) = false.
Proof.
  intros H. unfold csv_field. destruct (has_char csv_special s); [| exact H].
  simpl. rewrite has_char_app, (double_quotes_no_LF s H). reflexivity.
Qed.

(** The text of a row: the timestamp, a comma, and the rest of the line. *)
Lemma csv_row_shape (e : event) :
  one_line e ->
  exists rest : string,
    csv_row e = (Py.str (Ev.timestamp e)
                 ++ String Py.comma (rest ++ String Py.LF EmptyString))%string /\
    has_char is_LF rest = false.
Proof.
  intros H. unfold one_line, COLUMNS_TO_SAVE in H.
  repeat match goal with
         | H : Forall _ (_ :: _) |- _ =>
             let H1 := fresh "F" in let H2 := fresh "R" in
             inversion H as [| ? ? H1 H2]; subst; clear H; rename H2 into H
         end.
  apply csv_field_no_LF in F0, F1, F2, F3, F4, F5, F6.
  unfold csv_row, csv_line, COLUMNS_TO_SAVE.
  cbn [map String.concat].
  assert (Et : csv_field (column "timestamp" e) = Py.str (Ev.timestamp e)).
  { change (column "timestamp" e) with (Py.str (Ev.timestamp e)).
    unfold csv_field. rewrite str_no_special. reflexivity. }
  rewrite Et.
  exists (csv_field (column "maker" e) ++ String Py.comma
          (csv_field (column "makerAssetId" e) ++ String Py.comma
          (csv_field (column "makerAmountFilled" e) ++ String Py.comma
          (csv_field (column "taker" e) ++ String Py.comma
          (csv_field (column "takerAssetId" e) ++ String Py.comma
          (csv_field (column "takerAmountFilled" e) ++ String Py.comma
          (csv_field (column "transactionHash" e))))))))%string.
  split.
  - repeat first [rewrite string_app_assoc | progress cbn [String.append]]. reflexivity.
  - repeat first [rewrite has_char_app | progress cbn [has_char]].
    rewrite F0, F1, F2, F3, F4, F5, F6. reflexivity.
Qed.

Lemma csv_header_text : csv_header = (header_text ++ String Py.LF EmptyString)%string.
Proof. reflexivity. Qed.

Lemma last_snoc (l : list string) (x d : string) : last (l ++ [x]) d = x.
Proof.
  induction l as [| y r IH]; simpl; [reflexivity |].
  destruct (r ++ [x])%list eqn:E; [destruct r; discriminate | exact IH].
Qed.

Lemma hd_app (l r : list string) (d : string) : l <> [] -> hd d (l ++ r) = hd d l.
Proof. destruct l; [congruence | reflexivity]. Qed.

(** The lines of a text that ends with the line [x]. *)
Lemma lines_snoc (t : string) (x : string) :
  has_char is_LF x = false ->
  lines (t ++ String Py.LF (x ++ String Py.LF EmptyString))
  = (Py.split Py.LF t ++ [x])%list.
Proof.
  intros Hx.
  assert (Hs : Py.split Py.LF (t ++ String Py.LF (x ++ String Py.LF EmptyString))
               = ((Py.split Py.LF t ++ [x]) ++ [EmptyString])%list).
  { rewrite split_app, split_app, (split_none Py.LF x Hx), app_assoc. reflexivity. }
  unfold lines.
  destruct (t ++ String Py.LF (x ++ String Py.LF EmptyString))%string eqn:E.
  - destruct t; discriminate.
  - rewrite Hs, last_snoc. simpl String.eqb. cbv iota. apply removelast_last.
Qed.

(** What [scrape] has written: the header line, then lines. *)
Lemma written_text (rs : list event) :
  exists t : string,
    (csv_header ++ csv_rows rs = t ++ String Py.LF EmptyString)%string /\
    hd EmptyString (Py.split Py.LF t) = header_text.
Proof.
  rewrite csv_header_text.
  assert (Hh : Py.split Py.LF header_text = [header_text]) by reflexivity.
  destruct rs as [| e r].
  - exists header_text. split; [apply string_app_nil_r | rewrite Hh; reflexivity].
  - destruct (csv_rows_ends (e :: r)) as [t' Ht]; [discriminate |].
    exists (header_text ++ String Py.LF t')%string. split.
    + rewrite Ht, !string_app_assoc. reflexivity.
    + rewrite split_app, Hh. reflexivity.
Qed.

Lemma lstrip_app (a b : string) :
  has_char Py.isspace a = false -> a <> EmptyString -> Py.lstrip (a ++ b) = (a ++ b)%string.
Proof.
  destruct a as [| c r]; [congruence |]. simpl. intros H _.
  apply orb_false_elim in H. destruct H as [Hc _]. rewrite Hc. reflexivity.
Qed.

Lemma str_not_empty (z : Z) : Py.str z <> EmptyString.
Proof.
  destruct (str_shape z) as [sign [c [r [E _]]]]. rewrite E.
  destruct sign; discriminate.
Qed.

(** Lines 30-47 on a store that [to_csv] wrote: the timestamp of its last
    row is read back. *)
Lemma tail_block_written (front : list event) (e : event) :
  one_line e ->
  Py.MIN_TIMESTAMP <= Ev.timestamp e <= Py.MAX_TIMESTAMP ->
  tail_block (File (csv_header ++ csv_rows (front ++ [e])))
  = Ok (Some (Ev.timestamp e - 1, None)).
Proof.
  intros Hline Hrange.
  destruct (csv_row_shape e Hline) as [rest [Hrow Hrest]].
  destruct (written_text front) as [t [Ht Hhd]].
  assert (Htext : (csv_header ++ csv_rows (front ++ [e]))%string
                  = (t ++ String Py.LF
                       ((Py.str (Ev.timestamp e) ++ String Py.comma rest)
                        ++ String Py.LF EmptyString))%string).
  { rewrite csv_rows_app, <- string_app_assoc, Ht. simpl csv_rows.
    rewrite string_app_nil_r, Hrow, !string_app_assoc. reflexivity. }
  assert (Hx : has_char is_LF (Py.str (Ev.timestamp e) ++ String Py.comma rest) = false).
  { rewrite has_char_app, str_no_LF. simpl. exact Hrest. }
  unfold tail_block, tail_1, head_1. rewrite Htext, (lines_snoc t _ Hx).
  rewrite last_snoc, (hd_app _ _ _ (split_not_nil Py.LF t)), Hhd.
  cbn [bind].
  assert (Hstrip : Py.strip (Py.str (Ev.timestamp e) ++ String Py.comma rest)
                   = (Py.str (Ev.timestamp e) ++ String Py.comma (Py.rstrip rest))%string).
  { unfold Py.strip.
    rewrite (lstrip_app _ _ (str_no_space _) (str_not_empty _)).
    rewrite (rstrip_app _ _ (str_no_space _)).
    rewrite rstrip_cons by reflexivity. reflexivity. }
  rewrite Hstrip.
  assert (Hne : String.eqb (Py.str (Ev.timestamp e) ++ String Py.comma (Py.rstrip rest))
                           EmptyString = false).
  { apply String.eqb_neq. pose proof (str_not_empty (Ev.timestamp e)) as Hn.
    destruct (Py.str (Ev.timestamp e)); [congruence | discriminate]. }
  rewrite Hne.
  assert (Hidx : Py.index "timestamp" (Py.split Py.comma (Py.strip header_text))
                 = Some 0%nat) by reflexivity.
  rewrite Hidx, split_app, (split_none Py.comma _ (str_no_comma _)).
  change ([Py.str (Ev.timestamp e)] ++ Py.split Py.comma (Py.rstrip rest))%list
    with (Py.str (Ev.timestamp e) :: Py.split Py.comma (Py.rstrip rest)).
  cbn [nth_error]. rewrite int_str. cbn [bind].
  unfold Py.fromtimestamp.
  assert (Hr : (Py.MIN_TIMESTAMP <=? Ev.timestamp e) && (Ev.timestamp e <=? Py.MAX_TIMESTAMP)
               = true).
  { apply andb_true_intro. split; apply Z.leb_le; lia. }
  rewrite Hr. reflexivity.
Qed.

(** Recovery on a store that [to_csv] wrote: one less than the timestamp of
    the last row, whatever the pandas reader would do. *)
Lemma get_latest_cursor_written (read_csv : string -> result DataFrame)
      (front : list event) (e : event) :
  one_line e ->
  Py.MIN_TIMESTAMP <= Ev.timestamp e <= Py.MAX_TIMESTAMP ->
  get_latest_cursor read_csv (File (csv_header ++ csv_rows (front ++ [e])))
  = Ok (Ev.timestamp e - 1, None).
Proof.
  intros Hline Hrange. unfold get_latest_cursor.
  rewrite (tail_block_written front e Hline Hrange). reflexivity.
Qed.

(** ** The blocks of [get_latest_cursor] *)




(** ** Recovery on stores of any columns *)
























(** *** What [int()] takes for a number *)







(** *** The two ways of reading the store *)

Lemma is_date_range (t : Z) : is_date t = true <-> in_datetime_range t.
Proof.
  unfold is_date, in_datetime_range, Py.MIN_TIMESTAMP, Py.MAX_TIMESTAMP.
  rewrite andb_true_iff, !Z.leb_le. reflexivity.
Qed.

































(** ** Order and duplicates in the store *)

Lemma StronglySorted_weaken (R Q : event -> event -> Prop) (l : list event) :
  (forall a b, R a b -> Q a b) -> StronglySorted R l -> StronglySorted Q l.
Proof.
  intros HRQ. induction 1 as [| x r Hr IH Hx]; constructor.
  - exact IH.
  - eapply Forall_impl; [| exact Hx]. intros b. apply HRQ.
Qed.

Lemma sorted_last_timestamp (front : list event) (e a : event) :
  StronglySorted timestamp_le (front ++ [e]) -> In a (front ++ [e]) ->
  Ev.timestamp a <= Ev.timestamp e.
Proof.
  induction front as [| x r IH]; simpl; intros Hs Hin.
  - destruct Hin as [<- | []]. lia.
  - inversion Hs as [| ? ? Hr Hx]; subst. destruct Hin as [<- | Hin].
    + rewrite Forall_forall in Hx. apply (Hx e). apply in_or_app. right. left. reflexivity.
    + apply IH; assumption.
Qed.

Lemma file_after_written (old app : list event) :
  old <> [] ->
  file_after (File (csv_header ++ csv_rows old)) app
  = File (csv_header ++ csv_rows (old ++ app)).
Proof.
  intros Hold. destruct app as [| a r].
  - simpl. rewrite app_nil_r. reflexivity.
  - unfold file_after. rewrite csv_rows_app, string_app_assoc. reflexivity.
Qed.

(** A run resumed on a store that [to_csv] wrote is the loop entered one
    below the last stored timestamp. *)
Lemma scrape_resumed (read_csv : string -> result DataFrame)
      (execute : nat -> where_clause -> nat -> response) (at_once fuel : nat)
      (front : list event) (e : event) :
  one_line e -> in_datetime_range (Ev.timestamp e) ->
  scrape read_csv execute at_once fuel (File (csv_header ++ csv_rows (front ++ [e])))
  = loop execute at_once fuel 0%nat
         (initial_state (Ev.timestamp e - 1, None)
                        (File (csv_header ++ csv_rows (front ++ [e])))).
Proof.
  intros Hline Hrange. unfold scrape.
  rewrite (get_latest_cursor_written read_csv front e Hline Hrange). reflexivity.
Qed.

Lemma scrape_fresh (read_csv : string -> result DataFrame)
      (execute : nat -> where_clause -> nat -> response) (at_once fuel : nat) :
  scrape read_csv execute at_once fuel NoFile
  = loop execute at_once fuel 0%nat (initial_state (0, None) NoFile).
Proof. reflexivity. Qed.

(** What an iteration appends: nothing, or the batch without its duplicate
    ids. The rows already in the store play no part. *)
Lemma iteration_appended (at_once : nat) (s : state) (r : response) :
  appended (outcome_state (iteration at_once s r)) = appended s \/
  exists e0 l', r = Events (e0 :: l') /\
    appended (outcome_state (iteration at_once s r))
    = (appended s ++ drop_duplicates (sort_values (e0 :: l')))%list.
Proof.
  destruct r as [| | [| e0 l']].
  - left. reflexivity.
  - left. reflexivity.
  - left. simpl. destruct (sticky_timestamp s); reflexivity.
  - unfold iteration, save_batch.
    destruct (Py.fromtimestamp _); [| left; reflexivity].
    destruct (to_csv _ _) as [f | e].
    + right. exists e0, l'. split; [reflexivity |]. cbv zeta.
      case_if;
        simpl; rewrite advance_appended; reflexivity.
    + left. simpl. apply advance_appended.
Qed.

Lemma iteration_written (at_once : nat) (s s' : state) (e0 : event) (l' : list event) :
  iteration at_once s (Events (e0 :: l')) = Continue s' \/
  iteration at_once s (Events (e0 :: l')) = Break s' ->
  appended s' = (appended s ++ drop_duplicates (sort_values (e0 :: l')))%list /\
  to_csv (output_file s) (drop_duplicates (sort_values (e0 :: l'))) = Ok (output_file s').
Proof.
  unfold iteration, save_batch.
  destruct (Py.fromtimestamp _); [| intros [H | H]; discriminate].
  rewrite advance_output_file, advance_appended.
  destruct (to_csv _ _) as [f | e]; [| intros [H | H]; discriminate].
  cbv zeta.
  case_if;
    intros [H | H]; try discriminate; injection H as <-; split; reflexivity.
Qed.

Lemma loop_served (execute : nat -> where_clause -> nat -> response) (at_once : nat)
      (fuel n : nat) (s : state) :
  Forall (served execute) (appended s) ->
  Forall (served execute) (appended (run_state (loop execute at_once fuel n s))).
Proof.
  apply (loop_invariant execute at_once (fun s => Forall (served execute) (appended s))).
  clear n s. intros n s Hs.
  destruct (iteration_appended at_once s (execute n (build_where s) at_once))
    as [-> | [e0 [l' [Hr ->]]]]; [exact Hs |].
  apply Forall_app. split; [exact Hs |].
  apply drop_duplicates_from_Forall, sort_values_Forall.
  rewrite Forall_forall. intros x Hx.
  exists n, (build_where s), at_once, (e0 :: l'). split; assumption.
Qed.

Lemma strictly_sorted_keys (l : list event) :
  StronglySorted key_lt l -> NoDup (map key l).
Proof.
  induction 1 as [| x r Hr IH Hx]; simpl; constructor; [| exact IH].
  rewrite in_map_iff. intros [y [Hk Hy]].
  rewrite Forall_forall in Hx. specialize (Hx y Hy).
  unfold key in Hk. injection Hk as Ht Hi.
  assert (Heq : key_compare x y = Eq) by (apply key_compare_eq; split; congruence).
  unfold key_lt in Hx. congruence.
Qed.

Lemma strictly_sorted_ids (l : list event) :
  StronglySorted key_lt l ->
  (forall a b, In a l -> In b l -> Ev.id a = Ev.id b -> Ev.timestamp a = Ev.timestamp b) ->
  NoDup (map Ev.id l).
Proof.
  induction 1 as [| x r Hr IH Hx]; intros Hid; simpl; constructor.
  - rewrite in_map_iff. intros [y [Hi Hy]].
    rewrite Forall_forall in Hx. specialize (Hx y Hy).
    assert (Ht : Ev.timestamp x = Ev.timestamp y).
    { apply Hid; [left; reflexivity | right; exact Hy | congruence]. }
    assert (Heq : key_compare x y = Eq) by (apply key_compare_eq; split; congruence).
    unfold key_lt in Hx. congruence.
  - apply IH. intros a b Ha Hb. apply Hid; right; assumption.
Qed.


(** ** The modelled remote source *)

Lemma firstn_subset (n : nat) (l : list event) (e : event) :
  In e (firstn n l) -> In e l.
Proof.
  intros H. rewrite <- (firstn_skipn n l). apply in_or_app. left. exact H.
Qed.

(** An answer with events is the page of the events that pass the filter. *)
Lemma remote_fetch_Events (db : list event) (w : where_clause) (first : nat)
      (l : list event) :
  remote_fetch db w first = Events l ->
  parses w = true /\ l = firstn first (sort_values (filter (matches w) db)).
Proof.
  unfold remote_fetch. destruct (parses w); [| discriminate].
  intros [= <-]. split; reflexivity.
Qed.

Lemma remote_fetch_parsed (db : list event) (w : where_clause) (first : nat) :
  parses w = true ->
  remote_fetch db w first = Events (firstn first (sort_values (filter (matches w) db))).
Proof. intros H. unfold remote_fetch. rewrite H. reflexivity. Qed.

Lemma remote_fetch_rejected (db : list event) (w : where_clause) (first : nat) :
  parses w = false -> remote_fetch db w first = Malformed.
Proof. intros H. unfold remote_fetch. rewrite H. reflexivity. Qed.

Lemma remote_fetch_In (db : list event) (w : where_clause) (first : nat) (l : list event)
      (e : event) :
  remote_fetch db w first = Events l -> In e l -> In e db /\ matches w e = true.
Proof.
  intros H Hin. apply remote_fetch_Events in H. destruct H as [_ ->].
  apply firstn_subset in Hin. apply (proj1 (sort_values_In _ _)) in Hin.
  apply (proj1 (filter_In _ _ _)) in Hin. exact Hin.
Qed.

Lemma steady_honest (db : list event) : honest (steady db).
Proof.
  intros n w first. unfold steady.
  destruct (remote_fetch db w first) as [| | l] eqn:E; [exact I | exact I |].
  rewrite Forall_forall. intros e He.
  apply (remote_fetch_In db w first l e E He).
Qed.

Lemma served_steady (db : list event) (e : event) : served (steady db) e -> In e db.
Proof.
  intros [n [w [first [l [E Hin]]]]]. unfold steady in E.
  apply (remote_fetch_In db w first l e E Hin).
Qed.

Lemma steady_unique_ids (db : list event) :
  NoDup (map Ev.id db) -> unique_ids (steady db).
Proof.
  intros Hnd a b Ha Hb Hid.
  apply served_steady in Ha, Hb.
  assert (Hab : a = b).
  { clear - Hnd Ha Hb Hid. induction db as [| x r IH]; [destruct Ha |].
    simpl in Hnd. inversion Hnd as [| ? ? Hni Hnd']; subst.
    destruct Ha as [<- | Ha]; destruct Hb as [<- | Hb].
    - reflexivity.
    - exfalso. apply Hni. rewrite Hid. apply in_map, Hb.
    - exfalso. apply Hni. rewrite <- Hid. apply in_map, Ha.
    - apply IH; assumption. }
  rewrite Hab. reflexivity.
Qed.

(** An event passes the filter and is in the source: the answer is not empty,
    unless no event was asked for. *)
Lemma remote_fetch_not_nil (db : list event) (w : where_clause) (first : nat) (e : event) :
  parses w = true -> In e db -> matches w e = true ->
  exists e0 l', remote_fetch db w (S first) = Events (e0 :: l').
Proof.
  intros Hp Hin Hm. rewrite (remote_fetch_parsed db w _ Hp).
  assert (Hf : In e (sort_values (filter (matches w) db))).
  { apply sort_values_In, filter_In. split; assumption. }
  destruct (sort_values (filter (matches w) db)) as [| x r]; [destruct Hf |].
  exists x, (firstn first r). reflexivity.
Qed.

(** ** Running twice *)

Lemma loop_appended_grows (execute : nat -> where_clause -> nat -> response) (at_once : nat)
      (fuel n : nat) (s : state) :
  exists more,
    appended (run_state (loop execute at_once fuel n s)) = (appended s ++ more)%list.
Proof.
  apply (loop_invariant execute at_once
           (fun s' => exists more, appended s' = (appended s ++ more)%list)).
  - clear n. intros n s' [more Hs'].
    destruct (iteration_appended at_once s' (execute n (build_where s') at_once))
      as [-> | [e0 [l' [_ ->]]]].
    + exists more. exact Hs'.
    + eexists. rewrite Hs', <- app_assoc. reflexivity.
  - exists []. rewrite app_nil_r. reflexivity.
Qed.

Lemma loop_S (execute : nat -> where_clause -> nat -> response) (at_once : nat)
      (fuel n : nat) (s : state) :
  loop execute at_once (S fuel) n s
  = match iteration at_once s (execute n (build_where s) at_once) with
    | Continue s' => loop execute at_once fuel (S n) s'
    | Break s' => Finished s'
    | Raised e s' => Failed e s'
    end.
Proof. reflexivity. Qed.

(** A batch of dates, met with a store that can be written, is appended. *)
Lemma iteration_appends (at_once : nat) (s : state) (e0 : event) (l' : list event) :
  Forall (fun e => in_datetime_range (Ev.timestamp e)) (e0 :: l') ->
  output_file s <> NoAccess ->
  exists s',
    (iteration at_once s (Events (e0 :: l')) = Continue s' \/
     iteration at_once s (Events (e0 :: l')) = Break s') /\
    appended s' = (appended s ++ drop_duplicates (sort_values (e0 :: l')))%list.
Proof.
  intros Hrange Hfile. rewrite (iteration_batch at_once s e0 l' Hrange).
  unfold save_batch. rewrite advance_output_file, advance_appended.
  assert (Hw : exists f, to_csv (output_file s) (drop_duplicates (sort_values (e0 :: l')))
                         = Ok f).
  { unfold to_csv. destruct (output_file s); simpl; try congruence; eexists; reflexivity. }
  destruct Hw as [f ->]. cbv zeta.
  case_if;
    eexists; (split; [(left; reflexivity) || (right; reflexivity) | reflexivity]).
Qed.

(** After such a batch the run has appended something, however it goes on. *)
Lemma loop_appends (db : list event) (at_once fuel : nat) (s : state) (e0 : event)
      (l' : list event) :
  Forall (fun e => in_datetime_range (Ev.timestamp e)) db ->
  output_file s <> NoAccess ->
  remote_fetch db (build_where s) at_once = Events (e0 :: l') ->
  appended (run_state (loop (steady db) at_once (S fuel) 0%nat s)) <> [].
Proof.
  intros Hdb Hfile Hresp.
  assert (Hrange : Forall (fun e => in_datetime_range (Ev.timestamp e)) (e0 :: l')).
  { rewrite Forall_forall in *. intros x Hx. apply Hdb.
    apply (remote_fetch_In db _ _ _ x Hresp Hx). }
  destruct (iteration_appends at_once s e0 l' Hrange Hfile) as [s' [Hit Happ]].
  assert (Hne : appended s' <> []).
  { rewrite Happ. intros H. apply app_eq_nil in H. destruct H as [_ H].
    revert H. apply drop_duplicates_not_nil, sort_values_not_nil. discriminate. }
  rewrite loop_S. unfold steady at 1. rewrite Hresp.
  destruct Hit as [-> | ->].
  - destruct (loop_appended_grows (steady db) at_once fuel 1%nat s') as [more ->].
    intros H. apply app_eq_nil in H. destruct H as [H _]. exact (Hne H).
  - exact Hne.
Qed.

Lemma app_last_exists (l : list event) :
  l <> [] -> exists front e, l = (front ++ [e])%list.
Proof.
  intros H. destruct (exists_last H) as [front [e ->]]. exists front, e. reflexivity.
Qed.

(** ** When the loop is left *)

Lemma advance_cursor_sticky (at_once : nat) (s : state) (e0 : event) (df : list event) :
  sticky_timestamp (advance_cursor at_once s e0 df) = None <->
  (List.length df < at_once)%nat.
Proof.
  unfold advance_cursor. destruct (at_once <=? List.length df)%nat eqn:E.
  - apply Nat.leb_le in E.
    destruct (Ev.timestamp (hd e0 df) =? Ev.timestamp (last df e0)); simpl;
      split; [discriminate | lia | discriminate | lia].
  - apply Nat.leb_gt in E. destruct (sticky_timestamp s); simpl; tauto.
Qed.

(** ** No gap below the cursor *)

Lemma NoDup_ids_filter (f : event -> bool) (l : list event) :
  NoDup (map Ev.id l) -> NoDup (map Ev.id (filter f l)).
Proof.
  induction l as [| x r IH]; simpl; intros H; [constructor |].
  inversion H as [| ? ? Hni Hnd]; subst.
  destruct (f x); simpl; [constructor |]; try (apply IH, Hnd).
  intros Hin. apply Hni. apply in_map_iff in Hin. destruct Hin as [y [Hy Hin]].
  apply in_map_iff. exists y. split; [exact Hy |].
  apply (proj1 (filter_In _ _ _)) in Hin. apply Hin.
Qed.

Lemma NoDup_ids_perm (l l' : list event) :
  Permutation l l' -> NoDup (map Ev.id l) -> NoDup (map Ev.id l').
Proof.
  intros Hp. apply Permutation_NoDup, Permutation_map, Hp.
Qed.

Lemma NoDup_ids_firstn (n : nat) (l : list event) :
  NoDup (map Ev.id l) -> NoDup (map Ev.id (firstn n l)).
Proof.
  intros H. rewrite <- (firstn_skipn n l), map_app in H.
  apply NoDup_app_remove_r in H. exact H.
Qed.

Lemma drop_duplicates_from_id (seen : list string) (l : list event) :
  NoDup (map Ev.id l) -> (forall x, In x l -> ~ In (Ev.id x) seen) ->
  drop_duplicates_from seen l = l.
Proof.
  revert seen. induction l as [| x r IH]; intros seen Hnd Hseen; simpl; [reflexivity |].
  simpl in Hnd. inversion Hnd as [| ? ? Hni Hnd']; subst.
  destruct (existsb (String.eqb (Ev.id x)) seen) eqn:E.
  - exfalso. apply existsb_eqb_In in E. apply (Hseen x); [left; reflexivity | exact E].
  - f_equal. apply IH; [exact Hnd' |].
    intros y Hy [Hin | Hin].
    + apply Hni. rewrite Hin. apply in_map, Hy.
    + apply (Hseen y); [right; exact Hy | exact Hin].
Qed.

Lemma drop_duplicates_id (l : list event) :
  NoDup (map Ev.id l) -> drop_duplicates l = l.
Proof.
  intros H. apply drop_duplicates_from_id; [exact H |]. intros x _ [].
Qed.

Lemma StronglySorted_app_cross (R : event -> event -> Prop) (l1 l2 : list event) :
  StronglySorted R (l1 ++ l2) -> forall a b, In a l1 -> In b l2 -> R a b.
Proof.
  induction l1 as [| x r IH]; simpl; intros Hs a b Ha Hb; [destruct Ha |].
  inversion Hs as [| ? ? Hr Hx]; subst. destruct Ha as [<- | Ha].
  - rewrite Forall_forall in Hx. apply Hx, in_or_app. right. exact Hb.
  - apply IH; assumption.
Qed.

(** In a strictly sorted list, what lies at or before a member of a prefix
    is in that prefix. *)
Lemma firstn_closed (n : nat) (l : list event) (e x : event) :
  StronglySorted key_lt l -> In e l -> In x (firstn n l) -> key_le e x ->
  In e (firstn n l).
Proof.
  intros Hs He Hx Hle.
  rewrite <- (firstn_skipn n l) in He, Hs.
  apply in_app_or in He. destruct He as [He | He]; [exact He |].
  exfalso. pose proof (StronglySorted_app_cross key_lt _ _ Hs x e Hx He) as Hlt.
  apply (key_lt_irrefl x). eapply key_lt_le_trans; eassumption.
Qed.

Lemma firstn_short (n : nat) (l : list event) :
  (List.length (firstn n l) < n)%nat -> firstn n l = l.
Proof.
  intros H. apply firstn_all2. rewrite length_firstn in H. lia.
Qed.

(** An event is at or before the cursor, or the next query asks for it, or
    it lies behind the sticky timestamp. *)
Lemma cursor_trichotomy (s : state) (e : event) :
  cursor_shape s ->
  below_cursor s e \/ matches (build_where s) e = true \/
  exists st, sticky_timestamp s = Some st /\ st < Ev.timestamp e.
Proof.
  unfold cursor_shape, below_cursor, build_where. intros Hs.
  destruct (sticky_timestamp s) as [st |] eqn:Est.
  - destruct (last_id s) as [i |] eqn:Ei.
    + simpl. destruct (Z.compare_spec (Ev.timestamp e) st) as [Heq | Hlt | Hgt].
      * destruct (String.compare (Ev.id e) i) eqn:Ec.
        -- left. right. split; [exact Heq |]. exists i. split; [reflexivity | congruence].
        -- left. right. split; [exact Heq |]. exists i. split; [reflexivity | congruence].
        -- right. left. apply andb_true_intro. split; [apply Z.eqb_eq, Heq |].
           unfold String.ltb. rewrite (string_compare_gt_lt _ _ Ec). reflexivity.
      * left. left. exact Hlt.
      * right. right. exists st. split; [reflexivity | exact Hgt].
    + exfalso. destruct Hs as [Hs _]. specialize (Hs eq_refl). discriminate.
  - simpl. destruct (Z.ltb_spec (last_timestamp s) (Ev.timestamp e)) as [Hlt | Hge].
    + right. left. reflexivity.
    + left. exact Hge.
Qed.

Lemma advance_cursor_full (at_once : nat) (s : state) (e0 : event) (df : list event) :
  (at_once <= List.length df)%nat ->
  sticky_timestamp (advance_cursor at_once s e0 df) = Some (Ev.timestamp (last df e0)) /\
  last_id (advance_cursor at_once s e0 df) = Some (Ev.id (last df e0)).
Proof.
  intros H. apply Nat.leb_le in H. unfold advance_cursor. rewrite H.
  destruct (Ev.timestamp (hd e0 df) =? Ev.timestamp (last df e0)); split; reflexivity.
Qed.

Lemma advance_cursor_short (at_once : nat) (s : state) (e0 : event) (df : list event) :
  (List.length df < at_once)%nat ->
  sticky_timestamp (advance_cursor at_once s e0 df) = None /\
  last_timestamp (advance_cursor at_once s e0 df)
  = match sticky_timestamp s with
    | Some st => st
    | None => Ev.timestamp (last df e0)
    end.
Proof.
  intros H. apply Nat.leb_gt in H. unfold advance_cursor. rewrite H.
  destruct (sticky_timestamp s); split; reflexivity.
Qed.

Section Completeness.

Variable db : list event.
Variable at_once : nat.
Variable c0 : Z.

Hypothesis db_ids : NoDup (map Ev.id db).
Hypothesis at_once_pos : (0 < at_once)%nat.

Lemma fetched_strictly_sorted (w : where_clause) :
  StronglySorted key_lt (sort_values (filter (matches w) db)).
Proof.
  apply sorted_distinct_strict; [apply sort_values_sorted |].
  eapply NoDup_ids_perm; [apply sort_values_perm |].
  apply NoDup_ids_filter, db_ids.
Qed.

Lemma fetched_ids (w : where_clause) (n : nat) :
  NoDup (map Ev.id (firstn n (sort_values (filter (matches w) db)))).
Proof.
  apply NoDup_ids_firstn.
  eapply NoDup_ids_perm; [apply sort_values_perm |].
  apply NoDup_ids_filter, db_ids.
Qed.

Lemma iteration_gapless (s : state) :
  gapless db c0 s ->
  gapless db c0
    (outcome_state (iteration at_once s (remote_fetch db (build_where s) at_once))).
Proof.
  intros [Hshape Hfile Hfrom Hcomp].
  set (w := build_where s).
  set (S := sort_values (filter (matches w) db)).
  assert (HS : StronglySorted key_lt S) by apply fetched_strictly_sorted.
  assert (HinS : forall e, In e db -> matches w e = true -> In e S).
  { intros e He Hm. apply sort_values_In, filter_In. split; assumption. }
  unfold remote_fetch. fold w.
  destruct (parses w); [| constructor; assumption]. fold S.
  destruct (firstn at_once S) as [| e0 l'] eqn:El.
  - (* no results *)
    simpl. destruct (sticky_timestamp s) as [st |] eqn:Est; simpl;
      [| constructor; assumption].
    constructor; simpl.
    + unfold cursor_shape. simpl. tauto.
    + exact Hfile.
    + unfold cursor_from in *. rewrite Est in Hfrom. simpl. lia.
    + intros e He Hc Hb. unfold below_cursor in Hb. simpl in Hb.
      destruct (cursor_trichotomy s e Hshape) as [Hold | [Hm | [st' [Hst' Hgt]]]].
      * apply Hcomp; assumption.
      * exfalso. specialize (HinS e He Hm).
        destruct at_once as [| k]; [lia |].
        destruct S as [| x r]; [destruct HinS | discriminate El].
      * rewrite Est in Hst'. injection Hst' as <-. lia.
  - (* a batch *)
    set (l := e0 :: l') in *.
    set (df := sort_values l).
    assert (Hl_ids : NoDup (map Ev.id l)).
    { rewrite <- El. apply fetched_ids. }
    assert (Hdf_ids : NoDup (map Ev.id df)).
    { eapply NoDup_ids_perm; [apply sort_values_perm | exact Hl_ids]. }
    assert (Hdd : drop_duplicates df = df) by (apply drop_duplicates_id, Hdf_ids).
    assert (Hl_f : Forall (fun e => matches w e = true) l).
    { rewrite Forall_forall. intros x Hx. rewrite <- El in Hx.
      apply firstn_subset in Hx. apply (proj1 (sort_values_In _ _)) in Hx.
      apply (proj1 (filter_In _ _ _)) in Hx. apply Hx. }
    assert (Hdf_sorted : StronglySorted key_le df) by apply sort_values_sorted.
    assert (Hdf_nn : df <> []) by (apply sort_values_not_nil; discriminate).
    assert (Hdf_f : Forall (fun e => matches w e = true) df)
      by (apply sort_values_Forall, Hl_f).
    assert (Hlast : In (last df e0) l).
    { apply sort_values_In, last_In, Hdf_nn. }
    assert (Hlen : List.length df = List.length l) by apply sort_values_length.
    set (s1 := advance_cursor at_once s e0 df).
    assert (Hshape1 : cursor_shape s1) by (apply advance_cursor_shape, Hshape).
    assert (Hfrom1 : cursor_from c0 s1) by (apply advance_cursor_from; assumption).
    assert (Hcomp1 : forall e, In e db -> c0 < Ev.timestamp e -> below_cursor s1 e ->
                               In e (appended s ++ df)%list).
    { intros e He Hc Hb. apply in_or_app.
      destruct (cursor_trichotomy s e Hshape) as [Hold | [Hm | [st [Hst Hgt]]]].
      - left. apply Hcomp; assumption.
      - right. apply sort_values_In. specialize (HinS e He Hm).
        destruct (Nat.le_gt_cases at_once (List.length df)) as [Hfull | Hshort].
        + destruct (advance_cursor_full at_once s e0 df Hfull) as [Hst1 Hid1].
          fold s1 in Hst1, Hid1.
          assert (Hle : key_le e (last df e0)).
          { unfold below_cursor in Hb. rewrite Hst1, Hid1 in Hb.
            apply key_le_spec. destruct Hb as [Hb | [Hb [i [Hi Hci]]]].
            - left. apply key_lt_spec. left. exact Hb.
            - injection Hi as <-.
              destruct (String.compare (Ev.id e) (Ev.id (last df e0))) eqn:Ec.
              + right. unfold key_compare. rewrite Hb, Z.compare_refl. exact Ec.
              + left. apply key_lt_spec. right. split; assumption.
              + congruence. }
          rewrite <- El. apply firstn_closed with (last df e0); try assumption.
          rewrite El. exact Hlast.
        + rewrite <- El. rewrite firstn_short; [exact HinS |].
          rewrite El. lia.
      - exfalso.
        assert (Hlm : matches w (last df e0) = true).
        { rewrite Forall_forall in Hl_f. apply Hl_f, Hlast. }
        unfold w, build_where in Hlm. rewrite Hst in Hlm. simpl in Hlm.
        apply andb_prop in Hlm. destruct Hlm as [Hlt _]. apply Z.eqb_eq in Hlt.
        destruct (Nat.le_gt_cases at_once (List.length df)) as [Hfull | Hshort].
        + destruct (advance_cursor_full at_once s e0 df Hfull) as [Hst1 Hid1].
          fold s1 in Hst1, Hid1.
          unfold below_cursor in Hb. rewrite Hst1 in Hb.
          destruct Hb as [Hb | [Hb _]]; lia.
        + destruct (advance_cursor_short at_once s e0 df Hshort) as [Hst1 Hlt1].
          fold s1 in Hst1, Hlt1. rewrite Hst in Hlt1.
          unfold below_cursor in Hb. rewrite Hst1, Hlt1 in Hb. lia. }
    change (iteration at_once s (Events l))
      with (match Py.fromtimestamp (Ev.timestamp (last df e0)) with
            | Raise e => Raised e s
            | Ok _ => save_batch at_once s1 df
            end).
    destruct (Py.fromtimestamp (Ev.timestamp (last df e0))); [| constructor; assumption].
    unfold save_batch. rewrite Hdd.
    assert (Hf1 : output_file s1 = output_file s) by apply advance_output_file.
    assert (Ha1 : appended s1 = appended s) by apply advance_appended.
    assert (Hw : exists text, to_csv (output_file s1) df = Ok (File text)).
    { rewrite Hf1. unfold to_csv. destruct (output_file s); simpl;
        try congruence; eexists; reflexivity. }
    destruct Hw as [text ->]. cbv zeta.
    assert (Hres : forall n m, gapless db c0
              (mkState (last_timestamp s1) (last_id s1) (sticky_timestamp s1)
                       n m (File text) (appended s1 ++ df) (slept s1))).
    { intros n m. constructor; simpl.
      - exact Hshape1.
      - discriminate.
      - exact Hfrom1.
      - intros e He Hc Hb. simpl. rewrite Ha1. apply Hcomp1; assumption. }
    case_if; apply Hres.
Qed.

End Completeness.

(** ** The concrete sources *)

Lemma samples_in_datetime_range :
  Forall (fun e => in_datetime_range (Ev.timestamp e)) source_sticky.
Proof.
  repeat constructor; unfold in_datetime_range; simpl; intros H; discriminate H.
Defined.

Lemma sample_one_line (ts : Z) (i : string) :
  has_char is_LF i = false -> one_line (sample ts i).
Proof.
  intros Hi. unfold one_line, COLUMNS_TO_SAVE. repeat constructor.
  - apply str_no_LF.
  - simpl. exact Hi.
Qed.

Lemma source_sticky_ids : NoDup (map Ev.id source_sticky).
Proof.
  simpl. repeat (constructor; [simpl; intuition discriminate |]). constructor.
Qed.

Lemma source_one_lines : Forall one_line source_one.
Proof. constructor; [apply sample_one_line; reflexivity | constructor]. Qed.

Lemma source_one_dates : Forall (fun e => in_datetime_range (Ev.timestamp e)) source_one.
Proof.
  repeat constructor; unfold in_datetime_range; simpl; intros H; discriminate H.
Qed.

(** ** The loop ends *)

Lemma filter_length_le (f g : event -> bool) (l : list event) :
  (forall x, In x l -> g x = true -> f x = true) ->
  (List.length (filter g l) <= List.length (filter f l))%nat.
Proof.
  induction l as [| x r IH]; intros H; simpl; [lia |].
  assert (IH' : (List.length (filter g r) <= List.length (filter f r))%nat).
  { apply IH. intros y Hy. apply H. right. exact Hy. }
  destruct (g x) eqn:Eg.
  - rewrite (H x (or_introl eq_refl) Eg). simpl. lia.
  - destruct (f x); simpl; lia.
Qed.

Lemma filter_length_lt (f g : event -> bool) (l : list event) (a : event) :
  (forall x, In x l -> g x = true -> f x = true) ->
  In a l -> f a = true -> g a = false ->
  (List.length (filter g l) < List.length (filter f l))%nat.
Proof.
  induction l as [| x r IH]; intros H Ha Hf Hg; [destruct Ha |].
  assert (Hr : forall y, In y r -> g y = true -> f y = true).
  { intros y Hy. apply H. right. exact Hy. }
  simpl. destruct Ha as [-> | Ha].
  - rewrite Hf, Hg. simpl. pose proof (filter_length_le f g r Hr). lia.
  - specialize (IH Hr Ha Hf Hg).
    destruct (g x) eqn:Eg.
    + rewrite (H x (or_introl eq_refl) Eg). simpl. lia.
    + destruct (f x); simpl; lia.
Qed.

Lemma filter_all (g : event -> bool) (l : list event) :
  (forall x, In x l -> g x = true) -> filter g l = l.
Proof.
  induction l as [| x r IH]; intros H; simpl; [reflexivity |].
  rewrite (H x (or_introl eq_refl)). f_equal. apply IH. intros y Hy. apply H. right. exact Hy.
Qed.

Lemma string_ltb_irrefl (a : string) : String.ltb a a = false.
Proof. unfold String.ltb. rewrite string_compare_refl. reflexivity. Qed.

Lemma string_ltb_trans (a b c : string) :
  String.ltb a b = true -> String.ltb b c = true -> String.ltb a c = true.
Proof.
  unfold String.ltb. intros Hab Hbc.
  destruct (String.compare a b) eqn:E1; try discriminate.
  destruct (String.compare b c) eqn:E2; try discriminate.
  rewrite (string_compare_trans a b c E1 E2). reflexivity.
Qed.

(** A full batch brings the run nearer to its end: its last row was still to
    come and is not any more, and nothing else comes into reach. *)
Lemma advance_cursor_nearer (db : list event) (at_once : nat) (s : state) (e0 : event)
      (df : list event) :
  (at_once <= List.length df)%nat ->
  In (last df e0) db -> matches (build_where s) (last df e0) = true ->
  (List.length (filter (ahead (advance_cursor at_once s e0 df)) db)
   < List.length (filter (ahead s) db))%nat.
Proof.
  intros Hfull Hin Hm.
  destruct (advance_cursor_full at_once s e0 df Hfull) as [Hst Hid].
  apply filter_length_lt with (last df e0).
  - intros x _. unfold ahead at 1, build_where at 1. rewrite Hst, Hid. simpl.
    intros Hx. unfold ahead. unfold build_where in *.
    destruct (sticky_timestamp s) as [st |]; simpl in *.
    + apply andb_prop in Hm. destruct Hm as [Ht Hi]. apply Z.eqb_eq in Ht.
      apply orb_prop in Hx. destruct Hx as [Hx | Hx].
      * apply andb_prop in Hx. destruct Hx as [Hxt Hxi]. apply Z.eqb_eq in Hxt.
        apply orb_true_intro. left. apply andb_true_intro. split.
        -- apply Z.eqb_eq. lia.
        -- eapply string_ltb_trans; eassumption.
      * apply Z.ltb_lt in Hx. apply orb_true_intro. right. apply Z.ltb_lt. lia.
    + apply Z.ltb_lt in Hm. rewrite orb_false_r.
      apply orb_prop in Hx. destruct Hx as [Hx | Hx].
      * apply andb_prop in Hx. destruct Hx as [Hxt _]. apply Z.eqb_eq in Hxt.
        apply Z.ltb_lt. lia.
      * apply Z.ltb_lt in Hx. apply Z.ltb_lt. lia.
  - exact Hin.
  - unfold ahead. rewrite Hm. reflexivity.
  - unfold ahead, build_where. rewrite Hst, Hid. simpl.
    rewrite string_ltb_irrefl, andb_false_r, Z.ltb_irrefl. reflexivity.
Qed.

(** The distance is a matter of the cursor alone. *)
Lemma distance_ext (db : list event) (s s' : state) :
  last_timestamp s' = last_timestamp s -> last_id s' = last_id s ->
  sticky_timestamp s' = sticky_timestamp s ->
  distance db s' = distance db s.
Proof.
  intros Ht Hi Hs. unfold distance, ahead, build_where. rewrite Ht, Hi, Hs. reflexivity.
Qed.

(** Every iteration after which the loop goes on brings the run nearer to
    its end. *)
Lemma iteration_nearer (db : list event) (at_once : nat) (s s' : state) :
  iteration at_once s (remote_fetch db (build_where s) at_once) = Continue s' ->
  (distance db s' < distance db s)%nat.
Proof.
  unfold remote_fetch. destruct (parses (build_where s)); [| discriminate].
  destruct (firstn at_once (sort_values (filter (matches (build_where s)) db)))
    as [| e0 l'] eqn:El.
  - simpl. destruct (sticky_timestamp s) as [st |] eqn:Est; [| discriminate].
    intros [= <-]. unfold distance. cbn [sticky_timestamp]. rewrite Est.
    assert (H : (List.length (filter (ahead (mkState st None None (count s) (total_records s)
                                                     (output_file s) (appended s) (slept s))) db)
                 <= List.length (filter (ahead s) db))%nat).
    { apply filter_length_le. intros x _. unfold ahead, build_where. simpl. rewrite Est.
      rewrite orb_false_r. intros ->. apply orb_true_r. }
    lia.
  - set (l := e0 :: l') in *. set (df := sort_values l).
    assert (Hlast : In (last df e0) l).
    { apply sort_values_In, last_In, sort_values_not_nil. discriminate. }
    assert (Hfetched : In (last df e0) db /\ matches (build_where s) (last df e0) = true).
    { rewrite <- El in Hlast. apply firstn_subset in Hlast.
      apply (proj1 (sort_values_In _ _)) in Hlast.
      apply (proj1 (filter_In _ _ _)) in Hlast. exact Hlast. }
    change (iteration at_once s (Events l))
      with (match Py.fromtimestamp (Ev.timestamp (last df e0)) with
            | Raise e => Raised e s
            | Ok _ => save_batch at_once (advance_cursor at_once s e0 df) df
            end).
    destruct (Py.fromtimestamp _); [| discriminate].
    unfold save_batch. destruct (to_csv _ _) as [f | e]; [| discriminate].
    cbv zeta. cbn [sticky_timestamp].
    destruct (Nat.le_gt_cases at_once (List.length df)) as [Hfull | Hshort].
    + destruct (advance_cursor_full at_once s e0 df Hfull) as [Hst _].
      rewrite Hst, andb_false_r. intros [= <-].
      rewrite (distance_ext db (advance_cursor at_once s e0 df))
        by (try reflexivity; symmetry; exact Hst).
      pose proof (advance_cursor_nearer db at_once s e0 df Hfull
                    (proj1 Hfetched) (proj2 Hfetched)) as Hlt.
      unfold distance. rewrite Hst. lia.
    + destruct (advance_cursor_short at_once s e0 df Hshort) as [Hst _].
      rewrite Hst.
      pose proof (drop_duplicates_from_length [] df) as Hdd.
      fold (drop_duplicates df) in Hdd.
      replace (List.length (drop_duplicates df) <? at_once)%nat with true
        by (symmetry; apply Nat.ltb_lt; lia).
      discriminate.
Qed.

(** A run that has ended needs no more fuel. *)
Lemma loop_more_fuel (execute : nat -> where_clause -> nat -> response) (at_once : nat)
      (fuel k n : nat) (s : state) :
  has_ended (loop execute at_once fuel n s) = true ->
  loop execute at_once (fuel + k) n s = loop execute at_once fuel n s.
Proof.
  revert n s. induction fuel as [| fuel IH]; intros n s; [discriminate |].
  change (S fuel + k)%nat with (S (fuel + k)). rewrite !loop_S.
  destruct (iteration at_once s (execute n (build_where s) at_once)); [apply IH | |];
    reflexivity.
Qed.

Lemma loop_more_fuel_1 (execute : nat -> where_clause -> nat -> response) (at_once : nat)
      (fuel n : nat) (s : state) :
  has_ended (loop execute at_once fuel n s) = true ->
  loop execute at_once (S fuel) n s = loop execute at_once fuel n s.
Proof.
  intros H. replace (S fuel) with (fuel + 1)%nat by lia. apply loop_more_fuel, H.
Qed.

(** Against a fixed source the loop ends before [distance] iterations are
    over. *)
Lemma loop_ends (db : list event) (at_once fuel n : nat) (s : state) :
  (distance db s < fuel)%nat ->
  has_ended (loop (steady db) at_once fuel n s) = true.
Proof.
  revert n s. induction fuel as [| fuel IH]; intros n s Hd; [lia |].
  rewrite loop_S. unfold steady at 1.
  destruct (iteration at_once s (remote_fetch db (build_where s) at_once)) as [s' | s' | e s']
    eqn:Eit; [| reflexivity | reflexivity].
  apply IH. apply iteration_nearer in Eit. lia.
Qed.

Lemma distance_initial (db : list event) (c : cursor) (f : file) :
  (distance db (initial_state c f) <= 2 * List.length db)%nat.
Proof.
  unfold distance. change (sticky_timestamp (initial_state c f)) with (@None Z).
  pose proof (filter_length_le (fun _ => true) (ahead (initial_state c f)) db
                (fun _ _ _ => eq_refl)) as H.
  rewrite (filter_all (fun _ => true) db (fun _ _ => eq_refl)) in H. cbv iota. lia.
Qed.

(** From the cursor a run is entered with, the loop has ended after twice as
    many iterations as the source has events, and one. *)
Lemma loop_initial_ends (db : list event) (at_once : nat) (c : cursor) (f : file) :
  has_ended (loop (steady db) at_once (2 * List.length db + 1) 0 (initial_state c f))
  = true.
Proof. apply loop_ends. pose proof (distance_initial db c f). lia. Qed.

(** ** The loop returns *)

(** The loop is only left in normal mode. *)
Lemma iteration_break_not_sticky (at_once : nat) (s s' : state) (r : response) :
  iteration at_once s r = Break s' -> sticky_timestamp s' = None.
Proof.
  destruct r as [| | [| e0 l']].
  - discriminate.
  - discriminate.
  - simpl. destruct (sticky_timestamp s) eqn:E; [discriminate |].
    intros [= <-]. exact E.
  - unfold iteration, save_batch.
    destruct (Py.fromtimestamp _); [| discriminate].
    destruct (to_csv _ _) as [f | e]; [| discriminate].
    cbv zeta. cbn [sticky_timestamp].
    destruct (sticky_timestamp (advance_cursor at_once s e0 (sort_values (e0 :: l')))) eqn:E.
    + rewrite andb_false_r. discriminate.
    + case_if; intros [= <-]. reflexivity.
Qed.

Lemma loop_finished_not_sticky (execute : nat -> where_clause -> nat -> response)
      (at_once fuel n : nat) (s s' : state) :
  loop execute at_once fuel n s = Finished s' -> sticky_timestamp s' = None.
Proof.
  revert n s. induction fuel as [| fuel IH]; intros n s; [discriminate |].
  rewrite loop_S.
  destruct (iteration at_once s (execute n (build_where s) at_once)) as [s1 | s1 | e s1] eqn:E.
  - apply IH.
  - intros [= <-]. apply iteration_break_not_sticky in E. exact E.
  - discriminate.
Qed.

Lemma plain_char_stands (c : ascii) : plain_char c = true -> ends_or_escapes c = false.
Proof.
  destruct c as [[|] [|] [|] [|] [|] [|] [|] [|]]; cbv; intros H;
    try discriminate H; reflexivity.
Qed.

(** The text built for a plain id is read as the filter it was built for. *)
Lemma plain_parses (t : Z) (i : string) :
  plain i = true -> parses (timestamp_id_gt t i) = true.
Proof.
  unfold plain, parses. intros H. apply negb_true_iff in H. apply negb_true_iff.
  induction i as [| c r IH]; [reflexivity |].
  simpl in H. apply orb_false_elim in H. destruct H as [Hc Hr].
  simpl. rewrite (IH Hr), orb_false_r.
  apply negb_false_iff in Hc. apply (plain_char_stands c Hc).
Qed.

Lemma plain_cursor_parses (s : state) :
  plain_cursor s -> parses (build_where s) = true.
Proof.
  unfold plain_cursor, build_where. intros H.
  destruct (sticky_timestamp s) as [st |]; [| reflexivity].
  destruct (last_id s) as [i |]; [apply plain_parses, H | reflexivity].
Qed.

(** The id of the cursor after a batch: the id of its last row, none, or the
    id it had. *)
Lemma advance_last_id (at_once : nat) (s : state) (e0 : event) (df : list event) :
  last_id (advance_cursor at_once s e0 df) = Some (Ev.id (last df e0)) \/
  last_id (advance_cursor at_once s e0 df) = None \/
  last_id (advance_cursor at_once s e0 df) = last_id s.
Proof.
  unfold advance_cursor.
  destruct (at_once <=? List.length df)%nat;
    [destruct (Ev.timestamp (hd e0 df) =? Ev.timestamp (last df e0)) |
     destruct (sticky_timestamp s)]; simpl; tauto.
Qed.

(** Against a source of dates with plain ids, on a store that can be
    written, an iteration does not raise; the store can still be written
    after it, and the id of the cursor is plain. *)
Lemma iteration_no_raise (db : list event) (at_once : nat) (s : state) :
  Forall (fun e => in_datetime_range (Ev.timestamp e)) db ->
  Forall (fun e => plain (Ev.id e) = true) db ->
  output_file s <> NoAccess -> plain_cursor s ->
  match iteration at_once s (remote_fetch db (build_where s) at_once) with
  | Continue s' => output_file s' <> NoAccess /\ plain_cursor s'
  | Break s' => output_file s' <> NoAccess /\ plain_cursor s'
  | Raised _ _ => False
  end.
Proof.
  intros Hdb Hids Hf Hp.
  rewrite (remote_fetch_parsed db _ _ (plain_cursor_parses s Hp)).
  destruct (firstn at_once (sort_values (filter (matches (build_where s)) db)))
    as [| e0 l'] eqn:El.
  - simpl. destruct (sticky_timestamp s); split; try exact Hf; try exact Hp. exact I.
  - assert (Hsub : forall x, In x (e0 :: l') -> In x db).
    { intros x Hx. rewrite <- El in Hx.
      apply firstn_subset in Hx. apply (proj1 (sort_values_In _ _)) in Hx.
      apply (proj1 (filter_In _ _ _)) in Hx. apply Hx. }
    assert (Hrange : Forall (fun e => in_datetime_range (Ev.timestamp e)) (e0 :: l')).
    { rewrite Forall_forall in *. intros x Hx. apply Hdb, Hsub, Hx. }
    set (df := sort_values (e0 :: l')).
    assert (Hp1 : plain_cursor (advance_cursor at_once s e0 df)).
    { unfold plain_cursor.
      destruct (advance_last_id at_once s e0 df) as [-> | [-> | ->]]; [| exact I | exact Hp].
      rewrite Forall_forall in Hids. apply Hids, Hsub.
      apply sort_values_In, last_In, sort_values_not_nil. discriminate. }
    rewrite (iteration_batch at_once s e0 l' Hrange). fold df.
    unfold save_batch. rewrite advance_output_file.
    unfold to_csv. destruct (output_file s) as [| | text]; [| congruence |];
      cbn [isfile]; cbv zeta; case_if; (split; [discriminate | exact Hp1]).
Qed.

Lemma loop_no_raise (db : list event) (at_once fuel n : nat) (s : state) :
  Forall (fun e => in_datetime_range (Ev.timestamp e)) db ->
  Forall (fun e => plain (Ev.id e) = true) db ->
  output_file s <> NoAccess -> plain_cursor s ->
  match loop (steady db) at_once fuel n s with
  | Failed _ _ => False
  | _ => True
  end.
Proof.
  intros Hdb Hids. revert n s. induction fuel as [| fuel IH]; intros n s Hf Hp; [exact I |].
  rewrite loop_S. unfold steady at 1.
  pose proof (iteration_no_raise db at_once s Hdb Hids Hf Hp) as H.
  destruct (iteration at_once s (remote_fetch db (build_where s) at_once)) as [s' | s' | e s'].
  - apply IH; apply H.
  - exact I.
  - exact H.
Qed.

(** Against a source of dates with plain ids, on a store that can be
    written, the loop returns, in normal mode. *)
Lemma loop_returns (db : list event) (at_once : nat) (t : Z) (f : file) :
  Forall (fun e => in_datetime_range (Ev.timestamp e)) db ->
  Forall (fun e => plain (Ev.id e) = true) db ->
  f <> NoAccess ->
  exists s,
    (forall k, loop (steady db) at_once (2 * List.length db + 1 + k) 0
                    (initial_state (t, None) f) = Finished s) /\
    sticky_timestamp s = None /\ last_id s = None.
Proof.
  intros Hdb Hids Hf.
  pose proof (loop_initial_ends db at_once (t, None) f) as Hend.
  pose proof (loop_no_raise db at_once (2 * List.length db + 1) 0
                (initial_state (t, None) f) Hdb Hids Hf I) as Hnr.
  destruct (loop (steady db) at_once (2 * List.length db + 1) 0 (initial_state (t, None) f))
    as [s | e s | s] eqn:El; [| destruct Hnr | discriminate Hend].
  pose proof (loop_finished_not_sticky _ _ _ _ _ _ El) as Hst.
  exists s. split; [| split].
  - intros k. rewrite loop_more_fuel; rewrite El; reflexivity.
  - exact Hst.
  - assert (Hshape : cursor_shape s).
    { change s with (run_state (Finished s)). rewrite <- El.
      apply loop_invariant.
      - intros n s0 H0. apply iteration_cursor_shape, H0.
      - unfold cursor_shape. simpl. tauto. }
    apply Hshape, Hst.
Qed.

(** ** What a run that returned has stored *)

(** Two lists in strict key order with the same members are the same list. *)
Lemma strictly_sorted_ext (l1 l2 : list event) :
  StronglySorted key_lt l1 -> StronglySorted key_lt l2 ->
  (forall e, In e l1 <-> In e l2) -> l1 = l2.
Proof.
  intros H1. revert l2. induction H1 as [| x r1 Hr1 IH Hx]; intros l2 H2 Hiff.
  - destruct l2 as [| y r2]; [reflexivity |].
    exfalso. apply (proj2 (Hiff y)). left. reflexivity.
  - destruct H2 as [| y r2 Hr2 Hy].
    + exfalso. apply (proj1 (Hiff x)). left. reflexivity.
    + rewrite Forall_forall in Hx, Hy.
      assert (Hxy : x = y).
      { destruct (proj1 (Hiff x) (or_introl eq_refl)) as [E | Hin]; [congruence |].
        destruct (proj2 (Hiff y) (or_introl eq_refl)) as [E | Hin']; [congruence |].
        exfalso. apply (key_lt_irrefl x).
        apply key_lt_trans with y; [apply Hx, Hin' | apply Hy, Hin]. }
      subst y. f_equal. apply IH; [exact Hr2 |].
      intros e. split; intros He.
      * destruct (proj1 (Hiff e) (or_intror He)) as [E | Hin]; [| exact Hin].
        subst e. exfalso. apply (key_lt_irrefl x), Hx, He.
      * destruct (proj2 (Hiff e) (or_intror He)) as [E | Hin]; [| exact Hin].
        subst e. exfalso. apply (key_lt_irrefl x), Hy, He.
Qed.

(** What a run that returned has appended, against a source of distinct
    ids: the events after the cursor it was entered with, up to the cursor
    it ended with. *)
Lemma loop_finished_between (db : list event) (at_once fuel : nat) (c0 : Z) (f : file)
      (s : state) :
  NoDup (map Ev.id db) -> (0 < at_once)%nat -> f <> NoAccess ->
  loop (steady db) at_once fuel 0 (initial_state (c0, None) f) = Finished s ->
  appended s = sort_values (between c0 (last_timestamp s) db).
Proof.
  intros Hids Hpos Hf El.
  pose proof (loop_finished_not_sticky _ _ _ _ _ _ El) as Hst.
  assert (Es : s = run_state (loop (steady db) at_once fuel 0 (initial_state (c0, None) f))).
  { rewrite El. reflexivity. }
  assert (Hg : gapless db c0 s).
  { rewrite Es. apply loop_invariant.
    - intros n s0 H0. unfold steady. apply iteration_gapless; assumption.
    - constructor; simpl.
      + unfold cursor_shape. simpl. tauto.
      + exact Hf.
      + unfold cursor_from. simpl. lia.
      + intros e _ Hc Hb. unfold below_cursor in Hb. simpl in Hb. lia. }
  pose proof (loop_run_inv (steady db) at_once c0 f fuel (steady_honest db)) as Hinv.
  rewrite <- Es in Hinv.
  assert (Hs : Forall (served (steady db)) (appended s)).
  { rewrite Es. apply loop_served. constructor. }
  destruct Hinv as [_ Hsorted Hfrom Hbelow _ _].
  rewrite Forall_forall in Hs, Hfrom, Hbelow.
  apply strictly_sorted_ext.
  - exact Hsorted.
  - apply sorted_distinct_strict; [apply sort_values_sorted |].
    eapply NoDup_ids_perm; [apply sort_values_perm |].
    apply NoDup_ids_filter, Hids.
  - intros e. rewrite sort_values_In. unfold between. rewrite filter_In. split.
    + intros He. split; [apply served_steady, Hs, He |].
      apply andb_true_intro. split.
      * apply Z.ltb_lt, Hfrom, He.
      * specialize (Hbelow e He). unfold below_cursor in Hbelow. rewrite Hst in Hbelow.
        apply Z.leb_le, Hbelow.
    + intros [He Hb]. apply andb_prop in Hb. destruct Hb as [H1 H2].
      apply Z.ltb_lt in H1. apply Z.leb_le in H2.
      apply (gap_complete _ _ _ Hg); [exact He | exact H1 |].
      unfold below_cursor. rewrite Hst. exact H2.
Qed.

(** ** Counting batches and rows *)

Lemma advance_count (at_once : nat) (s : state) (e0 : event) (df : list event) :
  count (advance_cursor at_once s e0 df) = count s /\
  total_records (advance_cursor at_once s e0 df) = total_records s.
Proof.
  unfold advance_cursor.
  destruct (at_once <=? List.length df)%nat;
    [destruct (Ev.timestamp (hd e0 df) =? Ev.timestamp (last df e0)) |
     destruct (sticky_timestamp s)]; split; reflexivity.
Qed.

(** What an iteration does to the counters and the store: nothing, or it
    counts a batch, and appends it unless the store cannot be opened. *)
Lemma iteration_counts (at_once : nat) (s : state) (r : response) :
  let s' := outcome_state (iteration at_once s r) in
  (count s' = count s /\ total_records s' = total_records s /\
   appended s' = appended s /\ output_file s' = output_file s)
  \/
  (exists e0 l',
     r = Events (e0 :: l') /\
     count s' = S (count s) /\
     total_records s' = (total_records s + List.length (e0 :: l'))%nat /\
     ((output_file s = NoAccess /\ appended s' = appended s /\ output_file s' = NoAccess) \/
      (output_file s <> NoAccess /\ output_file s' <> NoAccess /\
       appended s' = (appended s ++ drop_duplicates (sort_values (e0 :: l')))%list))).
Proof.
  destruct r as [| | [| e0 l']]; cbv zeta.
  - left. repeat split.
  - left. repeat split.
  - left. simpl. destruct (sticky_timestamp s); repeat split.
  - unfold iteration, save_batch.
    destruct (Py.fromtimestamp _); [| left; repeat split].
    right. exists e0, l'. split; [reflexivity |].
    destruct (advance_count at_once s e0 (sort_values (e0 :: l'))) as [Hc Ht].
    rewrite advance_output_file, advance_appended, Hc, Ht, sort_values_length.
    unfold to_csv. destruct (output_file s) as [| | text] eqn:Ef; cbn [isfile]; cbv zeta.
    + case_if; simpl; (split; [reflexivity | split; [reflexivity |]]);
        right; (split; [discriminate | split; [discriminate | reflexivity]]).
    + simpl. split; [reflexivity | split; [reflexivity |]]. left. repeat split.
    + case_if; simpl; (split; [reflexivity | split; [reflexivity |]]);
        right; (split; [discriminate | split; [discriminate | reflexivity]]).
Qed.

Lemma iteration_counted (at_once : nat) (s : state) (r : response) :
  counted s -> counted (outcome_state (iteration at_once s r)).
Proof.
  intros [H1 H2].
  destruct (iteration_counts at_once s r) as [[Hc [Ht [Ha _]]] | [e0 [l' [_ [Hc [Ht Hw]]]]]].
  - constructor; rewrite ?Hc, ?Ht, ?Ha; assumption.
  - constructor; rewrite ?Hc, ?Ht.
    + simpl. lia.
    + destruct Hw as [[_ [Ha _]] | [_ [_ Ha]]]; rewrite Ha.
      * lia.
      * rewrite length_app.
        pose proof (drop_duplicates_from_length [] (sort_values (e0 :: l'))) as Hdd.
        fold (drop_duplicates (sort_values (e0 :: l'))) in Hdd.
        rewrite sort_values_length in Hdd. lia.
Qed.

Lemma steady_respects_first (db : list event) : respects_first (steady db).
Proof.
  intros n w first l H. unfold steady in H.
  apply remote_fetch_Events in H. destruct H as [_ ->].
  rewrite length_firstn. lia.
Qed.

Lemma steady_distinct_answers (db : list event) :
  NoDup (map Ev.id db) -> distinct_answers (steady db).
Proof.
  intros Hids n w first l H. unfold steady in H.
  apply remote_fetch_Events in H. destruct H as [_ ->].
  apply NoDup_ids_firstn.
  eapply NoDup_ids_perm; [apply sort_values_perm |].
  apply NoDup_ids_filter, Hids.
Qed.

(** ** Dates that [datetime] cannot show *)

(** The last row of a sorted batch has its greatest timestamp. *)
Lemma batch_last_timestamp_max (l : list event) (e0 x : event) :
  In x l -> Ev.timestamp x <= Ev.timestamp (last (sort_values l) e0).
Proof.
  intros Hx. apply key_le_timestamp.
  apply sorted_last_max; [apply sort_values_sorted | apply sort_values_In, Hx].
Qed.

Lemma fromtimestamp_raises (t : Z) :
  ~ in_datetime_range t -> Py.fromtimestamp t = Raise ValueError.
Proof.
  unfold in_datetime_range, Py.fromtimestamp. intros H.
  destruct (Py.MIN_TIMESTAMP <=? t) eqn:E1; [| reflexivity].
  destruct (t <=? Py.MAX_TIMESTAMP) eqn:E2; [| reflexivity].
  apply Z.leb_le in E1, E2. exfalso. apply H. split; assumption.
Qed.

(** ** A store that cannot be opened *)

Lemma loop_unopenable (db : list event) (at_once fuel : nat) (c0 : Z) :
  (0 < at_once)%nat ->
  Forall (fun e => in_datetime_range (Ev.timestamp e)) db ->
  filter (matches (timestamp_gt c0)) db <> [] ->
  exists s,
    loop (steady db) at_once (S fuel) 0 (initial_state (c0, None) NoAccess)
    = Failed OSError s /\
    output_file s = NoAccess /\ appended s = [].
Proof.
  intros Hpos Hdb Hne.
  destruct (filter (matches (timestamp_gt c0)) db) as [| e r] eqn:Ef; [congruence |].
  assert (He : In e db /\ matches (timestamp_gt c0) e = true).
  { apply filter_In. rewrite Ef. left. reflexivity. }
  destruct at_once as [| p]; [lia |].
  destruct (remote_fetch_not_nil db (timestamp_gt c0) p e eq_refl (proj1 He) (proj2 He))
    as [e0 [l' Hresp]].
  assert (Hrange : Forall (fun e => in_datetime_range (Ev.timestamp e)) (e0 :: l')).
  { rewrite Forall_forall in *. intros x Hx. apply Hdb.
    apply (remote_fetch_In db _ _ _ x Hresp Hx). }
  rewrite loop_S. unfold steady at 1.
  change (build_where (initial_state (c0, None) NoAccess)) with (timestamp_gt c0).
  rewrite Hresp, (iteration_batch _ _ _ _ Hrange).
  unfold save_batch. rewrite advance_output_file, advance_appended.
  cbn [initial_state output_file appended to_csv isfile].
  eexists. split; [reflexivity |]. split; reflexivity.
Qed.

(** ** The cursor and what lies before it *)

(** What lay at or before the cursor lies at or before it after an
    iteration whose answer passes the filter. *)
Lemma iteration_below_kept (at_once : nat) (s : state) (r : response) (a : event) :
  cursor_shape s ->
  match r with
  | Events l => Forall (fun e => matches (build_where s) e = true) l
  | _ => True
  end ->
  below_cursor s a -> below_cursor (outcome_state (iteration at_once s r)) a.
Proof.
  intros Hshape Hr Ha. destruct r as [| | [| e0 l']].
  - exact Ha.
  - exact Ha.
  - simpl. destruct (sticky_timestamp s) as [st |] eqn:Est; simpl; [| exact Ha].
    unfold below_cursor in *. rewrite Est in Ha. simpl.
    destruct Ha as [Ha | [Ha _]]; lia.
  - set (df := sort_values (e0 :: l')).
    assert (H1 : below_cursor (advance_cursor at_once s e0 df) a).
    { apply advance_below_old; try assumption.
      - apply sort_values_not_nil. discriminate.
      - apply sort_values_Forall, Hr. }
    change (iteration at_once s (Events (e0 :: l')))
      with (match Py.fromtimestamp (Ev.timestamp (last df e0)) with
            | Raise e => Raised e s
            | Ok _ => save_batch at_once (advance_cursor at_once s e0 df) df
            end).
    destruct (Py.fromtimestamp _); [| exact Ha].
    unfold save_batch. destruct (to_csv _ _) as [f | e]; cbv zeta; [case_if |]; exact H1.
Qed.

(** ** Which row of an id a batch keeps *)

(** Of the rows of an id that is not yet seen, [drop_duplicates_from] keeps
    one, and the others of that id come after it. *)
Lemma drop_duplicates_from_first (seen : list string) (l : list event) (x : event) :
  In x l -> ~ In (Ev.id x) seen ->
  exists l1 e l2,
    l = (l1 ++ e :: l2)%list /\ Ev.id e = Ev.id x /\
    In e (drop_duplicates_from seen l) /\ (x = e \/ In x l2).
Proof.
  revert seen. induction l as [| y r IH]; intros seen Hx Hseen; [destruct Hx |].
  simpl. destruct (existsb (String.eqb (Ev.id y)) seen) eqn:E.
  - apply existsb_eqb_In in E.
    destruct Hx as [-> | Hx]; [contradiction |].
    destruct (IH seen Hx Hseen) as [l1 [e [l2 [Hl [Hid [Hin Hpos]]]]]].
    exists (y :: l1), e, l2.
    split; [rewrite Hl; reflexivity | split; [exact Hid | split; [exact Hin | exact Hpos]]].
  - destruct (String.eqb (Ev.id y) (Ev.id x)) eqn:Eid.
    + apply String.eqb_eq in Eid.
      exists [], y, r. split; [reflexivity |]. split; [exact Eid |].
      split; [left; reflexivity |].
      destruct Hx as [-> | Hx]; [left; reflexivity | right; exact Hx].
    + apply String.eqb_neq in Eid.
      destruct Hx as [-> | Hx]; [congruence |].
      destruct (IH (Ev.id y :: seen) Hx) as [l1 [e [l2 [Hl [Hid [Hin Hpos]]]]]].
      { intros [H | H]; [congruence | contradiction]. }
      exists (y :: l1), e, l2.
      split; [rewrite Hl; reflexivity |
              split; [exact Hid | split; [right; exact Hin | exact Hpos]]].
Qed.

Lemma sorted_app_cons_le (l1 l2 : list event) (e x : event) :
  StronglySorted key_le (l1 ++ e :: l2) -> In x l2 -> key_le e x.
Proof.
  induction l1 as [| y r IH]; simpl; intros Hs Hx.
  - inversion Hs as [| ? ? _ He]; subst. rewrite Forall_forall in He. apply He, Hx.
  - inversion Hs; subst. apply IH; assumption.
Qed.

(** ** Failed queries and the time slept *)

Lemma advance_with_slept (at_once : nat) (s : state) (z : Z) (e0 : event) (df : list event) :
  advance_cursor at_once (with_slept s z) e0 df
  = with_slept (advance_cursor at_once s e0 df) z.
Proof.
  unfold advance_cursor, with_slept. cbn [sticky_timestamp last_timestamp last_id count
    total_records output_file appended slept].
  destruct (at_once <=? List.length df)%nat;
    [destruct (Ev.timestamp (hd e0 df) =? Ev.timestamp (last df e0)) |
     destruct (sticky_timestamp s)]; reflexivity.
Qed.

Lemma save_batch_with_slept (at_once : nat) (s : state) (z : Z) (df : list event) :
  save_batch at_once (with_slept s z) df
  = match save_batch at_once s df with
    | Continue s' => Continue (with_slept s' z)
    | Break s' => Break (with_slept s' z)
    | Raised e s' => Raised e (with_slept s' z)
    end.
Proof.
  unfold save_batch, with_slept. cbn [sticky_timestamp last_timestamp last_id count
    total_records output_file appended slept].
  destruct (to_csv _ _) as [f | e]; [| reflexivity].
  cbv zeta. cbn [sticky_timestamp]. case_if; reflexivity.
Qed.

(** An answer is dealt with in the same way whatever the time slept. *)
Lemma iteration_with_slept (at_once : nat) (s : state) (z : Z) (l : list event) :
  iteration at_once (with_slept s z) (Events l)
  = match iteration at_once s (Events l) with
    | Continue s' => Continue (with_slept s' z)
    | Break s' => Break (with_slept s' z)
    | Raised e s' => Raised e (with_slept s' z)
    end.
Proof.
  destruct l as [| e0 l'].
  - simpl. destruct (sticky_timestamp s); reflexivity.
  - unfold iteration. destruct (Py.fromtimestamp _); [| reflexivity].
    rewrite advance_with_slept. apply save_batch_with_slept.
Qed.

(** So is a text that the parser rejects. *)
Lemma iteration_answer_with_slept (at_once : nat) (s : state) (z : Z) (r : response) :
  r <> QueryError ->
  iteration at_once (with_slept s z) r
  = match iteration at_once s r with
    | Continue s' => Continue (with_slept s' z)
    | Break s' => Break (with_slept s' z)
    | Raised e s' => Raised e (with_slept s' z)
    end.
Proof.
  intros Hr. destruct r as [| | l]; [reflexivity | congruence |].
  apply iteration_with_slept.
Qed.

Lemma remote_fetch_answers (db : list event) (w : where_clause) (first : nat) :
  remote_fetch db w first <> QueryError.
Proof. unfold remote_fetch. destruct (parses w); discriminate. Qed.

Lemma with_slept_twice (s : state) (z z' : Z) :
  with_slept (with_slept s z) z' = with_slept s z'.
Proof. reflexivity. Qed.

Lemma slept_with_slept (s : state) (z : Z) : slept (with_slept s z) = z.
Proof. reflexivity. Qed.

Lemma has_ended_with_slept (r : run) (z : Z) :
  has_ended (run_with_slept r z) = has_ended r.
Proof. destruct r; reflexivity. Qed.

(** A run that ended against a service that may fail is the run against the
    source itself, with the same fuel, but for the time slept: five seconds
    for each failed query. *)
Lemma loop_failures_delay (db : list event)
      (execute : nat -> where_clause -> nat -> response) (at_once : nat)
      (fuel n m : nat) (s : state) (z : Z) :
  fails_or_serves db execute ->
  has_ended (loop execute at_once fuel n (with_slept s z)) = true ->
  exists k : nat,
    (k <= fuel)%nat /\
    loop execute at_once fuel n (with_slept s z)
    = run_with_slept (loop (steady db) at_once fuel m s) (z + 5 * Z.of_nat k).
Proof.
  intros Hex. revert n m s z. induction fuel as [| fuel IH]; intros n m s z Hend;
    [discriminate |].
  rewrite loop_S in Hend. rewrite loop_S.
  rewrite build_where_with_slept in *.
  destruct (Hex n (build_where s) at_once) as [E | E]; rewrite E in *.
  - rewrite iteration_query_error in *. rewrite with_slept_twice, slept_with_slept in *.
    destruct (IH (S n) m s (z + 5) Hend) as [k [Hk Hz]]. exists (S k).
    split; [lia |]. rewrite Hz.
    rewrite Hz, has_ended_with_slept in Hend.
    rewrite loop_more_fuel_1 by exact Hend. f_equal. lia.
  - pose proof (remote_fetch_answers db (build_where s) at_once) as Hr.
    set (r := remote_fetch db (build_where s) at_once) in *.
    rewrite loop_S. unfold steady at 1. fold r.
    rewrite (iteration_answer_with_slept _ _ _ _ Hr) in *.
    destruct (iteration at_once s r) as [s' | s' | e s'].
    + destruct (IH (S n) (S m) s' z Hend) as [k [Hk Hz]]. exists k. split; [lia | exact Hz].
    + exists 0%nat. split; [lia |]. simpl. rewrite Z.add_0_r. reflexivity.
    + exists 0%nat. split; [lia |]. simpl. rewrite Z.add_0_r. reflexivity.
Qed.

Lemma flaky_fails_or_serves (k : nat) (db : list event) : fails_or_serves db (flaky k db).
Proof.
  intros n w first. unfold flaky.
  destruct (parses w && (n <? k)%nat); [left | right]; reflexivity.
Qed.




(** ** Leaving the loop *)

Lemma firstn_nil_inv (n : nat) (l : list event) :
  (0 < n)%nat -> firstn n l = [] -> l = [].
Proof.
  intros Hn H. destruct n as [| k]; [lia |]. destruct l; [reflexivity | discriminate H].
Qed.

(** ** Reading the query text back *)

Lemma string_app_inv_head (a b c : string) : (a ++ b = a ++ c -> b = c)%string.
Proof.
  induction a as [| x a IH]; simpl; intros H; [exact H |].
  injection H as H. apply IH, H.
Qed.

Lemma string_length_app (a b : string) :
  String.length (a ++ b) = (String.length a + String.length b)%nat.
Proof.
  induction a as [| x a IH]; simpl; [reflexivity | rewrite IH; reflexivity].
Qed.

Lemma string_app_inv_tail (a b c : string) : (a ++ c = b ++ c -> a = b)%string.
Proof.
  revert b. induction a as [| x a IH]; intros [| y b] H.
  - reflexivity.
  - exfalso. apply (f_equal String.length) in H. simpl in H.
    rewrite string_length_app in H. lia.
  - exfalso. apply (f_equal String.length) in H. simpl in H.
    rewrite string_length_app in H. lia.
  - simpl in H. injection H as -> H. f_equal. apply IH, H.
Qed.

(** Two texts that hold no character of [p], each followed by such a
    character: where they end can be read off. *)
Lemma string_until (p : ascii -> bool) (x y : string) (c d : ascii) (r r' : string) :
  has_char p x = false -> has_char p y = false -> p c = true -> p d = true ->
  (x ++ String c r = y ++ String d r')%string -> x = y /\ r = r'.
Proof.
  revert y. induction x as [| a x IH]; intros [| b y] Hx Hy Hc Hd H; simpl in *.
  - injection H as _ H. split; [reflexivity | exact H].
  - injection H as -> _. apply orb_false_elim in Hy. destruct Hy as [Hy _]. congruence.
  - injection H as -> _. apply orb_false_elim in Hx. destruct Hx as [Hx _]. congruence.
  - injection H as -> H.
    apply orb_false_elim in Hx, Hy. destruct Hx as [_ Hx]. destruct Hy as [_ Hy].
    destruct (IH y Hx Hy Hc Hd H) as [-> ->]. split; reflexivity.
Qed.

Lemma str_inj (a b : Z) : Py.str a = Py.str b -> a = b.
Proof.
  intros H. pose proof (int_str a) as Ha. rewrite H, int_str in Ha.
  injection Ha as Ha. symmetry. exact Ha.
Qed.

Lemma str_no_dquote (z : Z) : has_char is_dquote (Py.str z) = false.
Proof.
  apply str_has_char; [| reflexivity]. intros c Hc.
  destruct (digit_not_special c Hc) as [_ [_ [_ [_ [H _]]]]].
  unfold csv_special in H. unfold is_dquote.
  destruct (Ascii.eqb c Py.dquote); [| reflexivity].
  rewrite orb_true_r in H. discriminate.
Qed.

Lemma quoted_str_inj (a b : Z) (r r' : string) :
  quoted (Py.str a) r = quoted (Py.str b) r' -> a = b /\ r = r'.
Proof.
  unfold quoted. intros H. injection H as H.
  destruct (string_until is_dquote _ _ Py.dquote Py.dquote _ _
              (str_no_dquote a) (str_no_dquote b) eq_refl eq_refl H) as [Hs Hr].
  split; [apply str_inj, Hs | exact Hr].
Qed.

(** The text of the where clause tells the filter. *)
Lemma where_text_inj (s s' : state) :
  where_text s = where_text s' -> build_where s = build_where s'.
Proof.
  unfold where_text, build_where.
  destruct (sticky_timestamp s) as [st |], (sticky_timestamp s') as [st' |]; intros H.
  - apply string_app_inv_head in H. apply quoted_str_inj in H. destruct H as [-> H].
    apply string_app_inv_head in H. unfold quoted in H. injection H as H.
    apply string_app_inv_tail in H. rewrite H. reflexivity.
  - exfalso. simpl in H. discriminate H.
  - exfalso. simpl in H. discriminate H.
  - apply string_app_inv_head in H. apply quoted_str_inj in H. destruct H as [-> _].
    reflexivity.
Qed.

(** * Part IV. The claims *)

(** ** C1. No-gap guarantee *)

(** C1, the code at the failing input. A run on an absent store against
    [source_sticky], pages of two: the first batch (a, b) is full and makes
    the harvester sticky at 100, the second (c) is short and ends the run.
    The run returns; the event d at timestamp 200 is in the source and not
    in the store. A run resumed on that store starts again below 100, goes
    the same way and ends at the same place: no later run reaches d. *)
Theorem run_misses_later_timestamp :
  scrape read_csv_rejects (steady source_sticky) 2 5 NoFile
  = Finished (mkState 100 None None 2%nat 3%nat
                      (File (csv_header ++ row "a" ++ row "b" ++ row "c"))
                      [sample 100 "a"; sample 100 "b"; sample 100 "c"] 0) /\
  In (sample 200 "d") source_sticky /\
  existsb (fun e => Ev.timestamp e =? 200)
          (appended (run_state (scrape read_csv_rejects (steady source_sticky) 2 5 NoFile)))
  = false /\
  scrape read_csv_rejects (steady source_sticky) 2 5
         (File (csv_header ++ row "a" ++ row "b" ++ row "c"))
  = Finished (mkState 100 None None 2%nat 3%nat
                      (File (csv_header ++ row "a" ++ row "b" ++ row "c"
                             ++ row "a" ++ row "b" ++ row "c"))
                      [sample 100 "a"; sample 100 "b"; sample 100 "c"] 0).
Proof.
  split; [vm_compute; reflexivity |].
  split; [right; right; right; left; reflexivity |].
  split; vm_compute; reflexivity.
Qed.

(** ** C2. Termination rule *)

(** C2, the code at the failing input. With pages of two the harvester is
    sticky at timestamp 100 behind id b; the query for more rows at 100 gives
    the single row c, a short batch. The iteration clears the sticky state,
    appends c, and leaves the loop: line 188 reads the sticky timestamp after
    lines 162-166 have cleared it. The claim has the loop go on here, as it
    does when the same query gives no rows at all. *)
Theorem short_sticky_batch_leaves_loop :
  build_where sticky_state = timestamp_id_gt 100 "b" /\
  remote_fetch source_sticky (build_where sticky_state) 2 = Events [sample 100 "c"] /\
  iteration 2 sticky_state (Events [sample 100 "c"])
  = Break (mkState 100 None None 2%nat 3%nat
                   (File (csv_header ++ row "a" ++ row "b" ++ row "c"))
                   [sample 100 "a"; sample 100 "b"; sample 100 "c"] 0) /\
  iteration 2 sticky_state (Events [])
  = Continue (mkState 100 None None 1%nat 2%nat
                      (File (csv_header ++ row "a" ++ row "b"))
                      [sample 100 "a"; sample 100 "b"] 0).
Proof. repeat split; vm_compute; reflexivity. Qed.

(** ** C3. Idempotent resume *)

(** C3, counterexample. Against a source of one event, a first run returns
    with that event stored; recovery on its store gives (99, null); the second
    run, against the same source, returns having appended one more record. *)
Lemma resume_not_idempotent :
  is_finished first_run_one = true /\
  output_file (run_state first_run_one) = File (csv_header ++ row "a") /\
  get_latest_cursor read_csv_rejects (output_file (run_state first_run_one))
  = Ok (99, None) /\
  is_finished second_run_one = true /\
  appended (run_state second_run_one) = [sample 100 "a"] /\
  output_file (run_state second_run_one) = File (csv_header ++ row "a" ++ row "a").
Proof. repeat split; vm_compute; reflexivity. Qed.

(** C3, as amended. Resume. Let a run on an absent store against a fixed
    source (of events that are dates and hold no line break) have returned.
    If it stored nothing, a second run stores nothing either. If it stored
    rows, the last of them with timestamp [L], then recovery on its store
    gives the cursor (L - 1, null), and a second run against the same source
    appends rows again, at least one and each with a timestamp of [L] or
    later, behind the rows of the first run. *)
Theorem resume_appends_again (read_csv : string -> result DataFrame)
    (db : list event) (at_once fuel1 fuel2 : nat) (s1 : state) :
  Forall one_line db ->
  Forall (fun e => in_datetime_range (Ev.timestamp e)) db ->
  scrape read_csv (steady db) at_once fuel1 NoFile = Finished s1 ->
  (appended s1 = [] ->
   output_file s1 = NoFile /\
   exists s2,
     scrape read_csv (steady db) at_once (S fuel2) (output_file s1) = Finished s2 /\
     appended s2 = [] /\ output_file s2 = NoFile) /\
  (appended s1 <> [] ->
   exists front e,
     appended s1 = (front ++ [e])%list /\
     output_file s1 = File (csv_header ++ csv_rows (appended s1)) /\
     get_latest_cursor read_csv (output_file s1) = Ok (Ev.timestamp e - 1, None) /\
     let s2 := run_state (scrape read_csv (steady db) at_once (S fuel2) (output_file s1)) in
     appended s2 <> [] /\
     Forall (fun x => Ev.timestamp e <= Ev.timestamp x) (appended s2) /\
     output_file s2 = File (csv_header ++ csv_rows (appended s1 ++ appended s2))).
Proof.
  intros Hline Hrange Hrun.
  pose proof (steady_honest db) as Hh.
  assert (Hs1 : s1 = run_state (scrape read_csv (steady db) at_once fuel1 NoFile))
    by (rewrite Hrun; reflexivity).
  assert (Hfile1 : output_file s1 = file_after NoFile (appended s1)).
  { rewrite Hs1, scrape_fresh. apply loop_file_after. reflexivity. }
  split.
  - (* nothing stored *)
    intros Hnil. rewrite Hnil in Hfile1. simpl in Hfile1.
    split; [exact Hfile1 |]. rewrite Hfile1.
    rewrite scrape_fresh in Hrun. rewrite scrape_fresh.
    destruct fuel1 as [| fuel1]; [discriminate Hrun |].
    rewrite loop_S in Hrun. rewrite loop_S.
    unfold steady at 1 in Hrun. unfold steady at 1.
    destruct (remote_fetch db (build_where (initial_state (0, None) NoFile)) at_once)
      as [| | [| e0 l']] eqn:Hresp.
    + discriminate Hresp.
    + discriminate Hresp.
    + eexists. split; [reflexivity | split; reflexivity].
    + exfalso.
      assert (Hne : appended (run_state (loop (steady db) at_once (S fuel1) 0%nat
                                              (initial_state (0, None) NoFile))) <> []).
      { apply (loop_appends db at_once fuel1 _ e0 l' Hrange); [discriminate | exact Hresp]. }
      rewrite loop_S in Hne. unfold steady at 1 in Hne. rewrite Hresp in Hne.
      rewrite Hrun in Hne. simpl in Hne. congruence.
  - (* rows stored *)
    intros Hne. destruct (app_last_exists (appended s1) Hne) as [front [e Happ]].
    exists front, e.
    assert (Hserved : Forall (served (steady db)) (appended s1)).
    { rewrite Hs1, scrape_fresh. apply loop_served. constructor. }
    assert (He_in : In e (appended s1)).
    { rewrite Happ. apply in_or_app. right. left. reflexivity. }
    assert (He_db : In e db).
    { rewrite Forall_forall in Hserved. apply served_steady, Hserved, He_in. }
    assert (He_line : one_line e) by (rewrite Forall_forall in Hline; apply Hline, He_db).
    assert (He_range : in_datetime_range (Ev.timestamp e))
      by (rewrite Forall_forall in Hrange; apply Hrange, He_db).
    assert (Hfile : output_file s1 = File (csv_header ++ csv_rows (appended s1))).
    { rewrite Hfile1. destruct (appended s1); [congruence | reflexivity]. }
    split; [exact Happ |]. split; [exact Hfile |].
    rewrite Hfile, Happ.
    split; [apply get_latest_cursor_written; assumption |].
    cbv zeta.
    rewrite (scrape_resumed read_csv (steady db) at_once (S fuel2) front e He_line He_range).
    set (s0 := initial_state (Ev.timestamp e - 1, None)
                             (File (csv_header ++ csv_rows (front ++ [e])))).
    split; [| split].
    + (* the first answer holds [e] or rows before it *)
      destruct at_once as [| at_once'].
      * exfalso. rewrite scrape_fresh in Hrun.
        destruct fuel1 as [| fuel1]; [discriminate Hrun |].
        rewrite loop_S in Hrun. unfold steady at 1, remote_fetch in Hrun.
        simpl in Hrun. injection Hrun as <-. simpl in Hne. congruence.
      * assert (Hm : matches (build_where s0) e = true).
        { unfold s0, build_where. simpl. apply Z.ltb_lt. lia. }
        destruct (remote_fetch_not_nil db (build_where s0) at_once' e eq_refl He_db Hm)
          as [e0 [l' Hresp]].
        apply (loop_appends db (S at_once') fuel2 s0 e0 l' Hrange); [discriminate | exact Hresp].
    + pose proof (loop_run_inv (steady db) at_once (Ev.timestamp e - 1)
                    (File (csv_header ++ csv_rows (front ++ [e]))) (S fuel2) Hh) as Hinv2.
      destruct Hinv2 as [_ _ Hfrom _ _ _].
      eapply Forall_impl; [| exact Hfrom]. intros x Hx. simpl in Hx. lia.
    + rewrite (loop_file_after (steady db) at_once (S fuel2) 0%nat s0
                 (File (csv_header ++ csv_rows (front ++ [e])))) by reflexivity.
      apply file_after_written. destruct front; discriminate.
Qed.

(** C3 at [source_one], pages of five: the run resumed on the store of
    [first_run_one] appends again. *)
Lemma resume_appends_again_witness :
  exists front e,
    appended (run_state first_run_one) = (front ++ [e])%list /\
    output_file (run_state first_run_one)
    = File (csv_header ++ csv_rows (appended (run_state first_run_one))) /\
    get_latest_cursor read_csv_rejects (output_file (run_state first_run_one))
    = Ok (Ev.timestamp e - 1, None) /\
    appended (run_state (scrape read_csv_rejects (steady source_one) 5 3
                                (output_file (run_state first_run_one)))) <> [] /\
    Forall (fun x => Ev.timestamp e <= Ev.timestamp x)
           (appended (run_state (scrape read_csv_rejects (steady source_one) 5 3
                                        (output_file (run_state first_run_one))))) /\
    output_file (run_state (scrape read_csv_rejects (steady source_one) 5 3
                                   (output_file (run_state first_run_one))))
    = File (csv_header
            ++ csv_rows (appended (run_state first_run_one)
                         ++ appended (run_state
                                        (scrape read_csv_rejects (steady source_one) 5 3
                                                (output_file (run_state first_run_one)))))).
Proof.
  refine (proj2 (resume_appends_again read_csv_rejects source_one 5 3 2
                   (run_state first_run_one) source_one_lines source_one_dates eq_refl) _).
  discriminate.
Defined.

(** ** C4. Zero-result transitions *)

(** C4. Zero-result transitions. When a fetch succeeds with zero results in
    sticky mode, the harvester goes back to normal mode with the timestamp
    cursor at the sticky timestamp and the id cleared, and the loop goes on
    with the next iteration (whose filter is [timestamp_gt st]); when a fetch
    succeeds with zero results in normal mode, the loop is left and [scrape]
    returns. *)
Theorem zero_results_transitions
    (execute : nat -> where_clause -> nat -> response) (at_once n fuel : nat) (s : state) :
  execute n (build_where s) at_once = Events [] ->
  (forall st : Z, sticky_timestamp s = Some st ->
     iteration at_once s (Events []) = Continue (past_sticky s st) /\
     sticky_timestamp (past_sticky s st) = None /\
     last_timestamp (past_sticky s st) = st /\
     last_id (past_sticky s st) = None /\
     build_where (past_sticky s st) = timestamp_gt st /\
     loop execute at_once (S fuel) n s = loop execute at_once fuel (S n) (past_sticky s st)) /\
  (sticky_timestamp s = None ->
     iteration at_once s (Events []) = Break s /\
     loop execute at_once (S fuel) n s = Finished s).
Proof.
  intros Hex. split.
  - intros st Hst.
    assert (Hit : iteration at_once s (Events []) = Continue (past_sticky s st)).
    { simpl. rewrite Hst. reflexivity. }
    repeat split; try reflexivity.
    + exact Hit.
    + simpl. rewrite Hex, Hit. reflexivity.
  - intros Hst.
    assert (Hit : iteration at_once s (Events []) = Break s).
    { simpl. rewrite Hst. reflexivity. }
    split; [exact Hit |]. simpl. rewrite Hex, Hit. reflexivity.
Qed.

(** C4 at [exhausted_state], against [source_sticky]: no row at timestamp
    100 has an id after c. *)
Lemma zero_results_transitions_witness :
  iteration 2 exhausted_state (Events []) = Continue (past_sticky exhausted_state 100) /\
  sticky_timestamp (past_sticky exhausted_state 100) = None /\
  last_timestamp (past_sticky exhausted_state 100) = 100 /\
  last_id (past_sticky exhausted_state 100) = None /\
  build_where (past_sticky exhausted_state 100) = timestamp_gt 100 /\
  loop (steady source_sticky) 2 2 0 exhausted_state
  = loop (steady source_sticky) 2 1 1 (past_sticky exhausted_state 100).
Proof.
  exact (proj1 (zero_results_transitions (steady source_sticky) 2 0 1 exhausted_state
                  eq_refl) 100 eq_refl).
Defined.

(** ** C5. Full-batch sticky entry *)

(** C5. Full-batch sticky entry. After a batch of exactly [at_once] results
    (events whose timestamps are dates [datetime] can show), sorted by
    (timestamp, id), the harvester is in sticky mode with the sticky timestamp
    and the id of the cursor those of the last row of the sorted batch, which
    is a row of the batch that no other row exceeds; the next filter asks for
    that timestamp and greater ids. Nothing is assumed about the first and the
    last timestamp of the batch, so this holds when they are equal and when
    they differ. The loop is not left; it goes on unless writing the store
    raises. *)
Theorem full_batch_enters_sticky (at_once : nat) (s : state) (e0 : event) (l' : list event) :
  List.length (e0 :: l') = at_once ->
  Forall (fun e => in_datetime_range (Ev.timestamp e)) (e0 :: l') ->
  let df := sort_values (e0 :: l') in
  let o := iteration at_once s (Events (e0 :: l')) in
  sticky_timestamp (outcome_state o) = Some (Ev.timestamp (last df e0)) /\
  last_id (outcome_state o) = Some (Ev.id (last df e0)) /\
  build_where (outcome_state o)
  = timestamp_id_gt (Ev.timestamp (last df e0)) (Ev.id (last df e0)) /\
  In (last df e0) (e0 :: l') /\
  (forall x, In x (e0 :: l') -> key_le x (last df e0)) /\
  (exists s', o = Continue s' \/ exists e, o = Raised e s') /\
  (output_file s <> NoAccess -> exists s', o = Continue s').
Proof.
  intros Hlen Hrange df o.
  assert (Hfull : (at_once <=? List.length df)%nat = true).
  { apply Nat.leb_le. unfold df. rewrite sort_values_length. lia. }
  assert (Hadv : exists s1,
             advance_cursor at_once s e0 df = s1 /\
             sticky_timestamp s1 = Some (Ev.timestamp (last df e0)) /\
             last_id s1 = Some (Ev.id (last df e0)) /\
             output_file s1 = output_file s).
  { eexists. split; [reflexivity |]. unfold advance_cursor. rewrite Hfull.
    destruct (Ev.timestamp (hd e0 df) =? Ev.timestamp (last df e0));
      repeat split; reflexivity. }
  destruct Hadv as [s1 [Hs1 [Hst [Hid Hfile]]]].
  assert (Ho : o = match to_csv (output_file s1) (drop_duplicates df) with
                   | Raise e =>
                       Raised e (mkState (last_timestamp s1) (last_id s1) (sticky_timestamp s1)
                                         (S (count s1)) (total_records s1 + List.length df)
                                         (output_file s1) (appended s1) (slept s1))
                   | Ok f =>
                       Continue (mkState (last_timestamp s1) (last_id s1) (sticky_timestamp s1)
                                         (S (count s1)) (total_records s1 + List.length df)
                                         f (appended s1 ++ drop_duplicates df) (slept s1))
                   end).
  { unfold o. rewrite (iteration_batch at_once s e0 l' Hrange). fold df.
    rewrite Hs1. unfold save_batch.
    destruct (to_csv (output_file s1) (drop_duplicates df)); [| reflexivity].
    simpl. rewrite Hst. rewrite andb_false_r. reflexivity. }
  assert (Hin : In (last df e0) (e0 :: l')).
  { apply sort_values_In. apply last_In. apply sort_values_not_nil. discriminate. }
  repeat split.
  - rewrite Ho. destruct (to_csv _ _); simpl; exact Hst.
  - rewrite Ho. destruct (to_csv _ _); simpl; exact Hid.
  - rewrite Ho. unfold build_where.
    destruct (to_csv _ _); simpl; rewrite Hst, Hid; reflexivity.
  - exact Hin.
  - intros x Hx. apply sorted_last_max; [apply sort_values_sorted |].
    apply sort_values_In, Hx.
  - rewrite Ho. destruct (to_csv _ _) as [f | e]; eexists.
    + left. reflexivity.
    + right. exists e. reflexivity.
  - intros Hacc. rewrite Ho, Hfile.
    destruct (output_file s) as [| | text]; simpl; try congruence; eexists; reflexivity.
Qed.

(** C5 at a full batch of four with two timestamps: sticky at 200 behind
    d. *)
Lemma full_batch_enters_sticky_witness :
  sticky_timestamp
    (outcome_state (iteration 4 (initial_state (0, None) NoFile) (Events source_sticky)))
  = Some 200 /\
  last_id
    (outcome_state (iteration 4 (initial_state (0, None) NoFile) (Events source_sticky)))
  = Some "d".
Proof.
  pose proof (full_batch_enters_sticky 4 (initial_state (0, None) NoFile)
                (sample 100 "a") [sample 100 "b"; sample 100 "c"; sample 200 "d"]
                eq_refl samples_in_datetime_range) as H.
  exact (conj (proj1 H) (proj1 (proj2 H))).
Defined.

(** ** C6. Cursor recovery contract *)



(** ** C7. Ordering invariant *)

(** C7, counterexample. A first run stores a and b; the run resumed on that
    store appends a and b again. After that append the store reads a, b, a,
    b: the row of id a follows the row of id b at the same timestamp. *)
Lemma resumed_store_not_sorted :
  is_finished first_run_two = true /\
  is_finished second_run_two = true /\
  output_file (run_state second_run_two)
  = File (csv_header ++ csv_rows (appended (run_state first_run_two)
                                  ++ appended (run_state second_run_two))) /\
  map key (appended (run_state first_run_two) ++ appended (run_state second_run_two))
  = [(100, "a"); (100, "b"); (100, "a"); (100, "b")] /\
  sorted_by_key (appended (run_state first_run_two) ++ appended (run_state second_run_two))
  = false /\
  key_compare (sample 100 "b") (sample 100 "a") = Gt.
Proof. repeat split; vm_compute; reflexivity. Qed.

(** C7, as amended. Ordering invariant. Against a service that answers each
    query with events passing its filter, after every batch append of a run
    started on an absent store the rows of the store are in strictly
    ascending order of (timestamp, id), timestamps compared as integers and
    ids as strings. In a run resumed on a store written before (its rows in
    timestamp order, its last row a date in one line), the rows the run
    appends are in that strict order among themselves, and the store as a
    whole stays in ascending order of timestamp; the order of ids across the
    point of resumption is not kept. *)
Theorem store_order_invariant (read_csv : string -> result DataFrame)
    (execute : nat -> where_clause -> nat -> response) (at_once fuel : nat) :
  honest execute ->
  (let s := run_state (scrape read_csv execute at_once fuel NoFile) in
   output_file s = file_after NoFile (appended s) /\
   StronglySorted key_lt (appended s)) /\
  (forall (front : list event) (e : event),
     one_line e -> in_datetime_range (Ev.timestamp e) ->
     StronglySorted timestamp_le (front ++ [e]) ->
     let s := run_state (scrape read_csv execute at_once fuel
                                (File (csv_header ++ csv_rows (front ++ [e])))) in
     output_file s = File (csv_header ++ csv_rows ((front ++ [e]) ++ appended s)) /\
     StronglySorted key_lt (appended s) /\
     StronglySorted timestamp_le ((front ++ [e]) ++ appended s)).
Proof.
  intros Hh. split.
  - cbv zeta. rewrite scrape_fresh. split.
    + apply loop_file_after. reflexivity.
    + apply (loop_run_inv execute at_once 0 NoFile fuel Hh).
  - intros front e Hline Hrange Hold. cbv zeta.
    rewrite (scrape_resumed read_csv execute at_once fuel front e Hline Hrange).
    pose proof (loop_run_inv execute at_once (Ev.timestamp e - 1)
                  (File (csv_header ++ csv_rows (front ++ [e]))) fuel Hh) as Hinv.
    destruct Hinv as [_ Hsorted Hfrom _ _ _].
    split; [| split].
    + rewrite (loop_file_after execute at_once fuel 0%nat _
                 (File (csv_header ++ csv_rows (front ++ [e])))) by reflexivity.
      apply file_after_written. destruct front; discriminate.
    + exact Hsorted.
    + apply StronglySorted_app.
      * exact Hold.
      * eapply StronglySorted_weaken; [| exact Hsorted].
        intros a b Hab. apply key_lt_le, key_le_timestamp in Hab. exact Hab.
      * intros a b Ha Hb. unfold timestamp_le.
        pose proof (sorted_last_timestamp front e a Hold Ha) as H1.
        rewrite Forall_forall in Hfrom. specialize (Hfrom b Hb). simpl in Hfrom. lia.
Qed.

(** C7 at the run on [source_sticky], pages of two. *)
Lemma store_order_invariant_witness :
  output_file (run_state (scrape read_csv_rejects (steady source_sticky) 2 5 NoFile))
  = file_after NoFile
      (appended (run_state (scrape read_csv_rejects (steady source_sticky) 2 5 NoFile))) /\
  StronglySorted key_lt
    (appended (run_state (scrape read_csv_rejects (steady source_sticky) 2 5 NoFile))).
Proof.
  exact (proj1 (store_order_invariant read_csv_rejects (steady source_sticky) 2 5
                  (steady_honest source_sticky))).
Defined.

(** ** C8. No-duplicate store invariant *)

(** C8, counterexample. After the batch append of the run resumed on the
    store of [first_run_one], the store holds the record of id a twice. *)
Lemma resumed_store_duplicate_id :
  is_finished second_run_one = true /\
  output_file (run_state second_run_one)
  = File (csv_header ++ csv_rows (appended (run_state first_run_one)
                                  ++ appended (run_state second_run_one))) /\
  map Ev.id (appended (run_state first_run_one) ++ appended (run_state second_run_one))
  = ["a"; "a"] /\
  output_file (run_state second_run_one) = File (csv_header ++ row "a" ++ row "a").
Proof. repeat split; vm_compute; reflexivity. Qed.

(** C8, as amended. No-duplicate store invariant versus batch-local
    deduplication. The deduplication before an append is local to the batch:
    an iteration that writes appends the sorted batch without the rows whose
    id an earlier row of the same batch has, whatever the store holds. Against
    a service that answers each query with events passing its filter, after
    every batch append of a run started on an absent store no two rows of the
    store have the same timestamp and id, and, when the service knows every
    id at one timestamp only, no two rows have the same id. (A run resumed on
    a store that is not empty appends rows the store already has.) *)
Theorem store_ids_invariant (read_csv : string -> result DataFrame)
    (execute : nat -> where_clause -> nat -> response) (at_once fuel : nat) :
  honest execute ->
  let s := run_state (scrape read_csv execute at_once fuel NoFile) in
  (forall (s0 s' : state) (e0 : event) (l' : list event),
     iteration at_once s0 (Events (e0 :: l')) = Continue s' \/
     iteration at_once s0 (Events (e0 :: l')) = Break s' ->
     appended s' = (appended s0 ++ drop_duplicates (sort_values (e0 :: l')))%list /\
     to_csv (output_file s0) (drop_duplicates (sort_values (e0 :: l')))
     = Ok (output_file s') /\
     NoDup (map Ev.id (drop_duplicates (sort_values (e0 :: l'))))) /\
  output_file s = file_after NoFile (appended s) /\
  NoDup (map key (appended s)) /\
  (unique_ids execute -> NoDup (map Ev.id (appended s))).
Proof.
  intros Hh s. split; [| split; [| split]].
  - intros s0 s' e0 l' Hit.
    destruct (iteration_written at_once s0 s' e0 l' Hit) as [Ha Hf].
    split; [exact Ha | split; [exact Hf | apply drop_duplicates_from_NoDup]].
  - unfold s. rewrite scrape_fresh. apply loop_file_after. reflexivity.
  - apply strictly_sorted_keys. unfold s. rewrite scrape_fresh.
    apply (loop_run_inv execute at_once 0 NoFile fuel Hh).
  - intros Hu. apply strictly_sorted_ids.
    + unfold s. rewrite scrape_fresh.
      apply (loop_run_inv execute at_once 0 NoFile fuel Hh).
    + assert (Hs : Forall (served execute) (appended s)).
      { unfold s. rewrite scrape_fresh. apply loop_served. constructor. }
      rewrite Forall_forall in Hs. intros a b Ha Hb. apply Hu; apply Hs; assumption.
Qed.

(** C8 at the run on [source_sticky], pages of two. *)
Lemma store_ids_invariant_witness :
  NoDup (map Ev.id
           (appended (run_state (scrape read_csv_rejects (steady source_sticky) 2 5 NoFile)))).
Proof.
  refine (proj2 (proj2 (proj2 (store_ids_invariant read_csv_rejects (steady source_sticky)
                                 2 5 (steady_honest source_sticky)))) _).
  apply steady_unique_ids, source_sticky_ids.
Defined.

(** ** C9. Remote-error atomicity and retry *)

(** C9. Remote-error atomicity and retry. A fetch that fails leaves the
    iteration with [Continue]: five more seconds are slept, and the cursor
    (timestamp, id, sticky timestamp), the counters and the store are as they
    were, so the next filter is the same one. While the fetches fail the loop
    only repeats this: after any number [k] of failures it stands where it
    stood, [5 * k] seconds later; and against a service that always fails no
    amount of iterations ends the run, neither by returning nor by raising. *)
Theorem query_error_retries (at_once : nat) (s : state) :
  iteration at_once s QueryError = Continue (with_slept s (slept s + 5)) /\
  build_where (with_slept s (slept s + 5)) = build_where s /\
  last_timestamp (with_slept s (slept s + 5)) = last_timestamp s /\
  last_id (with_slept s (slept s + 5)) = last_id s /\
  sticky_timestamp (with_slept s (slept s + 5)) = sticky_timestamp s /\
  output_file (with_slept s (slept s + 5)) = output_file s /\
  appended (with_slept s (slept s + 5)) = appended s /\
  (forall (execute : nat -> where_clause -> nat -> response) (k fuel n : nat),
     (forall j, (j < k)%nat -> execute (n + j)%nat (build_where s) at_once = QueryError) ->
     loop execute at_once (k + fuel) n s
     = loop execute at_once fuel (n + k) (with_slept s (slept s + 5 * Z.of_nat k))) /\
  (forall (execute : nat -> where_clause -> nat -> response) (fuel n : nat),
     (forall m w a, execute m w a = QueryError) ->
     loop execute at_once fuel n s
     = OutOfFuel (with_slept s (slept s + 5 * Z.of_nat fuel))).
Proof.
  repeat split.
  - intros execute k fuel n Hex. apply loop_retries, Hex.
  - intros execute fuel n Hex.
    rewrite <- (Nat.add_0_r fuel) at 1.
    rewrite loop_retries by (intros; apply Hex). reflexivity.
Qed.

(** C9 against a service whose first three calls fail. *)
Lemma query_error_retries_witness :
  loop (flaky 3 source_one) 5 (3 + 2) 0 (initial_state (0, None) NoFile)
  = loop (flaky 3 source_one) 5 2 (0 + 3)
         (with_slept (initial_state (0, None) NoFile) (0 + 5 * Z.of_nat 3)).
Proof.
  refine (proj1 (proj2 (proj2 (proj2 (proj2 (proj2 (proj2 (proj2
            (query_error_retries 5 (initial_state (0, None) NoFile)))))))))
            (flaky 3 source_one) 3%nat 2%nat 0%nat _).
  intros j Hj. unfold flaky. simpl.
  destruct j as [| [| [| j]]]; try reflexivity.
  exfalso. apply (Nat.lt_irrefl 3). apply Nat.le_lt_trans with (S (S (S j))).
  - apply le_n_S, le_n_S, le_n_S, Nat.le_0_l.
  - exact Hj.
Defined.

(** ** C10. Cursor-shape invariant *)

(** C10. Cursor-shape invariant. In every state a run of [scrape] reaches, so
    at the start of every iteration of the loop, the id of the cursor is null
    exactly when the sticky timestamp is null. The filter built in normal mode
    is [timestamp_gt] of the timestamp cursor and holds no id; the filter built
    in sticky mode holds the sticky timestamp and a real id. *)
Theorem cursor_shape_invariant
    (read_csv : string -> result DataFrame)
    (execute : nat -> where_clause -> nat -> response) (at_once fuel : nat) (f : file) :
  let s := run_state (scrape read_csv execute at_once fuel f) in
  cursor_shape s /\
  (sticky_timestamp s = None /\ last_id s = None /\
   build_where s = timestamp_gt (last_timestamp s)
   \/
   exists st i, sticky_timestamp s = Some st /\ last_id s = Some i /\
                build_where s = timestamp_id_gt st i).
Proof.
  intros s.
  assert (Hs : cursor_shape s).
  { unfold s. destruct (scrape_loop read_csv execute at_once fuel f) as [t [_ ->]].
    apply loop_invariant.
    - intros n s0 H0. apply iteration_cursor_shape, H0.
    - unfold cursor_shape. simpl. tauto. }
  split; [exact Hs |].
  unfold cursor_shape in Hs. unfold build_where.
  destruct (sticky_timestamp s) as [st |] eqn:Est.
  - right. destruct (last_id s) as [i |] eqn:Ei.
    + exists st, i. split; [reflexivity | split; reflexivity].
    + exfalso. destruct Hs as [Hs _]. specialize (Hs eq_refl). discriminate.
  - left. destruct Hs as [_ Hs]. specialize (Hs eq_refl).
    split; [reflexivity | split; [exact Hs | reflexivity]].
Qed.

(** ** Beyond the claims: what the code does guarantee *)



(** X2. What the code does at line 188. A batch that is not empty ends the
    loop exactly when it is short (and line 144 and the write do not raise),
    whether or not the harvester was sticky when it asked for the batch. *)
Theorem iteration_break_iff (at_once : nat) (s : state) (e0 : event) (l' : list event) :
  (exists s', iteration at_once s (Events (e0 :: l')) = Break s') <->
  (List.length (e0 :: l') < at_once)%nat /\
  in_datetime_range (Ev.timestamp (last (sort_values (e0 :: l')) e0)) /\
  output_file s <> NoAccess.
Proof.
  set (df := sort_values (e0 :: l')).
  assert (Hlen : List.length df = List.length (e0 :: l')) by apply sort_values_length.
  pose proof (advance_cursor_sticky at_once s e0 df) as Hst.
  unfold iteration. fold df. unfold save_batch.
  rewrite advance_output_file.
  destruct (Py.fromtimestamp (Ev.timestamp (last df e0))) as [u | e] eqn:Eft.
  - apply fromtimestamp_ok_in_range in Eft.
    destruct (to_csv (output_file s) (drop_duplicates df)) as [f | e] eqn:Ecsv.
    + assert (Hacc : output_file s <> NoAccess).
      { intros H. rewrite H in Ecsv. discriminate Ecsv. }
      cbv zeta. cbn [sticky_timestamp].
      destruct (sticky_timestamp (advance_cursor at_once s e0 df)) eqn:Es.
      * rewrite andb_false_r. split.
        -- intros [s' H]. discriminate H.
        -- intros [Hshort _]. rewrite <- Hlen in Hshort. apply Hst in Hshort.
           discriminate.
      * assert (Hshort : (List.length df < at_once)%nat) by (apply Hst; reflexivity).
        pose proof (drop_duplicates_from_length [] df) as Hdd.
        fold (drop_duplicates df) in Hdd.
        replace (List.length (drop_duplicates df) <? at_once)%nat with true
          by (symmetry; apply Nat.ltb_lt; lia).
        cbn [andb]. split.
        -- intros _. split; [rewrite Hlen in Hshort; exact Hshort | split; assumption].
        -- intros _. eexists. reflexivity.
    + split.
      * intros [s' H]. discriminate H.
      * intros [_ [_ Hacc]]. exfalso. apply Hacc.
        unfold to_csv in Ecsv. destruct (output_file s); simpl in Ecsv; congruence.
  - split.
    + intros [s' H]. discriminate H.
    + intros [_ [Hr _]]. apply fromtimestamp_in_range in Hr. fold df in Hr. congruence.
Qed.

(** X3. Empty source. Against a source with no event after timestamp 0, a
    run on an absent store makes one query, returns, and has appended
    nothing: the store is still absent. *)
Theorem empty_source_stores_nothing (read_csv : string -> result DataFrame)
    (db : list event) (at_once fuel : nat) :
  filter (matches (timestamp_gt 0)) db = [] ->
  scrape read_csv (steady db) at_once (S fuel) NoFile
  = Finished (initial_state (0, None) NoFile) /\
  appended (initial_state (0, None) NoFile) = [] /\
  output_file (initial_state (0, None) NoFile) = NoFile.
Proof.
  intros H. split; [| split; reflexivity].
  rewrite scrape_fresh, loop_S. unfold steady at 1, remote_fetch.
  change (build_where (initial_state (0, None) NoFile)) with (timestamp_gt 0).
  rewrite H. simpl sort_values. rewrite firstn_nil. reflexivity.
Qed.

(** X3 at a source whose only event has timestamp 0. *)
Lemma empty_source_stores_nothing_witness :
  scrape read_csv_rejects (steady [sample 0 "z"]) 5 1 NoFile
  = Finished (initial_state (0, None) NoFile) /\
  appended (initial_state (0, None) NoFile) = [] /\
  output_file (initial_state (0, None) NoFile) = NoFile.
Proof.
  exact (empty_source_stores_nothing read_csv_rejects [sample 0 "z"] 5 0 eq_refl).
Defined.

(** X4. Short-batch termination. Against a source with fewer events after
    timestamp 0 than a page holds (and at least one, all of them dates), a
    run on an absent store makes one query and returns after that single
    batch, with these events stored in key order (less the rows whose id an
    earlier row has) and the cursor at the last of their timestamps. *)
Theorem short_source_single_batch (read_csv : string -> result DataFrame)
    (db : list event) (at_once fuel : nat) :
  let batch := sort_values (filter (matches (timestamp_gt 0)) db) in
  batch <> [] -> (List.length batch < at_once)%nat ->
  Forall (fun e => in_datetime_range (Ev.timestamp e)) db ->
  exists s e0,
    scrape read_csv (steady db) at_once (S fuel) NoFile = Finished s /\
    count s = 1%nat /\
    total_records s = List.length batch /\
    appended s = drop_duplicates batch /\
    output_file s = File (csv_header ++ csv_rows (drop_duplicates batch)) /\
    sticky_timestamp s = None /\
    last_timestamp s = Ev.timestamp (last batch e0) /\ In (last batch e0) db.
Proof.
  intros batch Hne Hlen Hdates.
  destruct batch as [| e0 l'] eqn:Eb; [congruence |].
  assert (Hsorted : StronglySorted key_le (e0 :: l')).
  { rewrite <- Eb. apply sort_values_sorted. }
  assert (Hresp : remote_fetch db (timestamp_gt 0) at_once = Events (e0 :: l')).
  { rewrite remote_fetch_parsed by reflexivity. fold batch. rewrite Eb. f_equal.
    apply firstn_all2. lia. }
  assert (Hin : forall x, In x (e0 :: l') -> In x db).
  { intros x Hx. apply (remote_fetch_In db _ _ _ x Hresp Hx). }
  assert (Hrange : Forall (fun e => in_datetime_range (Ev.timestamp e)) (e0 :: l')).
  { rewrite Forall_forall in *. intros x Hx. apply Hdates, Hin, Hx. }
  assert (Hit : iteration at_once (initial_state (0, None) NoFile) (Events (e0 :: l'))
                = Break (mkState (Ev.timestamp (last (e0 :: l') e0)) None None 1%nat
                                 (List.length (e0 :: l'))
                                 (File (csv_header ++ csv_rows (drop_duplicates (e0 :: l'))))
                                 (drop_duplicates (e0 :: l')) 0)).
  { rewrite (iteration_batch _ _ _ _ Hrange), (sort_values_sorted_id _ Hsorted).
    unfold save_batch, advance_cursor.
    replace (at_once <=? List.length (e0 :: l'))%nat with false
      by (symmetry; apply Nat.leb_gt; exact Hlen).
    cbn [initial_state sticky_timestamp last_timestamp last_id count total_records
         output_file appended slept fst snd to_csv isfile].
    pose proof (drop_duplicates_from_length [] (e0 :: l')) as Hdd.
    fold (drop_duplicates (e0 :: l')) in Hdd.
    replace (List.length (drop_duplicates (e0 :: l')) <? at_once)%nat with true
      by (symmetry; apply Nat.ltb_lt; lia).
    reflexivity. }
  eexists. exists e0. split.
  - rewrite scrape_fresh, loop_S. unfold steady at 1.
    change (build_where (initial_state (0, None) NoFile)) with (timestamp_gt 0).
    rewrite Hresp, Hit. reflexivity.
  - cbn [count total_records appended output_file sticky_timestamp last_timestamp].
    repeat split. apply Hin, last_In. discriminate.
Qed.

(** X4 at [source_two], pages of five. *)
Lemma short_source_single_batch_witness :
  exists s e0,
    scrape read_csv_rejects (steady source_two) 5 1 NoFile = Finished s /\
    count s = 1%nat /\
    total_records s = 2%nat /\
    appended s = [sample 100 "a"; sample 100 "b"] /\
    output_file s = File (csv_header ++ row "a" ++ row "b") /\
    sticky_timestamp s = None /\
    last_timestamp s = Ev.timestamp (last [sample 100 "a"; sample 100 "b"] e0) /\
    In (last [sample 100 "a"; sample 100 "b"] e0) source_two.
Proof.
  refine (short_source_single_batch read_csv_rejects source_two 5 0 _ _ _).
  - discriminate.
  - repeat constructor.
  - repeat constructor; unfold in_datetime_range; simpl; intros H; discriminate H.
Defined.

(** X5. Sticky pagination. Against a source all of whose events have one
    timestamp (a date after 0) and different ids, the ids plain (printable
    ASCII without double quote and backslash, so that the query text of line
    89 holds them as they are), a run on an absent store returns, whatever
    the page size (at least 1) and however many pages the timestamp takes,
    and it has stored every event of the source, in the order of the ids. *)
Theorem single_timestamp_harvest (read_csv : string -> result DataFrame) (db : list event)
    (at_once : nat) (t : Z) :
  db <> [] -> Forall (fun e => Ev.timestamp e = t) db ->
  0 < t -> in_datetime_range t ->
  NoDup (map Ev.id db) -> Forall (fun e => plain (Ev.id e) = true) db ->
  (0 < at_once)%nat ->
  exists s,
    (forall k, scrape read_csv (steady db) at_once (2 * List.length db + 1 + k) NoFile
               = Finished s) /\
    appended s = sort_values db /\
    output_file s = File (csv_header ++ csv_rows (sort_values db)).
Proof.
  intros Hne Hts Hpos Hrange Hids Hplain Hat.
  assert (Hdb : Forall (fun e => in_datetime_range (Ev.timestamp e)) db).
  { eapply Forall_impl; [| exact Hts]. intros e ->. exact Hrange. }
  destruct (loop_returns db at_once 0 NoFile Hdb Hplain) as [s [Hrun [Hst _]]];
    [discriminate |].
  exists s. split; [intros k; rewrite scrape_fresh; apply Hrun |].
  specialize (Hrun 0%nat). rewrite Nat.add_0_r in Hrun.
  pose proof (loop_finished_between db at_once _ 0 NoFile s Hids Hat
                ltac:(discriminate) Hrun) as Happ.
  assert (Hnn : appended s <> []).
  { destruct db as [| e r] eqn:Edb; [congruence |]. rewrite <- Edb in *.
    assert (He : In e db) by (rewrite Edb; left; reflexivity).
    assert (Hm : matches (build_where (initial_state (0, None) NoFile)) e = true).
    { simpl. apply Z.ltb_lt. rewrite Forall_forall in Hts. rewrite (Hts e He). exact Hpos. }
    destruct at_once as [| p]; [lia |].
    destruct (remote_fetch_not_nil db (build_where (initial_state (0, None) NoFile))
                p e eq_refl He Hm) as [e0 [l' Hresp]].
    change s with (run_state (Finished s)). rewrite <- Hrun.
    replace (2 * List.length db + 1)%nat with (S (2 * List.length db)) by lia.
    apply (loop_appends db (S p) _ _ e0 l' Hdb); [discriminate | exact Hresp]. }
  assert (Hall : between 0 (last_timestamp s) db = db).
  { destruct (appended s) as [| x r] eqn:Ea; [congruence |].
    assert (Hx : In x (between 0 (last_timestamp s) db)).
    { apply sort_values_In. rewrite <- Happ. left. reflexivity. }
    unfold between in Hx. apply filter_In in Hx. destruct Hx as [Hx Hb].
    rewrite Forall_forall in Hts. rewrite (Hts x Hx) in Hb.
    apply filter_all. intros y Hy. rewrite (Hts y Hy). exact Hb. }
  rewrite Hall in Happ. split; [exact Happ |].
  pose proof (loop_file_after (steady db) at_once (2 * List.length db + 1) 0
                (initial_state (0, None) NoFile) NoFile eq_refl) as Hfile.
  rewrite Hrun in Hfile. simpl run_state in Hfile. rewrite Hfile, Happ.
  destruct (sort_values db) eqn:E; [| reflexivity].
  exfalso. apply (sort_values_not_nil db Hne E).
Qed.

(** X5 at [source_five], pages of two. *)
Lemma single_timestamp_harvest_witness :
  exists s,
    (forall k, scrape read_csv_rejects (steady source_five) 2
                      (2 * List.length source_five + 1 + k) NoFile = Finished s) /\
    appended s = sort_values source_five /\
    output_file s = File (csv_header ++ csv_rows (sort_values source_five)).
Proof.
  refine (single_timestamp_harvest read_csv_rejects source_five 2 100 _ _ _ _ _ _ _).
  - discriminate.
  - repeat constructor.
  - reflexivity.
  - unfold in_datetime_range. simpl. split; intros H; discriminate H.
  - simpl. repeat (constructor; [simpl; intuition discriminate |]). constructor.
  - repeat constructor.
  - repeat constructor.
Defined.

(** The run of X5 at [source_five], page by page: three batches, of two, two
    and one event; the harvester is sticky after the first batch and after
    the second, and not after the third. *)
Example sticky_pagination_small :
  map (fun fuel =>
         let s := run_state (scrape read_csv_rejects (steady source_five) 2 fuel NoFile) in
         (count s, List.length (appended s), sticky_timestamp s, last_id s))
      [1%nat; 2%nat; 3%nat]
  = [(1%nat, 2%nat, Some 100, Some "b");
     (2%nat, 4%nat, Some 100, Some "d");
     (3%nat, 5%nat, None, None)] /\
  is_finished (scrape read_csv_rejects (steady source_five) 2 3 NoFile) = true /\
  appended (run_state (scrape read_csv_rejects (steady source_five) 2 3 NoFile))
  = source_five.
Proof. repeat split; vm_compute; reflexivity. Qed.


(** X7. The run returns. Against a fixed source whose timestamps are dates
    [datetime] can show and whose ids are plain (printable ASCII without
    double quote and backslash, so that the query text of line 89 holds them
    as they are and line 113 does not raise), on a store that is absent or
    can be opened, [scrape] returns: it raises nothing and it does not go on
    for ever. It returns in normal mode, the cursor without id. *)
Theorem scrape_returns (read_csv : string -> result DataFrame) (db : list event)
    (at_once : nat) (f : file) :
  Forall (fun e => in_datetime_range (Ev.timestamp e)) db ->
  Forall (fun e => plain (Ev.id e) = true) db ->
  f <> NoAccess ->
  exists s,
    (forall k, scrape read_csv (steady db) at_once (2 * List.length db + 1 + k) f
               = Finished s) /\
    sticky_timestamp s = None /\ last_id s = None.
Proof.
  intros Hdb Hplain Hf.
  destruct (get_latest_cursor_returns read_csv f) as [t Hc].
  destruct (loop_returns db at_once t f Hdb Hplain Hf) as [s [Hrun Hs]].
  exists s. split; [| exact Hs].
  intros k. unfold scrape. rewrite Hc. apply Hrun.
Qed.

(** X7 at [source_sticky], pages of two, on the store of a first run. *)
Lemma scrape_returns_witness :
  exists s,
    (forall k, scrape read_csv_rejects (steady source_sticky) 2
                      (2 * List.length source_sticky + 1 + k)
                      (File (csv_header ++ row "a" ++ row "b" ++ row "c"))
               = Finished s) /\
    sticky_timestamp s = None /\ last_id s = None.
Proof.
  refine (scrape_returns read_csv_rejects source_sticky 2
            (File (csv_header ++ row "a" ++ row "b" ++ row "c")) _ _ _).
  - exact samples_in_datetime_range.
  - repeat constructor.
  - discriminate.
Defined.



(** X9. The counters. In every state of a run of [scrape], [count] is the
    number of batches dealt with and [total_records] the number of rows
    fetched in them: no batch is empty, so [count] is at most
    [total_records]; the rows appended are at most [total_records], since
    duplicate ids are dropped after the batch is counted. On a store that is
    absent or can be opened every batch counted has appended a row. Against
    a service that keeps to the page size, [total_records] is at most
    [count] pages; against one whose answers hold no id twice,
    [total_records] is the number of rows appended. *)
Theorem counters_account (read_csv : string -> result DataFrame)
    (execute : nat -> where_clause -> nat -> response) (at_once fuel : nat) (f : file) :
  let s := run_state (scrape read_csv execute at_once fuel f) in
  (count s <= total_records s)%nat /\
  (List.length (appended s) <= total_records s)%nat /\
  (f <> NoAccess -> (count s <= List.length (appended s))%nat) /\
  (respects_first execute -> (total_records s <= count s * at_once)%nat) /\
  (f <> NoAccess -> distinct_answers execute ->
   total_records s = List.length (appended s)).
Proof.
  intros s. unfold s.
  destruct (scrape_loop read_csv execute at_once fuel f) as [t [_ ->]].
  split; [| split; [| split; [| split]]].
  - apply (loop_invariant execute at_once counted).
    + intros n s0 H0. apply iteration_counted, H0.
    + constructor; simpl; lia.
  - apply (loop_invariant execute at_once counted).
    + intros n s0 H0. apply iteration_counted, H0.
    + constructor; simpl; lia.
  - intros Hf.
    apply (loop_invariant execute at_once
             (fun s => output_file s <> NoAccess /\
                       (count s <= List.length (appended s))%nat)).
    + intros n s0 [Hf0 H0].
      destruct (iteration_counts at_once s0 (execute n (build_where s0) at_once))
        as [[Hc [_ [Ha Ho]]] | [e0 [l' [_ [Hc [_ Hw]]]]]].
      * rewrite Hc, Ha, Ho. split; assumption.
      * destruct Hw as [[Hno _] | [_ [Ho Ha]]]; [congruence |].
        split; [exact Ho |]. rewrite Hc, Ha, length_app.
        assert (Hnn : drop_duplicates (sort_values (e0 :: l')) <> []).
        { apply drop_duplicates_not_nil, sort_values_not_nil. discriminate. }
        destruct (drop_duplicates (sort_values (e0 :: l'))); [congruence |]. simpl. lia.
    + split; [exact Hf | simpl; lia].
  - intros Hb.
    apply (loop_invariant execute at_once
             (fun s => (total_records s <= count s * at_once)%nat)).
    + intros n s0 H0.
      destruct (iteration_counts at_once s0 (execute n (build_where s0) at_once))
        as [[Hc [Ht _]] | [e0 [l' [Hr [Hc [Ht _]]]]]].
      * rewrite Hc, Ht. exact H0.
      * rewrite Hc, Ht. apply Hb in Hr. simpl in *. lia.
    + simpl. lia.
  - intros Hf Hd.
    apply (loop_invariant execute at_once
             (fun s => output_file s <> NoAccess /\
                       total_records s = List.length (appended s))).
    + intros n s0 [Hf0 H0].
      destruct (iteration_counts at_once s0 (execute n (build_where s0) at_once))
        as [[_ [Ht [Ha Ho]]] | [e0 [l' [Hr [_ [Ht Hw]]]]]].
      * rewrite Ht, Ha, Ho. split; assumption.
      * destruct Hw as [[Hno _] | [_ [Ho Ha]]]; [congruence |].
        split; [exact Ho |]. rewrite Ht, Ha, length_app.
        apply Hd in Hr.
        rewrite drop_duplicates_id, sort_values_length; [lia |].
        eapply NoDup_ids_perm; [apply sort_values_perm | exact Hr].
    + split; [exact Hf | reflexivity].
Qed.

(** X9 at the run on [source_sticky], pages of two. *)
Lemma counters_account_witness :
  (count (run_state (scrape read_csv_rejects (steady source_sticky) 2 5 NoFile))
   <= List.length
        (appended (run_state (scrape read_csv_rejects (steady source_sticky) 2 5 NoFile))))%nat /\
  (total_records (run_state (scrape read_csv_rejects (steady source_sticky) 2 5 NoFile))
   <= count (run_state (scrape read_csv_rejects (steady source_sticky) 2 5 NoFile)) * 2)%nat /\
  total_records (run_state (scrape read_csv_rejects (steady source_sticky) 2 5 NoFile))
  = List.length
      (appended (run_state (scrape read_csv_rejects (steady source_sticky) 2 5 NoFile))).
Proof.
  pose proof (counters_account read_csv_rejects (steady source_sticky) 2 5 NoFile) as H.
  cbv zeta in H. destruct H as [_ [_ [H3 [H4 H5]]]].
  split; [| split].
  - apply H3. discriminate.
  - apply H4, steady_respects_first.
  - apply H5; [discriminate |]. apply steady_distinct_answers, source_sticky_ids.
Defined.

(** X10. A timestamp beyond the dates. When an event of the batch has a
    timestamp after the last second of the year 9999 (a timestamp in
    milliseconds, say), line 144 raises before the cursor is moved and before
    anything is written: the iteration raises with the state it began with,
    no row of the batch is stored, and [scrape] raises. *)
Theorem late_timestamp_aborts_batch (at_once : nat) (s : state) (l : list event) (x : event) :
  In x l -> Py.MAX_TIMESTAMP < Ev.timestamp x ->
  exists e,
    iteration at_once s (Events l) = Raised e s /\
    (forall (execute : nat -> where_clause -> nat -> response) (fuel n : nat),
       execute n (build_where s) at_once = Events l ->
       loop execute at_once (S fuel) n s = Failed e s).
Proof.
  intros Hx Hlate. exists ValueError.
  assert (Hit : iteration at_once s (Events l) = Raised ValueError s).
  { destruct l as [| e0 l']; [destruct Hx |].
    unfold iteration.
    pose proof (batch_last_timestamp_max (e0 :: l') e0 x Hx) as Hmax.
    rewrite fromtimestamp_raises; [reflexivity |].
    unfold in_datetime_range. lia. }
  split; [exact Hit |].
  intros execute fuel n Hex. rewrite loop_S, Hex, Hit. reflexivity.
Qed.

(** X10 at a batch of two, one of them with a timestamp in milliseconds. *)
Lemma late_timestamp_aborts_batch_witness :
  exists e,
    iteration 5 sticky_state (Events [sample 100 "c"; sample 1700000000000 "d"])
    = Raised e sticky_state /\
    (forall (execute : nat -> where_clause -> nat -> response) (fuel n : nat),
       execute n (build_where sticky_state) 5%nat
       = Events [sample 100 "c"; sample 1700000000000 "d"] ->
       loop execute 5 (S fuel) n sticky_state = Failed e sticky_state).
Proof.
  refine (late_timestamp_aborts_batch 5 sticky_state
            [sample 100 "c"; sample 1700000000000 "d"]
            (sample 1700000000000 "d") _ _).
  - right. left. reflexivity.
  - reflexivity.
Defined.

(** X11. The store is only appended to. Whatever the service answers and
    however the run ends, a store that holds [text] when [scrape] is called
    holds [text] followed by the rows appended; an absent store stays absent
    when nothing is appended (no file with the header alone is made) and
    holds the header followed by the rows appended otherwise; to a store
    that cannot be opened nothing is appended. *)
Theorem store_append_only (read_csv : string -> result DataFrame)
    (execute : nat -> where_clause -> nat -> response) (at_once fuel : nat) (text : string) :
  (let s := run_state (scrape read_csv execute at_once fuel (File text)) in
   output_file s = File (text ++ csv_rows (appended s))) /\
  (let s := run_state (scrape read_csv execute at_once fuel NoFile) in
   output_file s = match appended s with
                   | [] => NoFile
                   | _ => File (csv_header ++ csv_rows (appended s))
                   end) /\
  (let s := run_state (scrape read_csv execute at_once fuel NoAccess) in
   output_file s = NoAccess /\ appended s = []).
Proof.
  split; [| split]; cbv zeta.
  - destruct (scrape_loop read_csv execute at_once fuel (File text)) as [t [_ ->]].
    rewrite (loop_file_after execute at_once fuel 0 _ (File text)) by reflexivity.
    destruct (appended _); [simpl; rewrite string_app_nil_r |]; reflexivity.
  - destruct (scrape_loop read_csv execute at_once fuel NoFile) as [t [_ ->]].
    rewrite (loop_file_after execute at_once fuel 0 _ NoFile) by reflexivity.
    destruct (appended _); reflexivity.
  - destruct (scrape_loop read_csv execute at_once fuel NoAccess) as [t [_ ->]].
    apply (loop_invariant execute at_once
             (fun s => output_file s = NoAccess /\ appended s = [])).
    + intros n s0 [Hf0 H0].
      destruct (iteration_counts at_once s0 (execute n (build_where s0) at_once))
        as [[_ [_ [Ha Ho]]] | [e0 [l' [_ [_ [_ Hw]]]]]].
      * rewrite Ha, Ho. split; assumption.
      * destruct Hw as [[_ [Ha Ho]] | [Hno _]]; [| congruence].
        rewrite Ha, Ho. split; [reflexivity | exact H0].
    + split; reflexivity.
Qed.

(** X12. A store that cannot be opened. On a store file that exists and can
    neither be read nor written, recovery falls back to the cursor (0, null);
    against a source of dates with an event after timestamp 0 (pages of at
    least one event) [scrape] then raises [OSError] at the first batch, the
    store as it was. *)
Theorem unopenable_store_fails (read_csv : string -> result DataFrame) (db : list event)
    (at_once fuel : nat) :
  (0 < at_once)%nat ->
  Forall (fun e => in_datetime_range (Ev.timestamp e)) db ->
  filter (matches (timestamp_gt 0)) db <> [] ->
  get_latest_cursor read_csv NoAccess = Ok (0, None) /\
  exists s,
    scrape read_csv (steady db) at_once (S fuel) NoAccess = Failed OSError s /\
    output_file s = NoAccess /\ appended s = [].
Proof.
  intros Hpos Hdb Hne. split; [reflexivity |].
  apply (loop_unopenable db at_once fuel 0 Hpos Hdb Hne).
Qed.

(** X12 at [source_sticky], pages of two. *)
Lemma unopenable_store_fails_witness :
  exists s,
    scrape read_csv_rejects (steady source_sticky) 2 1 NoAccess = Failed OSError s /\
    output_file s = NoAccess /\ appended s = [].
Proof.
  refine (proj2 (unopenable_store_fails read_csv_rejects source_sticky 2 0 _ _ _)).
  - repeat constructor.
  - exact samples_in_datetime_range.
  - discriminate.
Defined.



(** X14. The query text. The text sent to the service tells the page size
    and the filter: two query texts that are the same were built for the
    same page size and the same filter. The fields the text asks for include
    every column that is saved, and the timestamp and the id by which a
    batch is sorted. *)
Theorem query_text_determines_page (at_once at_once' : nat) (s s' : state) :
  (q_string at_once s = q_string at_once' s' ->
   at_once = at_once' /\ build_where s = build_where s') /\
  (forall col, In col COLUMNS_TO_SAVE -> In col query_fields) /\
  In "timestamp" query_fields /\ In "id" query_fields.
Proof.
  split.
  - unfold q_string. intros H. apply string_app_inv_head in H.
    unfold q_middle in H. cbn [String.append] in H.
    destruct (string_until is_LF _ _ Py.LF Py.LF _ _ (str_no_LF _) (str_no_LF _)
                eq_refl eq_refl H) as [Ha Hr].
    split; [apply Nat2Z.inj, str_inj, Ha |].
    apply string_app_inv_head in Hr. apply string_app_inv_tail in Hr.
    apply where_text_inj, Hr.
  - split; [| split].
    + intros col H. simpl in H. simpl. tauto.
    + simpl. tauto.
    + simpl. tauto.
Qed.

(** X14 at two states with the same cursor and different counters. *)
Lemma query_text_determines_page_witness :
  2%nat = 2%nat /\
  build_where sticky_state = build_where (with_slept sticky_state 5).
Proof.
  refine (proj1 (query_text_determines_page 2 2 sticky_state (with_slept sticky_state 5)) _).
  reflexivity.
Defined.

(** X15. The cursor never moves back. Against a service that answers each
    query with events passing its filter, an event that lies at or before
    the cursor in one state of the loop lies at or before the cursor in every
    later state, however the run goes on. *)
Theorem cursor_never_moves_back (execute : nat -> where_clause -> nat -> response)
    (at_once fuel n : nat) (s : state) (a : event) :
  honest execute -> cursor_shape s -> below_cursor s a ->
  below_cursor (run_state (loop execute at_once fuel n s)) a.
Proof.
  intros Hh Hshape Ha.
  apply (loop_invariant execute at_once (fun s' => cursor_shape s' /\ below_cursor s' a));
    [| split; assumption].
  clear n. intros n s0 [H0 Ha0]. split.
  - apply iteration_cursor_shape, H0.
  - apply iteration_below_kept; [exact H0 | | exact Ha0].
    specialize (Hh n (build_where s0) at_once).
    destruct (execute n (build_where s0) at_once); [exact I | exact I | exact Hh].
Qed.

(** X15 from [sticky_state] against [source_sticky]: the event of id a. *)
Lemma cursor_never_moves_back_witness :
  below_cursor (run_state (loop (steady source_sticky) 2 3 1 sticky_state))
               (sample 100 "a").
Proof.
  apply (cursor_never_moves_back (steady source_sticky) 2 3 1 sticky_state (sample 100 "a")).
  - apply steady_honest.
  - unfold cursor_shape. simpl. split; discriminate.
  - unfold below_cursor. simpl. right. split; [reflexivity |].
    exists "b". split; [reflexivity | discriminate].
Defined.

(** X16. Which row of an id is kept. An iteration that goes through with a
    batch appends rows of the batch only, no two of them with one id, and for
    every row of the batch a row with its id: no id is lost, and of the rows
    of one id the one kept has the least timestamp. *)
Theorem batch_keeps_earliest_of_id (at_once : nat) (s s' : state) (l : list event) :
  iteration at_once s (Events l) = Continue s' \/
  iteration at_once s (Events l) = Break s' ->
  l = [] /\ appended s' = appended s \/
  exists rows,
    appended s' = (appended s ++ rows)%list /\
    NoDup (map Ev.id rows) /\
    (forall e, In e rows -> In e l) /\
    (forall x, In x l ->
       exists e, In e rows /\ Ev.id e = Ev.id x /\ Ev.timestamp e <= Ev.timestamp x).
Proof.
  intros Hit. destruct l as [| e0 l'].
  - left. split; [reflexivity |].
    simpl in Hit. destruct (sticky_timestamp s);
      destruct Hit as [H | H]; try discriminate; injection H as <-; reflexivity.
  - right. exists (drop_duplicates (sort_values (e0 :: l'))).
    destruct (iteration_written at_once s s' e0 l' Hit) as [Ha _].
    split; [exact Ha |]. split; [apply drop_duplicates_from_NoDup |]. split.
    + intros e He. apply drop_duplicates_from_In in He.
      apply (proj1 (sort_values_In _ _)) in He. exact He.
    + intros x Hx. apply (proj2 (sort_values_In _ _)) in Hx.
      destruct (drop_duplicates_from_first [] _ x Hx (fun H => H))
        as [l1 [e [l2 [Hl [Hid [Hin Hpos]]]]]].
      exists e. split; [exact Hin |]. split; [exact Hid |].
      destruct Hpos as [-> | Hpos]; [lia |].
      apply key_le_timestamp.
      apply (sorted_app_cons_le l1 l2 e x); [| exact Hpos].
      rewrite <- Hl. apply sort_values_sorted.
Qed.

(** X16 at a batch that has the id a at the timestamps 200 and 100. *)
Lemma batch_keeps_earliest_of_id_witness :
  [sample 200 "a"; sample 100 "a"] = [] /\
  appended (mkState 200 None None 1 2
              (File (csv_header ++ csv_rows [sample 100 "a"])) [sample 100 "a"] 0)
  = appended (initial_state (0, None) NoFile)
  \/
  exists rows,
    appended (mkState 200 None None 1 2
                (File (csv_header ++ csv_rows [sample 100 "a"])) [sample 100 "a"] 0)
    = (appended (initial_state (0, None) NoFile) ++ rows)%list /\
    NoDup (map Ev.id rows) /\
    (forall e, In e rows -> In e [sample 200 "a"; sample 100 "a"]) /\
    (forall x, In x [sample 200 "a"; sample 100 "a"] ->
       exists e, In e rows /\ Ev.id e = Ev.id x /\ Ev.timestamp e <= Ev.timestamp x).
Proof.
  apply (batch_keeps_earliest_of_id 5 (initial_state (0, None) NoFile)).
  right. vm_compute. reflexivity.
Defined.

(** X17. Failed queries only delay. Let a service answer every query
    either with an error or as the fixed source does. A run of [scrape]
    against it that has ended has ended as the run against the source
    itself does, in the same state but for the time slept, which is five
    seconds for each failed query: the store, the cursor and the counters are
    the same. *)
Theorem failures_only_delay (read_csv : string -> result DataFrame) (db : list event)
    (execute : nat -> where_clause -> nat -> response) (at_once fuel : nat) (f : file) :
  fails_or_serves db execute ->
  has_ended (scrape read_csv execute at_once fuel f) = true ->
  exists k : nat,
    (k <= fuel)%nat /\
    scrape read_csv execute at_once fuel f
    = run_with_slept (scrape read_csv (steady db) at_once fuel f) (5 * Z.of_nat k).
Proof.
  intros Hex Hend. unfold scrape in *.
  destruct (get_latest_cursor read_csv f) as [c | e].
  - exact (loop_failures_delay db execute at_once fuel 0 0 (initial_state c f) 0 Hex Hend).
  - exists 0%nat. split; [lia | reflexivity].
Qed.

(** X17 against a service whose first three calls fail. *)
Lemma failures_only_delay_witness :
  exists k : nat,
    (k <= 5)%nat /\
    scrape read_csv_rejects (flaky 3 source_one) 5 5 NoFile
    = run_with_slept (scrape read_csv_rejects (steady source_one) 5 5 NoFile)
                     (5 * Z.of_nat k).
Proof.
  apply (failures_only_delay read_csv_rejects source_one (flaky 3 source_one) 5 5 NoFile).
  - apply flaky_fails_or_serves.
  - vm_compute. reflexivity.
Defined.


(** X19. Leaving the loop from normal mode. When the loop is left by an
    iteration that began in normal mode (pages of at least one event, a fixed
    source), the timestamp cursor has passed every event of the source:
    nothing is left to fetch. An event of the source can only stay behind,
    as in C1, when the loop is left by an iteration that began in sticky
    mode. *)
Theorem normal_exit_is_complete (db : list event) (at_once : nat) (s s' : state) :
  (0 < at_once)%nat -> sticky_timestamp s = None ->
  iteration at_once s (remote_fetch db (build_where s) at_once) = Break s' ->
  sticky_timestamp s' = None /\
  Forall (fun e => Ev.timestamp e <= last_timestamp s') db.
Proof.
  intros Hpos Hst Hit.
  split; [apply (iteration_break_not_sticky _ _ _ _ Hit) |].
  revert Hit. unfold remote_fetch, build_where. rewrite Hst. cbn [parses].
  set (S := sort_values (filter (matches (timestamp_gt (last_timestamp s))) db)).
  assert (HinS : forall e, In e db -> last_timestamp s < Ev.timestamp e -> In e S).
  { intros e He Hlt. apply sort_values_In, filter_In. split; [exact He |].
    simpl. apply Z.ltb_lt, Hlt. }
  destruct (firstn at_once S) as [| e0 l'] eqn:El.
  - simpl. rewrite Hst. intros [= <-].
    apply firstn_nil_inv in El; [| exact Hpos].
    rewrite Forall_forall. intros e He.
    destruct (Z.le_gt_cases (Ev.timestamp e) (last_timestamp s)) as [H | H]; [exact H |].
    exfalso. specialize (HinS e He ltac:(lia)). rewrite El in HinS. destruct HinS.
  - set (l := e0 :: l') in *. set (df := sort_values l).
    assert (Hlen : List.length df = List.length l) by apply sort_values_length.
    change (iteration at_once s (Events l))
      with (match Py.fromtimestamp (Ev.timestamp (last df e0)) with
            | Raise e => Raised e s
            | Ok _ => save_batch at_once (advance_cursor at_once s e0 df) df
            end).
    destruct (Py.fromtimestamp _); [| discriminate].
    unfold save_batch. destruct (to_csv _ _) as [f | e]; [| discriminate].
    cbv zeta. cbn [sticky_timestamp].
    destruct (Nat.le_gt_cases at_once (List.length df)) as [Hfull | Hshort].
    + destruct (advance_cursor_full at_once s e0 df Hfull) as [Hs1 _].
      rewrite Hs1, andb_false_r. discriminate.
    + destruct (advance_cursor_short at_once s e0 df Hshort) as [Hs1 Hl1].
      rewrite Hst in Hl1. rewrite Hs1.
      case_if; [| discriminate].
      intros [= <-]. cbn [last_timestamp]. rewrite Hl1.
      assert (Hall : firstn at_once S = S).
      { apply firstn_short. rewrite El. lia. }
      assert (Hlast : In (last df e0) l).
      { apply sort_values_In, last_In, sort_values_not_nil. discriminate. }
      assert (Hgt : last_timestamp s < Ev.timestamp (last df e0)).
      { rewrite <- El in Hlast. apply firstn_subset in Hlast.
        apply (proj1 (sort_values_In _ _)) in Hlast.
        apply (proj1 (filter_In _ _ _)) in Hlast. destruct Hlast as [_ Hm].
        simpl in Hm. apply Z.ltb_lt in Hm. exact Hm. }
      rewrite Forall_forall. intros e He.
      destruct (Z.le_gt_cases (Ev.timestamp e) (last_timestamp s)) as [H | H]; [lia |].
      specialize (HinS e He ltac:(lia)). rewrite <- Hall, El in HinS.
      apply batch_last_timestamp_max. exact HinS.
Qed.

(** X19 at the first iteration of a run against [source_two], pages of
    five. *)
Lemma normal_exit_is_complete_witness :
  sticky_timestamp (run_state first_run_two) = None /\
  Forall (fun e => Ev.timestamp e <= last_timestamp (run_state first_run_two)) source_two.
Proof.
  apply (normal_exit_is_complete source_two 5 (initial_state (0, None) NoFile)).
  - repeat constructor.
  - reflexivity.
  - vm_compute. reflexivity.
Defined.
